(** * Workflow engine of genai-stack: validation, scheduling and node handlers

    A shallow embedding of [backend/app/services/workflow_engine.py].
    Python dictionaries read with [.get] become records whose fields are
    options ([None] is Python's [None]: the key is absent); the [results]
    dictionary of the execution context keeps Python's insertion order; the
    two collaborators (completion and retrieval) and the wall clock are the
    fields of the engine record that plays the role of [self].

    The configurations of the model are those in which a key is absent or
    holds a value of its expected type. A key that is present with JSON null
    is outside the model: for the keys read with a default ([model],
    [temperature], [maxTokens], [topK], [embeddingProvider]) the code does not
    apply the default to null, and [None] stands for the absent key only.
    Strings are taken as ASCII text ([lower] maps the letters A to Z). *)

From Stdlib Require Import List String Ascii Bool Arith Lia ZArith QArith.
Import ListNotations.
Local Open Scope string_scope.
Local Open Scope nat_scope.

(** ** Python values read from the configuration *)

(** The value of [d.get(key)] for a string-valued key. *)
Definition pyval := option string.

Definition pyval_eqb (a b : pyval) : bool :=
  match a, b with
  | Some x, Some y => String.eqb x y
  | None, None => true
  | _, _ => false
  end.

(** [str(x)] inside an f-string. *)
Definition py_str (v : pyval) : string :=
  match v with
  | Some s => s
  | None => "None"
  end.

(** [x in xs] for a set or list of such values. *)
Definition py_in (v : pyval) (xs : list pyval) : bool :=
  existsb (pyval_eqb v) xs.

(** ** Data model *)

(** [class ComponentType(Enum)], by value. *)
Definition USER_QUERY : string := "user_query".
Definition KNOWLEDGE_BASE : string := "knowledge_base".
Definition LLM_ENGINE : string := "llm_engine".
Definition OUTPUT : string := "output".
Definition WEB_SEARCH : string := "web_search".

Definition ComponentType : list string :=
  [USER_QUERY; KNOWLEDGE_BASE; LLM_ENGINE; OUTPUT; WEB_SEARCH].

(** [node["data"]["config"]]: the keys the engine reads. *)
Record NodeConfig : Type := mkConfig {
  cfg_apiKey : option string;
  cfg_prompt : option string;
  cfg_model : option string;
  cfg_systemPrompt : option string;
  cfg_temperature : option Q;
  cfg_maxTokens : option Z;
  cfg_topK : option Z;
  cfg_embeddingProvider : option string
}.

(** [{}]: what [.get("config", {})] gives when the key is absent. *)
Definition empty_config : NodeConfig :=
  mkConfig None None None None None None None None.

Record NodeData : Type := mkData {
  data_type : pyval;
  data_config : NodeConfig
}.

Definition empty_data : NodeData := mkData None empty_config.

Record Node : Type := mkNode {
  node_id : pyval;
  node_type : pyval;
  node_data : NodeData
}.

Record Edge : Type := mkEdge {
  edge_source : pyval;
  edge_target : pyval
}.

Record WorkflowConfig : Type := mkWorkflow {
  workflow_id : pyval;
  nodes : list Node;
  edges : list Edge
}.

Record ValidationResult : Type := mkValidation {
  valid : bool;
  errors : list string;
  warnings : list string
}.

(** ** Validation *)

(** The type a node is checked and dispatched under: its [type], or
    [data.type] when [type] is the wrapper marker ["custom"]. *)
Definition effective_type (n : Node) : pyval :=
  if pyval_eqb (node_type n) (Some "custom")
  then data_type (node_data n)
  else node_type n.

Definition valid_types : list pyval := map Some ComponentType.

(** [n.get("type") == kind or n.get("data", {}).get("type") == kind] *)
Definition has_kind (kind : string) (n : Node) : bool :=
  pyval_eqb (node_type n) (Some kind)
  || pyval_eqb (data_type (node_data n)) (Some kind).

Definition invalid_node_type (v : pyval) : string :=
  "Invalid node type: " ++ py_str v.

Definition node_type_errors (ns : list Node) : list string :=
  flat_map (fun n =>
    if py_in (effective_type n) valid_types then []
    else [invalid_node_type (effective_type n)]) ns.

Definition invalid_edge_source (v : pyval) : string :=
  "Invalid edge source: " ++ py_str v.
Definition invalid_edge_target (v : pyval) : string :=
  "Invalid edge target: " ++ py_str v.

Definition edge_errors (node_ids : list pyval) (es : list Edge) : list string :=
  flat_map (fun e =>
    ((if py_in (edge_source e) node_ids then []
      else [invalid_edge_source (edge_source e)])
     ++
     (if py_in (edge_target e) node_ids then []
      else [invalid_edge_target (edge_target e)]))%list) es.

(** [not config.get("apiKey")] *)
Definition falsy (v : option string) : bool :=
  match v with
  | None => true
  | Some s => String.eqb s ""
  end.

Definition missing_api_key (v : pyval) : string :=
  "LLM node " ++ py_str v ++ " missing API key".

Definition api_key_warnings (ns : list Node) : list string :=
  flat_map (fun n =>
    if falsy (cfg_apiKey (data_config (node_data n)))
    then [missing_api_key (node_id n)]
    else []) (filter (has_kind LLM_ENGINE) ns).

Definition missing_nodes_error : string :=
  "Workflow must have at least one node".
Definition missing_input_error : string :=
  "Workflow must have at least one User Query node".
Definition missing_output_error : string :=
  "Workflow must have at least one Output node".

Definition validation_errors (workflow_config : WorkflowConfig) : list string :=
  let ns := nodes workflow_config in
  let es := edges workflow_config in
  ((match ns with [] => [missing_nodes_error] | _ => [] end)
   ++ node_type_errors ns
   ++ (if existsb (has_kind USER_QUERY) ns then [] else [missing_input_error])
   ++ (if existsb (has_kind OUTPUT) ns then [] else [missing_output_error])
   ++ edge_errors (map node_id ns) es)%list.

(** ** Strings *)

(** The line feed, and the blank-line separator of the joins. *)
Definition nl : string := String "010"%char EmptyString.
Definition blank_line : string := nl ++ nl.

(** [str.lower], on the ASCII letters. *)
Definition lower_char (c : ascii) : ascii :=
  let n := nat_of_ascii c in
  if (65 <=? n) && (n <=? 90) then ascii_of_nat (n + 32) else c.

Fixpoint lower (s : string) : string :=
  match s with
  | EmptyString => EmptyString
  | String c s' => String (lower_char c) (lower s')
  end.

(** [pat in s] *)
Fixpoint contains (pat s : string) : bool :=
  prefix pat s ||
  match s with
  | EmptyString => false
  | String _ s' => contains pat s'
  end.

(** [s[n:]] *)
Fixpoint drop (n : nat) (s : string) : string :=
  match n, s with
  | O, _ => s
  | S _, EmptyString => EmptyString
  | S k, String _ s' => drop k s'
  end.

(** [s.replace(old, new)] for a non-empty [old]: the occurrences are taken
    from the left and do not overlap; [skip] counts the characters of a
    match still to be dropped. *)
Fixpoint replace_from (skip : nat) (old new s : string) : string :=
  match s with
  | EmptyString => EmptyString
  | String c s' =>
      match skip with
      | S k => replace_from k old new s'
      | O =>
          if prefix old s
          then new ++ replace_from (String.length old - 1) old new s'
          else String c (replace_from 0 old new s')
      end
  end.

Definition replace (old new s : string) : string := replace_from 0 old new s.

(** ** Dictionaries keyed by node id, in insertion order *)

Section Dict.
Context {V : Type}.

Definition dict : Type := list (pyval * V).

Fixpoint dict_get (k : pyval) (d : dict) : option V :=
  match d with
  | [] => None
  | (k', v) :: d' => if pyval_eqb k k' then Some v else dict_get k d'
  end.

(** [d[k] = v]: an existing key keeps its place, a new one goes last. *)
Fixpoint dict_set (k : pyval) (v : V) (d : dict) : dict :=
  match d with
  | [] => [(k, v)]
  | (k', v') :: d' =>
      if pyval_eqb k k' then (k, v) :: d' else (k', v') :: dict_set k v d'
  end.

(** [d[k] = f(d[k])] for a key that is present (nothing otherwise). *)
Fixpoint dict_update (k : pyval) (f : V -> V) (d : dict) : dict :=
  match d with
  | [] => []
  | (k', v') :: d' =>
      if pyval_eqb k k' then (k', f v') :: d' else (k', v') :: dict_update k f d'
  end.

Definition dict_keys (d : dict) : list pyval := map fst d.
Definition dict_values (d : dict) : list V := map snd d.
Definition dict_mem (k : pyval) (d : dict) : bool := py_in k (dict_keys d).
End Dict.

Arguments dict V : clear implicits.

(** A Python [set] of ids: [add] keeps one copy. *)
Definition set_add (k : pyval) (s : list pyval) : list pyval :=
  if py_in k s then s else (s ++ [k])%list.

(** ** Node results, collaborators and the engine *)

Definition Metadata : Type := list (string * string).

(** The dictionaries the handlers return, and the one stored for a node
    whose handler raised: [{"error": str(result)}]. *)
Inductive NodeResult : Type :=
| UserQueryResult (content timestamp : string)
| KnowledgeBaseResult (documents : list string) (relevance_scores : list Q)
    (metadata : list Metadata)
| LlmResponse (content : string) (model : option string) (timestamp : string)
| WebSearchResult (query message : string)
| OutputResult (content timestamp : string)
| ErrorRecord (error : string).

(** [result.get("type")] *)
Definition result_type (r : NodeResult) : pyval :=
  match r with
  | UserQueryResult _ _ => Some "user_query"
  | KnowledgeBaseResult _ _ _ => Some "knowledge_base"
  | LlmResponse _ _ _ => Some "llm_response"
  | WebSearchResult _ _ => Some "web_search"
  | OutputResult _ _ => Some "output"
  | ErrorRecord _ => None
  end.

(** [result.get("content", "")] *)
Definition result_content (r : NodeResult) : string :=
  match r with
  | UserQueryResult c _ | LlmResponse c _ _ | OutputResult c _ => c
  | _ => ""
  end.

(** [result.get("documents")], the absent key read as the empty list. *)
Definition result_documents (r : NodeResult) : list string :=
  match r with
  | KnowledgeBaseResult docs _ _ => docs
  | _ => []
  end.

(** ["error" in r] *)
Definition has_error_key (r : NodeResult) : bool :=
  match r with
  | ErrorRecord _ => true
  | _ => false
  end.

Definition Results : Type := dict NodeResult.

Inductive LLMProvider : Type := OPENAI | GEMINI.

Record CompletionRequest : Type := mkCompletion {
  req_prompt : string;
  req_provider : LLMProvider;
  req_model : option string;
  req_temperature : Q;
  req_max_tokens : Z;
  req_system_prompt : option string;
  req_api_key : option string
}.

Record RetrievalRequest : Type := mkRetrieval {
  req_query_text : string;
  req_n_results : Z;
  req_embedding_provider : string
}.

Record SearchResults : Type := mkSearch {
  sr_documents : list string;
  sr_distances : list Q;
  sr_metadatas : list Metadata
}.

(** A call either returns or raises an exception [e]; [message] is [str(e)]. *)
Inductive outcome (A : Type) : Type :=
| Ok (a : A)
| Raise (message : string).
Arguments Ok {A} a.
Arguments Raise {A} message.

(** A collaborator invocation, as recorded in the run's call log. *)
Inductive Call : Type :=
| CompletionCall (req : CompletionRequest)
| RetrievalCall (req : RetrievalRequest).

(** [self]: the completion and retrieval collaborators and the clock read by
    [datetime.utcnow().isoformat()]. *)
Record WorkflowEngine : Type := mkEngine {
  generate_completion : CompletionRequest -> outcome string;
  search_by_text : RetrievalRequest -> outcome SearchResults;
  utcnow : string
}.

(** [validate_workflow]: [self] is a parameter of the method and is never
    read by it. *)
Definition validate_workflow (self : WorkflowEngine)
  (workflow_config : WorkflowConfig) : ValidationResult :=
  let errs := validation_errors workflow_config in
  mkValidation
    (match errs with [] => true | _ => false end)
    errs
    (api_key_warnings (nodes workflow_config)).

Record Context : Type := mkContext {
  user_input : string;
  session_id : option string;
  results : Results;
  start_time : string;
  end_time : option string;
  metadata_workflow_id : pyval
}.

(** ** Node handlers

    A handler returns its outcome and the collaborator calls it made. *)

Definition Handled : Type := (outcome NodeResult * list Call)%type.

Definition _execute_user_query (self : WorkflowEngine) (node : Node)
  (context : Context) : Handled :=
  (Ok (UserQueryResult (user_input context) (utcnow self)), []).

Definition default {A : Type} (d : A) (o : option A) : A :=
  match o with
  | Some a => a
  | None => d
  end.

Definition knowledge_base_request (config : NodeConfig) (context : Context)
  : RetrievalRequest :=
  mkRetrieval (user_input context)
    (default 5%Z (cfg_topK config))
    (default "openai" (cfg_embeddingProvider config)).

Definition _execute_knowledge_base (self : WorkflowEngine) (node : Node)
  (context : Context) : Handled :=
  let config := data_config (node_data node) in
  let req := knowledge_base_request config context in
  match search_by_text self req with
  | Raise msg => (Raise msg, [RetrievalCall req])
  | Ok search_results =>
      (Ok (KnowledgeBaseResult (sr_documents search_results)
             (sr_distances search_results) (sr_metadatas search_results)),
       [RetrievalCall req])
  end.

(** The first result of type [knowledge_base], in the order of
    [context["results"].values()]. *)
Definition kb_results (context : Context) : option NodeResult :=
  find (fun result => pyval_eqb (result_type result) (Some "knowledge_base"))
       (dict_values (results context)).

Definition context_block (docs : list string) (prompt : string) : string :=
  "Context:" ++ nl ++ String.concat blank_line (firstn 3 docs)
  ++ blank_line ++ "Question: " ++ prompt.

Definition with_knowledge (context : Context) (prompt : string) : string :=
  match kb_results context with
  | Some kb =>
      match result_documents kb with
      | [] => prompt
      | docs => context_block docs prompt
      end
  | None => prompt
  end.

Definition with_template (config : NodeConfig) (prompt : string) : string :=
  if falsy (cfg_prompt config) then prompt
  else replace "{query}" prompt (default "" (cfg_prompt config)).

Definition llm_prompt (config : NodeConfig) (context : Context) : string :=
  with_template config (with_knowledge context (user_input context)).

Definition llm_provider (config : NodeConfig) : LLMProvider :=
  let model_name := lower (default "" (cfg_model config)) in
  if contains "gemini" model_name then GEMINI else OPENAI.

Definition llm_request (config : NodeConfig) (context : Context)
  : CompletionRequest :=
  mkCompletion (llm_prompt config context) (llm_provider config)
    (cfg_model config)
    (default (7 # 10)%Q (cfg_temperature config))
    (default 1000%Z (cfg_maxTokens config))
    (cfg_systemPrompt config)
    (cfg_apiKey config).

Definition _execute_llm_engine (self : WorkflowEngine) (node : Node)
  (context : Context) : Handled :=
  let config := data_config (node_data node) in
  let req := llm_request config context in
  match generate_completion self req with
  | Raise msg => (Raise msg, [CompletionCall req])
  | Ok response =>
      (Ok (LlmResponse response (cfg_model config) (utcnow self)),
       [CompletionCall req])
  end.

Definition _execute_web_search (self : WorkflowEngine) (node : Node)
  (context : Context) : Handled :=
  (Ok (WebSearchResult (user_input context)
         "Web search integration coming soon"), []).

Definition output_content (context : Context) : list string :=
  flat_map (fun result =>
    if pyval_eqb (result_type result) (Some "llm_response")
    then [result_content result] else [])
    (dict_values (results context)).

Definition _execute_output (self : WorkflowEngine) (node : Node)
  (context : Context) : Handled :=
  let contents := output_content context in
  (Ok (OutputResult
         (match contents with
          | [] => "No output generated"
          | _ => String.concat blank_line contents
          end)
         (utcnow self)), []).

Definition unknown_node_type (v : pyval) : string :=
  "Unknown node type: " ++ py_str v.

Definition _execute_node (self : WorkflowEngine) (node : Node)
  (context : Context) : Handled :=
  let node_type := effective_type node in
  if pyval_eqb node_type (Some USER_QUERY)
  then _execute_user_query self node context
  else if pyval_eqb node_type (Some KNOWLEDGE_BASE)
  then _execute_knowledge_base self node context
  else if pyval_eqb node_type (Some LLM_ENGINE)
  then _execute_llm_engine self node context
  else if pyval_eqb node_type (Some WEB_SEARCH)
  then _execute_web_search self node context
  else if pyval_eqb node_type (Some OUTPUT)
  then _execute_output self node context
  else (Raise (unknown_node_type node_type), []).

(** ** Execution graph *)

Record GraphEntry : Type := mkEntry {
  entry_node : Node;
  dependencies : list pyval;
  dependents : list pyval
}.

Definition ExecutionGraph : Type := dict GraphEntry.

Definition add_dependency (source : pyval) (e : GraphEntry) : GraphEntry :=
  mkEntry (entry_node e) (dependencies e ++ [source])%list (dependents e).

Definition add_dependent (target : pyval) (e : GraphEntry) : GraphEntry :=
  mkEntry (entry_node e) (dependencies e) (dependents e ++ [target])%list.

Definition add_edge (graph : ExecutionGraph) (edge : Edge) : ExecutionGraph :=
  let source := edge_source edge in
  let target := edge_target edge in
  if dict_mem source graph && dict_mem target graph
  then dict_update source (add_dependent target)
         (dict_update target (add_dependency source) graph)
  else graph.

Definition _build_execution_graph (ns : list Node) (es : list Edge)
  : ExecutionGraph :=
  let graph :=
    fold_left (fun g node => dict_set (node_id node) (mkEntry node [] []) g)
      ns [] in
  fold_left add_edge es graph.

(** [execution_graph.get(node_id, {}).get("dependencies", [])] *)
Definition dependencies_of (graph : ExecutionGraph) (k : pyval) : list pyval :=
  match dict_get k graph with
  | Some e => dependencies e
  | None => []
  end.

(** ** The wave loop *)

(** A wave as it was run: the ready nodes, the context their handlers were
    given, the set of executed ids at that moment and what each handler
    produced. The list of waves is a history kept for the statements about
    ordering; the source does not keep it. *)
Record Wave : Type := mkWave {
  wave_ready : list Node;
  wave_context : Context;
  wave_executed : list pyval;
  wave_outcomes : list (outcome NodeResult)
}.

Record RunState : Type := mkState {
  context : Context;
  executed_nodes : list pyval;
  calls : list Call;
  waves : list Wave
}.

Definition ready_nodes (ns : list Node) (graph : ExecutionGraph)
  (executed : list pyval) : list Node :=
  filter (fun node =>
    negb (py_in (node_id node) executed)
    && forallb (fun dep => py_in dep executed)
         (dependencies_of graph (node_id node))) ns.

(** What is written to [context["results"][node_id]]. *)
Definition stored (result : outcome NodeResult) : NodeResult :=
  match result with
  | Ok r => r
  | Raise msg => ErrorRecord msg
  end.

(** One turn of [for node, result in zip(ready_nodes, results)]. *)
Definition commit (acc : Results * list pyval)
  (nr : Node * outcome NodeResult) : Results * list pyval :=
  (dict_set (node_id (fst nr)) (stored (snd nr)) (fst acc),
   set_add (node_id (fst nr)) (snd acc)).

Definition set_results (c : Context) (rs : Results) : Context :=
  mkContext (user_input c) (session_id c) rs (start_time c) (end_time c)
    (metadata_workflow_id c).

(** [asyncio.gather] with [return_exceptions=True], and the commit loop.
    Every handler of the wave is given the context as it is when the wave
    starts: nothing is written to it before all of them have finished. The
    calls of one wave are logged in the order of the ready list. *)
Definition run_wave (self : WorkflowEngine) (ready : list Node)
  (st : RunState) : RunState :=
  let tasks := map (fun node => _execute_node self node (context st)) ready in
  let gathered := map fst tasks in
  let acc :=
    fold_left commit (combine ready gathered)
      (results (context st), executed_nodes st) in
  mkState (set_results (context st) (fst acc)) (snd acc)
    (calls st ++ List.concat (map snd tasks))%list
    (waves st ++ [mkWave ready (context st) (executed_nodes st) gathered])%list.

(** How the [while] loop was left: its condition became false, or [break]. *)
Inductive LoopExit : Type := AllExecuted | NoReadyNodes.

Inductive Step : Type :=
| Continue (st : RunState)
| Exit (e : LoopExit).

(** The loop test and one execution of the loop body. *)
Definition loop_iteration (self : WorkflowEngine) (ns : list Node)
  (graph : ExecutionGraph) (st : RunState) : Step :=
  if List.length (executed_nodes st) <? List.length ns then
    match ready_nodes ns graph (executed_nodes st) with
    | [] => Exit NoReadyNodes
    | ready => Continue (run_wave self ready st)
    end
  else Exit AllExecuted.

(** The loop, with a bound on the number of waves; [None] when the bound is
    reached with a wave still to run. *)
Fixpoint wave_loop (fuel : nat) (self : WorkflowEngine) (ns : list Node)
  (graph : ExecutionGraph) (st : RunState) : option (RunState * LoopExit) :=
  match loop_iteration self ns graph st with
  | Exit e => Some (st, e)
  | Continue st' =>
      match fuel with
      | O => None
      | S fuel' => wave_loop fuel' self ns graph st'
      end
  end.

(** Executions of the loop body: one per wave, and one for the [break]. *)
Definition iterations (final : RunState * LoopExit) : nat :=
  List.length (waves (fst final))
  + match snd final with NoReadyNodes => 1 | AllExecuted => 0 end.

(** ** [execute_workflow] *)

Record ExecutionSummary : Type := mkSummary {
  summary_total_nodes : nat;
  summary_executed_nodes : nat;
  summary_errors : nat
}.

Record ExecutionResult : Type := mkResult {
  output : list NodeResult;
  result_context : Context;
  execution_summary : ExecutionSummary
}.

(** [raise ValueError(f"Invalid workflow: {validation['errors']}")], kept
    with the error list it prints. *)
Inductive Exception : Type :=
| InvalidWorkflow (errs : list string).

Inductive Completion : Type :=
| Returns (r : ExecutionResult)
| Raises (e : Exception).

(** The outcome of a call, with the run it made: [None] when the call raised
    before a context was built and the loop entered. *)
Definition Execution : Type := (Completion * option (RunState * LoopExit))%type.

Definition initial_state (self : WorkflowEngine)
  (workflow_config : WorkflowConfig) (input : string)
  (session : option string) : RunState :=
  mkState
    (mkContext input session [] (utcnow self) None
       (workflow_id workflow_config))
    [] [] [].

Definition final_output (ns : list Node) (rs : Results) : list NodeResult :=
  flat_map (fun output_node =>
    match dict_get (node_id output_node) rs with
    | Some r => [r]
    | None => []
    end) (filter (has_kind OUTPUT) ns).

Definition set_end_time (c : Context) (t : string) : Context :=
  mkContext (user_input c) (session_id c) (results c) (start_time c) (Some t)
    (metadata_workflow_id c).

Definition finish (self : WorkflowEngine) (ns : list Node) (st : RunState)
  : ExecutionResult :=
  let rs := results (context st) in
  mkResult (final_output ns rs)
    (set_end_time (context st) (utcnow self))
    (mkSummary (List.length ns) (List.length (executed_nodes st))
       (List.length (filter has_error_key (dict_values rs)))).

(** The loop of [execute_workflow] from the fresh context. *)
Definition run (self : WorkflowEngine) (workflow_config : WorkflowConfig)
  (input : string) (session : option string) : option (RunState * LoopExit) :=
  let ns := nodes workflow_config in
  wave_loop (List.length ns) self ns
    (_build_execution_graph ns (edges workflow_config))
    (initial_state self workflow_config input session).

Definition execute_workflow (self : WorkflowEngine)
  (workflow_config : WorkflowConfig) (input : string)
  (session : option string) : option Execution :=
  let validation := validate_workflow self workflow_config in
  if valid validation then
    match run self workflow_config input session with
    | Some (st, e) =>
        Some (Returns (finish self (nodes workflow_config) st), Some (st, e))
    | None => None
    end
  else Some (Raises (InvalidWorkflow (errors validation)), None).

(** The collaborator calls and the handler runs of an execution. *)
Definition collaborator_calls (x : Execution) : list Call :=
  match snd x with
  | Some (st, _) => calls st
  | None => []
  end.

Definition handler_runs (x : Execution) : list Node :=
  match snd x with
  | Some (st, _) => flat_map wave_ready (waves st)
  | None => []
  end.

(** ** Invariants of the wave loop *)

(** The commit loop of a wave, on the ready nodes paired with their
    outcomes [f]. *)
Definition committed (f : Node -> outcome NodeResult) (ready : list Node)
  (acc : Results * list pyval) : Results * list pyval :=
  fold_left commit (combine ready (map f ready)) acc.

(** The ids of the nodes run by a list of waves. *)
Definition ran (ws : list Wave) : list pyval :=
  flat_map (fun w => map node_id (wave_ready w)) ws.

(** The handler outcome of a node in a wave. *)
Definition handled (self : WorkflowEngine) (w : Wave) (n : Node)
  : outcome NodeResult :=
  fst (_execute_node self n (wave_context w)).

(** What holds of a recorded wave [w] that came after the waves [pre]. *)
Record wave_ok (self : WorkflowEngine) (ns : list Node)
  (graph : ExecutionGraph) (pre : list Wave) (w : Wave) : Prop := {
  wo_ready : wave_ready w = ready_nodes ns graph (wave_executed w);
  wo_nonempty : wave_ready w <> [];
  wo_outcomes : wave_outcomes w = map (handled self w) (wave_ready w);
  wo_executed : forall k, In k (wave_executed w) <-> In k (ran pre);
  wo_results :
    forall k, In k (wave_executed w)
              <-> In k (dict_keys (results (wave_context w)))
}.

Record loop_invariant (self : WorkflowEngine) (ns : list Node)
  (graph : ExecutionGraph) (st : RunState) : Prop := {
  inv_keys :
    forall k, In k (executed_nodes st)
              <-> In k (dict_keys (results (context st)));
  inv_ran : forall k, In k (executed_nodes st) <-> In k (ran (waves st));
  inv_declared : incl (executed_nodes st) (map node_id ns);
  inv_nodup : NoDup (executed_nodes st);
  inv_count : List.length (waves st) <= List.length (executed_nodes st);
  inv_waves :
    forall pre w post, waves st = (pre ++ w :: post)%list ->
      wave_ok self ns graph pre w;
  inv_stable :
    forall pre w post, waves st = (pre ++ w :: post)%list ->
      forall k r, dict_get k (results (wave_context w)) = Some r ->
                  dict_get k (results (context st)) = Some r;
  inv_stored :
    NoDup (map node_id ns) ->
    forall pre w post, waves st = (pre ++ w :: post)%list ->
      forall n, In n (wave_ready w) ->
        dict_get (node_id n) (results (context st))
        = Some (stored (handled self w n))
}.

(** Two runs that executed the same nodes in the same waves. *)
Definition same_schedule (st st' : RunState) : Prop :=
  executed_nodes st = executed_nodes st'
  /\ map wave_ready (waves st) = map wave_ready (waves st').

(** ** The validator as the specification words it *)

(** A node of a kind, read through the effective type. *)
Definition is_kind (kind : string) (n : Node) : Prop :=
  effective_type n = Some kind.

Definition bad_type (c : WorkflowConfig) : Prop :=
  exists n, In n (nodes c) /\ ~ In (effective_type n) valid_types.

Definition bad_edge (c : WorkflowConfig) : Prop :=
  exists e, In e (edges c) /\
    (~ In (edge_source e) (map node_id (nodes c))
     \/ ~ In (edge_target e) (map node_id (nodes c))).

(** The five reasons as stated, a [user_query] or [output] node being one
    whose effective type is that kind. *)
Definition stated_invalid (c : WorkflowConfig) : Prop :=
  nodes c = []
  \/ bad_type c
  \/ (forall n, In n (nodes c) -> ~ is_kind USER_QUERY n)
  \/ (forall n, In n (nodes c) -> ~ is_kind OUTPUT n)
  \/ bad_edge c.

(** The five reasons with the validator's own reading of the two required
    kinds: the top-level type or [data.type] equals the kind. *)
Definition counts_as (kind : string) (n : Node) : Prop :=
  node_type n = Some kind \/ data_type (node_data n) = Some kind.

Definition detected_invalid (c : WorkflowConfig) : Prop :=
  nodes c = []
  \/ bad_type c
  \/ (forall n, In n (nodes c) -> ~ counts_as USER_QUERY n)
  \/ (forall n, In n (nodes c) -> ~ counts_as OUTPUT n)
  \/ bad_edge c.

(** ** The handlers as the specification words them *)

(** [s.split(old)] for a non-empty [old]: the pieces of [s] between the
    occurrences of [old], taken from the left. *)
Fixpoint split_from (skip : nat) (old s : string) : list string :=
  match s with
  | EmptyString => [EmptyString]
  | String c s' =>
      match skip with
      | S k => split_from k old s'
      | O =>
          if prefix old s
          then EmptyString :: split_from (String.length old - 1) old s'
          else
            match split_from 0 old s' with
            | piece :: pieces => String c piece :: pieces
            | [] => [String c EmptyString]
            end
      end
  end.

Definition split (old s : string) : list string := split_from 0 old s.

(** The first result of a type, in results order. *)
Fixpoint first_of_type (t : string) (rs : list NodeResult) : option NodeResult :=
  match rs with
  | [] => None
  | r :: rs' =>
      if pyval_eqb (result_type r) (Some t) then Some r else first_of_type t rs'
  end.

Definition stated_context (context : Context) : string :=
  match first_of_type "knowledge_base" (dict_values (results context)) with
  | Some kb =>
      match result_documents kb with
      | [] => user_input context
      | docs =>
          "Context:" ++ nl ++ String.concat blank_line (firstn 3 docs)
          ++ blank_line ++ "Question: " ++ user_input context
      end
  | None => user_input context
  end.

(** The template with every placeholder replaced: its pieces around the
    placeholders, joined by the prompt built so far. *)
Definition stated_prompt (config : NodeConfig) (context : Context) : string :=
  match cfg_prompt config with
  | None | Some EmptyString => stated_context context
  | Some template =>
      String.concat (stated_context context) (split "{query}" template)
  end.

(** The provider as stated: by the model name as configured. *)
Definition stated_provider (config : NodeConfig) : LLMProvider :=
  if contains "gemini" (default "" (cfg_model config)) then GEMINI else OPENAI.

(** The provider by the lower-cased model name. *)
Definition provider_of_lowered (config : NodeConfig) : LLMProvider :=
  if contains "gemini" (lower (default "" (cfg_model config)))
  then GEMINI else OPENAI.

Definition llm_responses (context : Context) : list NodeResult :=
  filter (fun r => pyval_eqb (result_type r) (Some "llm_response"))
    (dict_values (results context)).

Definition stated_output (context : Context) : string :=
  match llm_responses context with
  | [] => "No output generated"
  | rs => String.concat blank_line (map result_content rs)
  end.

(** ** Sample engines and workflows *)

Definition plain_node (i t : string) : Node :=
  mkNode (Some i) (Some t) empty_data.

Definition arrow (a b : string) : Edge := mkEdge (Some a) (Some b).

(** Completion echoes its prompt, retrieval is down. *)
Definition echo_engine : WorkflowEngine :=
  mkEngine (fun req => Ok ("echo:" ++ req_prompt req))
    (fun _ => Raise "retrieval unavailable") "2024-01-01T00:00:00".

(** An [llm_engine] node that carries [user_query] in [data.type], and an
    output node. *)
Definition mislabelled_input : WorkflowConfig :=
  mkWorkflow None
    [mkNode (Some "a") (Some LLM_ENGINE) (mkData (Some USER_QUERY) empty_config);
     plain_node "o" OUTPUT]
    [].

(** A [user_query] node, and an [llm_engine] node that carries [output] in
    [data.type]. *)
Definition mislabelled_output : WorkflowConfig :=
  mkWorkflow None
    [plain_node "q" USER_QUERY;
     mkNode (Some "l") (Some LLM_ENGINE) (mkData (Some OUTPUT) empty_config)]
    [].

Definition llm_node (i : string) (config : NodeConfig) : Node :=
  mkNode (Some i) (Some LLM_ENGINE) (mkData None config).

Definition gemini_config : NodeConfig :=
  mkConfig None (Some "Answer: {query}") (Some "Gemini-Pro")
    None None None None None.

Definition sample_context : Context :=
  mkContext "hello" None
    [(Some "k", KnowledgeBaseResult ["d1"; "d2"; "d3"; "d4"] [] []);
     (Some "l", LlmResponse "first" None "t");
     (Some "e", ErrorRecord "boom");
     (Some "m", LlmResponse "second" None "t")]
    "t" None None.

(** A query, a retrieval and a completion feeding an output. *)
Definition kb_workflow : WorkflowConfig :=
  mkWorkflow (Some "w")
    [plain_node "q" USER_QUERY; plain_node "k" KNOWLEDGE_BASE;
     plain_node "l" LLM_ENGINE; plain_node "o" OUTPUT]
    [arrow "q" "l"; arrow "k" "l"; arrow "l" "o"].

(** A valid workflow whose third node waits for itself. *)
Definition stalled_workflow : WorkflowConfig :=
  mkWorkflow (Some "w")
    [plain_node "q" USER_QUERY; plain_node "o" OUTPUT; plain_node "x" LLM_ENGINE]
    [arrow "x" "x"].

(** Two [user_query] nodes and no output node. *)
Definition two_queries : WorkflowConfig :=
  mkWorkflow None [plain_node "q1" USER_QUERY; plain_node "q2" USER_QUERY] [].

(** ** Reading the execution graph *)

(** [graph[k]["dependents"]], the absent key read as the empty list. *)
Definition dependents_of (graph : ExecutionGraph) (k : pyval) : list pyval :=
  match dict_get k graph with
  | Some e => dependents e
  | None => []
  end.

(** An edge whose two ends are declared node ids: [source in graph and
    target in graph] once the graph holds the nodes. *)
Definition edge_declared (ns : list Node) (e : Edge) : bool :=
  py_in (edge_source e) (map node_id ns)
  && py_in (edge_target e) (map node_id ns).

(** The sources of the declared edges into [k], and the targets of the
    declared edges out of [k], in the order of the edge list. *)
Definition sources_into (ns : list Node) (es : list Edge) (k : pyval)
  : list pyval :=
  map edge_source
    (filter (fun e => edge_declared ns e && pyval_eqb (edge_target e) k) es).

Definition targets_from (ns : list Node) (es : list Edge) (k : pyval)
  : list pyval :=
  map edge_target
    (filter (fun e => edge_declared ns e && pyval_eqb (edge_source e) k) es).

(** [a] is upstream of [b]: a path of declared edges leads from [a] to [b]. *)
Inductive reaches (c : WorkflowConfig) : pyval -> pyval -> Prop :=
| reaches_edge (e : Edge) :
    In e (edges c) -> edge_declared (nodes c) e = true ->
    reaches c (edge_source e) (edge_target e)
| reaches_step (e : Edge) (b : pyval) :
    In e (edges c) -> edge_declared (nodes c) e = true ->
    reaches c (edge_target e) b ->
    reaches c (edge_source e) b.

Definition acyclic (c : WorkflowConfig) : Prop :=
  forall k, ~ reaches c k k.

(** ** Kinds and result tags *)

(** The [type] tag of the result a node of a kind returns: the kind itself,
    but [llm_response] for an [llm_engine] node. *)
Definition result_tag (kind : string) : string :=
  if String.eqb kind LLM_ENGINE then "llm_response" else kind.

(** A node whose [type] is the wrapper marker and whose [data] gives no
    type. *)
Definition untyped_node : Node :=
  mkNode (Some "n") (Some "custom") empty_data.

Definition untyped_workflow : WorkflowConfig :=
  mkWorkflow None
    [plain_node "q" USER_QUERY; untyped_node; plain_node "o" OUTPUT] [].

(** ** The record of a run *)

(** The entries a wave commits, in the order of its ready list. *)
Definition wave_entries (self : WorkflowEngine) (w : Wave)
  : list (pyval * NodeResult) :=
  map (fun n => (node_id n, stored (handled self w n))) (wave_ready w).

(** The collaborator calls a wave makes. *)
Definition wave_calls (self : WorkflowEngine) (w : Wave) : list Call :=
  flat_map (fun n => snd (_execute_node self n (wave_context w)))
    (wave_ready w).

Definition is_raise {A : Type} (o : outcome A) : bool :=
  match o with
  | Raise _ => true
  | Ok _ => false
  end.

(** The handlers of a run that failed. *)
Definition failures (st : RunState) : nat :=
  List.length (filter is_raise (flat_map wave_outcomes (waves st))).

(** The nodes of a run that call a collaborator. *)
Definition calls_collaborator (n : Node) : bool :=
  pyval_eqb (effective_type n) (Some KNOWLEDGE_BASE)
  || pyval_eqb (effective_type n) (Some LLM_ENGINE).

Record record_invariant (self : WorkflowEngine) (ns : list Node)
  (input : string) (st : RunState) : Prop := {
  rec_keys : dict_keys (results (context st)) = executed_nodes st;
  rec_input : user_input (context st) = input;
  rec_wave_input :
    forall w, In w (waves st) -> user_input (wave_context w) = input;
  rec_calls : calls st = flat_map (wave_calls self) (waves st);
  rec_entries :
    NoDup (map node_id ns) ->
    results (context st) = flat_map (wave_entries self) (waves st)
}.

(** A chain of ids, each linked to the next by a declared edge. *)
Inductive linked (c : WorkflowConfig) : list pyval -> Prop :=
| linked_one (x : pyval) : linked c [x]
| linked_cons (e : Edge) (l : list pyval) :
    In e (edges c) -> edge_declared (nodes c) e = true ->
    linked c (edge_target e :: l) ->
    linked c (edge_source e :: edge_target e :: l).

(** A valid workflow whose three last nodes wait for each other in a ring,
    with a node downstream of the ring. *)
Definition ring_workflow : WorkflowConfig :=
  mkWorkflow (Some "w")
    [plain_node "q" USER_QUERY; plain_node "o" OUTPUT;
     plain_node "a" LLM_ENGINE; plain_node "b" LLM_ENGINE;
     plain_node "d" WEB_SEARCH]
    [arrow "a" "b"; arrow "b" "a"; arrow "b" "d"].

(** ** The collaborators: [llm_service.py], [embedding_service.py],
    [vector_store_service.py]

    The provider clients (OpenAI, Gemini, ChromaDB) are functions given with
    the service; every function below returns its outcome with the provider
    calls it made. *)

Definition Embedding : Type := list Q.

Record OpenAIChat : Type := mkOpenAIChat {
  oa_key : string;
  oa_model : string;
  oa_messages : list (string * string);
  oa_temperature : Q;
  oa_max_tokens : Z
}.

(** [ge_configure] is the key passed to [genai.configure] for this call,
    [None] when the model built at start-up is used. *)
Record GeminiGenerate : Type := mkGeminiGenerate {
  ge_configure : option string;
  ge_model : string;
  ge_prompt : string;
  ge_temperature : Q;
  ge_max_output_tokens : Z
}.

Inductive ProviderCall : Type :=
| OpenAIChatCall (c : OpenAIChat)
| GeminiGenerateCall (c : GeminiGenerate)
| OpenAIEmbedCall (model : string) (input : list string)
| GeminiEmbedCall (model : string) (content : string)
| ChromaQueryCall (query_embedding : Embedding) (n_results : Z).

Definition Provided (A : Type) : Type := (outcome A * list ProviderCall)%type.

(** [if x:] for an optional string. *)
Definition truthy (v : option string) : bool := negb (falsy v).

Module LLMService.

Record self : Type := mk {
  OPENAI_API_KEY : option string;
  GEMINI_API_KEY : option string;
  chat_completions_create : OpenAIChat -> outcome string;
  generate_content_async : GeminiGenerate -> outcome string
}.

Definition provider_value (p : LLMProvider) : string :=
  match p with
  | OPENAI => "openai"
  | GEMINI => "gemini"
  end.

Definition _openai_completion (svc : self) (prompt : string)
  (model : option string) (temperature : Q) (max_tokens : Z)
  (system_prompt api_key : option string) : Provided string :=
  let client :=
    if truthy api_key then api_key
    else if truthy (OPENAI_API_KEY svc) then OPENAI_API_KEY svc
    else None in
  match client with
  | None => (Raise "OpenAI API key not provided and not configured", [])
  | Some key =>
      let model := if truthy model then default "" model else "gpt-3.5-turbo" in
      let messages :=
        ((if truthy system_prompt
          then [("system", default "" system_prompt)] else [])
         ++ [("user", prompt)])%list in
      let call := mkOpenAIChat key model messages temperature max_tokens in
      (chat_completions_create svc call, [OpenAIChatCall call])
  end.

Definition _gemini_completion (svc : self) (prompt : string)
  (model : option string) (temperature : Q) (max_tokens : Z)
  (system_prompt api_key : option string) : Provided string :=
  let full_prompt :=
    if truthy system_prompt
    then default "" system_prompt ++ blank_line ++ prompt
    else prompt in
  if truthy api_key then
    let call := mkGeminiGenerate api_key "gemini-1.5-flash" full_prompt
                  temperature max_tokens in
    (generate_content_async svc call, [GeminiGenerateCall call])
  else if truthy (GEMINI_API_KEY svc) then
    let call := mkGeminiGenerate None "gemini-1.5-flash" full_prompt
                  temperature max_tokens in
    (generate_content_async svc call, [GeminiGenerateCall call])
  else (Raise "Gemini API key not provided and not configured", []).

Definition fallback_markers : list string :=
  ["insufficient_quota"; "429"; "not found"; "404"; "quota"].

(** [any(error in str(e).lower() for error in [...])] *)
Definition is_fallback_error (message : string) : bool :=
  existsb (fun marker => contains marker (lower message)) fallback_markers.

Definition demo_response (p : LLMProvider) : string :=
  "[DEMO MODE] Here's a short poem about coding:" ++ blank_line
  ++ "Lines of code dance on the screen," ++ nl
  ++ "Logic flows like a dream." ++ nl
  ++ "Bugs may hide, but we persist," ++ nl
  ++ "In this digital artist's twist." ++ blank_line
  ++ "(Note: " ++ provider_value p ++ " API issue - using demo response)".

Definition generate_completion (svc : self) (req : CompletionRequest)
  : Provided string :=
  let attempt :=
    match req_provider req with
    | OPENAI =>
        _openai_completion svc (req_prompt req) (req_model req)
          (req_temperature req) (req_max_tokens req)
          (req_system_prompt req) (req_api_key req)
    | GEMINI =>
        _gemini_completion svc (req_prompt req) (req_model req)
          (req_temperature req) (req_max_tokens req)
          (req_system_prompt req) (req_api_key req)
    end in
  match fst attempt with
  | Ok text => (Ok text, snd attempt)
  | Raise message =>
      if is_fallback_error message
      then (Ok (demo_response (req_provider req)), snd attempt)
      else (Raise message, snd attempt)
  end.

End LLMService.

Module EmbeddingService.

Record self : Type := mk {
  OPENAI_API_KEY : option string;
  GEMINI_API_KEY : option string;
  Embedding_acreate : string -> list string -> outcome (list Embedding);
  embed_content : string -> string -> outcome Embedding
}.

Definition _openai_embeddings (svc : self) (texts : list string)
  : Provided (list Embedding) :=
  if truthy (OPENAI_API_KEY svc) then
    (Embedding_acreate svc "text-embedding-ada-002" texts,
     [OpenAIEmbedCall "text-embedding-ada-002" texts])
  else (Raise "OpenAI API key not configured", []).

(** The loop over the texts: the first call that raises ends it. *)
Fixpoint gemini_each (svc : self) (texts : list string)
  : Provided (list Embedding) :=
  match texts with
  | [] => (Ok [], [])
  | text :: rest =>
      let call := GeminiEmbedCall "models/embedding-001" text in
      match embed_content svc "models/embedding-001" text with
      | Raise message => (Raise message, [call])
      | Ok embedding =>
          let later := gemini_each svc rest in
          (match fst later with
           | Ok embeddings => Ok (embedding :: embeddings)
           | Raise message => Raise message
           end, call :: snd later)
      end
  end.

Definition _gemini_embeddings (svc : self) (texts : list string)
  : Provided (list Embedding) :=
  if truthy (GEMINI_API_KEY svc) then gemini_each svc texts
  else (Raise "Gemini API key not configured", []).

Definition unsupported_provider (provider : string) : string :=
  "Unsupported embedding provider: " ++ provider.

Definition generate_embeddings (svc : self) (texts : list string)
  (provider : string) : Provided (list Embedding) :=
  if String.eqb provider "openai" then _openai_embeddings svc texts
  else if String.eqb provider "gemini" then _gemini_embeddings svc texts
  else (Raise (unsupported_provider provider), []).

End EmbeddingService.

Module VectorStoreService.

(** What [collection.query] returns: a key is absent ([None]) or holds one
    row per query embedding (a key present with Python's [None] as its value
    is not modelled). *)
Record QueryResult : Type := mkQuery {
  qr_documents : option (list (list string));
  qr_distances : option (list (list Q));
  qr_metadatas : option (list (list Metadata));
  qr_ids : option (list (list string))
}.

Record self : Type := mk {
  collection_query : Embedding -> Z -> outcome QueryResult
}.

Record Formatted : Type := mkFormatted {
  documents : list string;
  distances : list Q;
  metadatas : list Metadata;
  ids : list string
}.

(** [results.get(key, [[]])[0]] *)
Definition first_row {A : Type} (rows : option (list (list A)))
  : outcome (list A) :=
  match rows with
  | None => Ok []
  | Some [] => Raise "list index out of range"
  | Some (row :: _) => Ok row
  end.

Definition format_results (results : QueryResult) : outcome Formatted :=
  match first_row (qr_documents results) with
  | Raise message => Raise message
  | Ok docs =>
      match first_row (qr_distances results) with
      | Raise message => Raise message
      | Ok dists =>
          match first_row (qr_metadatas results) with
          | Raise message => Raise message
          | Ok metas =>
              match first_row (qr_ids results) with
              | Raise message => Raise message
              | Ok idents => Ok (mkFormatted docs dists metas idents)
              end
          end
      end
  end.

Definition search (store : self) (query_embedding : Embedding)
  (n_results : Z) : Provided Formatted :=
  (match collection_query store query_embedding n_results with
   | Raise message => Raise message
   | Ok results => format_results results
   end, [ChromaQueryCall query_embedding n_results]).

Definition search_by_text (store : self)
  (embedding_service : EmbeddingService.self) (query_text : string)
  (n_results : Z) (provider : string) : Provided Formatted :=
  let embedded :=
    EmbeddingService.generate_embeddings embedding_service [query_text]
      provider in
  match fst embedded with
  | Raise message => (Raise message, snd embedded)
  | Ok [] => (Raise "list index out of range", snd embedded)
  | Ok (query_embedding :: _) =>
      let found := search store query_embedding n_results in
      (fst found, (snd embedded ++ snd found)%list)
  end.

End VectorStoreService.

(** The engine on these services: [self.llm_service], [self.embedding_service]
    and [self.vector_store_service] as the engine calls them; of a search
    result the handler reads [documents], [distances] and [metadatas]. *)
Definition engine_search (store : VectorStoreService.self)
  (embedding_service : EmbeddingService.self) (req : RetrievalRequest)
  : outcome SearchResults :=
  match fst (VectorStoreService.search_by_text store embedding_service
               (req_query_text req) (req_n_results req)
               (req_embedding_provider req)) with
  | Raise message => Raise message
  | Ok found =>
      Ok (mkSearch (VectorStoreService.documents found)
            (VectorStoreService.distances found)
            (VectorStoreService.metadatas found))
  end.

Definition engine_of (llm : LLMService.self)
  (embedding_service : EmbeddingService.self)
  (store : VectorStoreService.self) (now : string) : WorkflowEngine :=
  mkEngine (fun req => fst (LLMService.generate_completion llm req))
    (engine_search store embedding_service) now.

(** A rank that grows along every edge of [kb_workflow]. *)
Definition kb_rank (k : pyval) : nat :=
  if pyval_eqb k (Some "l") then 1
  else if pyval_eqb k (Some "o") then 2
  else 0.

(** ** Sample services *)

(** Providers that answer every call with the same failure. *)
Definition failing_llm (openai_key gemini_key : option string)
  (message : string) : LLMService.self :=
  LLMService.mk openai_key gemini_key
    (fun _ => Raise message) (fun _ => Raise message).

Definition no_embeddings : EmbeddingService.self :=
  EmbeddingService.mk None None (fun _ _ => Ok []) (fun _ _ => Ok []).

Definition one_embedding : EmbeddingService.self :=
  EmbeddingService.mk (Some "sk-test") (Some "g-test")
    (fun _ texts => Ok (map (fun _ => [1%Q]) texts))
    (fun _ text => if String.eqb text "bad" then Raise "rejected"
                   else Ok [1%Q]).

Definition sample_store : VectorStoreService.self :=
  VectorStoreService.mk
    (fun _ _ => Ok (VectorStoreService.mkQuery
                      (Some [["d1"; "d2"]; ["other"]]) None
                      (Some [[[("k", "v")]; []]]) (Some [["i1"; "i2"]]))).

Definition kb_node (i : string) (provider : option string) : Node :=
  mkNode (Some i) (Some KNOWLEDGE_BASE)
    (mkData None (mkConfig None None None None None None None provider)).

(** ** The callers: [api/endpoints/chat.py], [api/websocket/chat_ws.py],
    [main.py] *)

(** [v.get("content", d)] *)
Definition content_or (d : string) (v : NodeResult) : string :=
  match v with
  | UserQueryResult c _ | LlmResponse c _ _ | OutputResult c _ => c
  | _ => d
  end.

(** The reply [send_message] and the chat websocket take from a result that
    [execute_workflow] returned. *)
Definition response_content (r : ExecutionResult) : string :=
  match output r with
  | [] => ""
  | first :: _ => content_or "No response generated" first
  end.

(** The reply the websocket of [main.py] takes from it. *)
Definition main_response (r : ExecutionResult) : string :=
  match output r with
  | [] => "No output generated from workflow"
  | first :: _ => content_or "No response generated" first
  end.

(** The provider attempt inside [generate_completion]'s [try]. *)
Definition attempt_of (svc : LLMService.self) (req : CompletionRequest)
  : Provided string :=
  match req_provider req with
  | OPENAI =>
      LLMService._openai_completion svc (req_prompt req) (req_model req)
        (req_temperature req) (req_max_tokens req)
        (req_system_prompt req) (req_api_key req)
  | GEMINI =>
      LLMService._gemini_completion svc (req_prompt req) (req_model req)
        (req_temperature req) (req_max_tokens req)
        (req_system_prompt req) (req_api_key req)
  end.


(** A node no declared edge leads into. *)
Definition is_source (c : WorkflowConfig) (n : Node) : bool :=
  match sources_into (nodes c) (edges c) (node_id n) with
  | [] => true
  | _ => false
  end.

(** * Properties *)

(** ** Equality and membership of ids *)

Lemma pyval_eqb_spec (a b : pyval) : reflect (a = b) (pyval_eqb a b).
Proof.
  destruct a as [x|], b as [y|]; simpl; try (constructor; congruence).
  destruct (String.eqb_spec x y); constructor; congruence.
Qed.

Lemma pyval_eqb_refl (a : pyval) : pyval_eqb a a = true.
Proof. destruct (pyval_eqb_spec a a); congruence. Qed.

Lemma pyval_eqb_eq (a b : pyval) : pyval_eqb a b = true <-> a = b.
Proof. destruct (pyval_eqb_spec a b); split; congruence. Qed.

Lemma pyval_eqb_neq (a b : pyval) : pyval_eqb a b = false <-> a <> b.
Proof. destruct (pyval_eqb_spec a b); split; congruence. Qed.

Lemma py_in_In (v : pyval) (xs : list pyval) : py_in v xs = true <-> In v xs.
Proof.
  unfold py_in. rewrite existsb_exists. split.
  - intros [x [Hx He]]. apply pyval_eqb_eq in He. now subst.
  - intros H. exists v. split; [assumption | apply pyval_eqb_refl].
Qed.

Lemma py_in_not_In (v : pyval) (xs : list pyval) :
  py_in v xs = false <-> ~ In v xs.
Proof.
  rewrite <- py_in_In. destruct (py_in v xs); split; congruence.
Qed.

(** ** Lists *)

Lemma flat_map_nil {A B : Type} (f : A -> list B) (l : list A) :
  flat_map f l = [] <-> forall x, In x l -> f x = [].
Proof.
  induction l as [|a l IH]; simpl.
  - split; [intros _ x [] | reflexivity].
  - split.
    + intros H. apply app_eq_nil in H. destruct H as [Ha Hl].
      intros x [<-|Hx]; [assumption | now apply IH].
    + intros H. rewrite (H a (or_introl eq_refl)). simpl.
      apply IH. intros x Hx. apply H. now right.
Qed.

Lemma existsb_false {A : Type} (f : A -> bool) (l : list A) :
  existsb f l = false <-> forall x, In x l -> f x = false.
Proof.
  induction l as [|a l IH]; simpl.
  - split; [intros _ x [] | reflexivity].
  - rewrite orb_false_iff, IH. split.
    + intros [Ha Hl] x [<-|Hx]; auto.
    + intros H. split; [apply H; now left | intros x Hx; apply H; now right].
Qed.

(** ** Validation *)

Lemma has_kind_counts_as (kind : string) (n : Node) :
  has_kind kind n = true <-> counts_as kind n.
Proof.
  unfold has_kind, counts_as. rewrite orb_true_iff, !pyval_eqb_eq. tauto.
Qed.

Lemma has_kind_false (kind : string) (n : Node) :
  has_kind kind n = false <-> ~ counts_as kind n.
Proof.
  rewrite <- has_kind_counts_as. destruct (has_kind kind n); split; congruence.
Qed.

Lemma node_type_errors_nil (ns : list Node) :
  node_type_errors ns = [] <->
  forall n, In n ns -> In (effective_type n) valid_types.
Proof.
  unfold node_type_errors. rewrite flat_map_nil.
  split; intros H n Hn; specialize (H n Hn).
  - apply py_in_In. destruct (py_in (effective_type n) valid_types);
      [reflexivity | discriminate].
  - apply py_in_In in H. now rewrite H.
Qed.

Lemma edge_errors_nil (ids : list pyval) (es : list Edge) :
  edge_errors ids es = [] <->
  forall e, In e es -> In (edge_source e) ids /\ In (edge_target e) ids.
Proof.
  unfold edge_errors. rewrite flat_map_nil.
  split; intros H e He; specialize (H e He).
  - rewrite <- !py_in_In.
    destruct (py_in (edge_source e) ids), (py_in (edge_target e) ids);
      try discriminate; auto.
  - destruct H as [Hs Ht]. apply py_in_In in Hs, Ht. now rewrite Hs, Ht.
Qed.

Lemma valid_iff_no_errors (self : WorkflowEngine) (c : WorkflowConfig) :
  valid (validate_workflow self c) = true <-> validation_errors c = [].
Proof.
  unfold validate_workflow. simpl.
  destruct (validation_errors c); split; congruence.
Qed.

Lemma validation_errors_nil (c : WorkflowConfig) :
  validation_errors c = [] <->
  nodes c <> []
  /\ (forall n, In n (nodes c) -> In (effective_type n) valid_types)
  /\ existsb (has_kind USER_QUERY) (nodes c) = true
  /\ existsb (has_kind OUTPUT) (nodes c) = true
  /\ (forall e, In e (edges c) ->
        In (edge_source e) (map node_id (nodes c))
        /\ In (edge_target e) (map node_id (nodes c))).
Proof.
  unfold validation_errors.
  rewrite <- node_type_errors_nil, <- edge_errors_nil.
  split.
  - intros H.
    apply app_eq_nil in H. destruct H as [H1 H].
    apply app_eq_nil in H. destruct H as [H2 H].
    apply app_eq_nil in H. destruct H as [H3 H].
    apply app_eq_nil in H. destruct H as [H4 H5].
    repeat split; try assumption.
    + destruct (nodes c); [discriminate | congruence].
    + destruct (existsb (has_kind USER_QUERY) (nodes c));
        [reflexivity | discriminate].
    + destruct (existsb (has_kind OUTPUT) (nodes c));
        [reflexivity | discriminate].
  - intros (H1 & H2 & H3 & H4 & H5).
    rewrite H2, H3, H4, H5.
    destruct (nodes c); [congruence | reflexivity].
Qed.

Lemma flat_map_not_nil {A B : Type} (f : A -> list B) (l : list A) :
  flat_map f l <> [] -> exists x, In x l /\ f x <> [].
Proof.
  induction l as [|a l IH]; simpl; [congruence|].
  intros H. destruct (f a) as [|b bs] eqn:Ha.
  - destruct (IH H) as [x [Hx Hfx]]. exists x. split; [now right | assumption].
  - exists a. split; [now left | congruence].
Qed.

Lemma node_type_errors_bad (c : WorkflowConfig) :
  node_type_errors (nodes c) <> [] -> bad_type c.
Proof.
  intros H. apply flat_map_not_nil in H. destruct H as [n [Hn Hf]].
  exists n. split; [assumption|].
  rewrite <- py_in_In.
  destruct (py_in (effective_type n) valid_types); congruence.
Qed.

Lemma edge_errors_bad (c : WorkflowConfig) :
  edge_errors (map node_id (nodes c)) (edges c) <> [] -> bad_edge c.
Proof.
  intros H. apply flat_map_not_nil in H. destruct H as [e [He Hf]].
  exists e. split; [assumption|].
  rewrite <- !py_in_In.
  destruct (py_in (edge_source e) (map node_id (nodes c)));
    [|left; congruence].
  destruct (py_in (edge_target e) (map node_id (nodes c)));
    [|right; congruence].
  now contradict Hf.
Qed.

Lemma detected_invalid_iff_errors (c : WorkflowConfig) :
  detected_invalid c <-> validation_errors c <> [].
Proof.
  split.
  - intros D E. apply validation_errors_nil in E.
    destruct E as (E1 & E2 & E3 & E4 & E5).
    destruct D as [D | [D | [D | [D | D]]]].
    + contradiction.
    + destruct D as [n [Hn Hbad]]. auto.
    + apply existsb_exists in E3. destruct E3 as [n [Hn Hk]].
      apply has_kind_counts_as in Hk. exact (D n Hn Hk).
    + apply existsb_exists in E4. destruct E4 as [n [Hn Hk]].
      apply has_kind_counts_as in Hk. exact (D n Hn Hk).
    + destruct D as [e [He Hbad]]. destruct (E5 e He). tauto.
  - intros H.
    destruct (nodes c) as [|n0 ns] eqn:Hns; [now left|].
    destruct (node_type_errors (nodes c)) as [|m ms] eqn:Ht;
      [|right; left; apply node_type_errors_bad; congruence].
    destruct (existsb (has_kind USER_QUERY) (nodes c)) eqn:Hq.
    2:{ right; right; left. intros n Hn. apply has_kind_false.
        rewrite existsb_false in Hq. apply Hq. congruence. }
    destruct (existsb (has_kind OUTPUT) (nodes c)) eqn:Ho.
    2:{ right; right; right; left. intros n Hn. apply has_kind_false.
        rewrite existsb_false in Ho. apply Ho. congruence. }
    destruct (edge_errors (map node_id (nodes c)) (edges c)) as [|m ms] eqn:He;
      [|right; right; right; right; apply edge_errors_bad; congruence].
    exfalso. apply H. unfold validation_errors.
    rewrite Ht, Hq, Ho, He, Hns. reflexivity.
Qed.

(** ** Substrings *)

Lemma prefix_refl (s : string) : prefix s s = true.
Proof.
  induction s as [|a s IH]; simpl; [reflexivity|].
  destruct (ascii_dec a a); [assumption | congruence].
Qed.

Lemma prefix_app (p s : string) : prefix p (p ++ s) = true.
Proof.
  induction p as [|a p IH]; simpl.
  - now destruct s.
  - destruct (ascii_dec a a); [assumption | congruence].
Qed.

Lemma contains_prefix (p s : string) : prefix p s = true -> contains p s = true.
Proof. intros H. destruct s; simpl in *; rewrite H; reflexivity. Qed.

Lemma contains_app (a p b : string) : contains p (a ++ p ++ b) = true.
Proof.
  induction a as [|x a IH]; simpl.
  - apply contains_prefix, prefix_app.
  - rewrite IH. apply orb_true_r.
Qed.

Lemma contains_suffix (a p : string) : contains p (a ++ p) = true.
Proof.
  induction a as [|x a IH]; simpl.
  - apply contains_prefix, prefix_refl.
  - rewrite IH. apply orb_true_r.
Qed.

(** ** What the error list holds *)

Lemma missing_input_reported (c : WorkflowConfig) :
  existsb (has_kind USER_QUERY) (nodes c) = false ->
  In missing_input_error (validation_errors c).
Proof.
  intros H. unfold validation_errors. rewrite H.
  apply in_or_app; right. apply in_or_app; right.
  apply in_or_app; left. now left.
Qed.

Lemma missing_output_reported (c : WorkflowConfig) :
  existsb (has_kind OUTPUT) (nodes c) = false ->
  In missing_output_error (validation_errors c).
Proof.
  intros H. unfold validation_errors. rewrite H.
  apply in_or_app; right. apply in_or_app; right.
  apply in_or_app; right. apply in_or_app; left. now left.
Qed.

Lemma edge_error_reported (c : WorkflowConfig) (m : string) :
  In m (edge_errors (map node_id (nodes c)) (edges c)) ->
  In m (validation_errors c).
Proof.
  intros H. unfold validation_errors. do 4 (apply in_or_app; right). exact H.
Qed.

Lemma bad_source_reported (c : WorkflowConfig) (e : Edge) :
  In e (edges c) -> ~ In (edge_source e) (map node_id (nodes c)) ->
  In (invalid_edge_source (edge_source e)) (validation_errors c).
Proof.
  intros He Hs. apply edge_error_reported. unfold edge_errors.
  apply in_flat_map. exists e. split; [assumption|].
  apply py_in_not_In in Hs. rewrite Hs. now left.
Qed.

Lemma bad_target_reported (c : WorkflowConfig) (e : Edge) :
  In e (edges c) -> ~ In (edge_target e) (map node_id (nodes c)) ->
  In (invalid_edge_target (edge_target e)) (validation_errors c).
Proof.
  intros He Ht. apply edge_error_reported. unfold edge_errors.
  apply in_flat_map. exists e. split; [assumption|].
  apply py_in_not_In in Ht. rewrite Ht.
  apply in_or_app; right. now left.
Qed.

Lemma no_counts_as_existsb (kind : string) (ns : list Node) :
  (forall n, In n ns -> ~ counts_as kind n) <->
  existsb (has_kind kind) ns = false.
Proof.
  rewrite existsb_false. split; intros H n Hn; apply has_kind_false; auto.
Qed.

Lemma node_type_error_shape (ns : list Node) (m : string) :
  In m (node_type_errors ns) -> exists v, m = invalid_node_type v.
Proof.
  unfold node_type_errors. rewrite in_flat_map. intros [n [_ H]].
  destruct (py_in (effective_type n) valid_types); [destruct H|].
  destruct H as [<-|[]]. now exists (effective_type n).
Qed.

Lemma edge_error_shape (ids : list pyval) (es : list Edge) (m : string) :
  In m (edge_errors ids es) ->
  exists v, m = invalid_edge_source v \/ m = invalid_edge_target v.
Proof.
  unfold edge_errors. rewrite in_flat_map. intros [e [_ H]].
  apply in_app_or in H. destruct H as [H|H].
  - destruct (py_in (edge_source e) ids); [destruct H|].
    destruct H as [<-|[]]. exists (edge_source e). now left.
  - destruct (py_in (edge_target e) ids); [destruct H|].
    destruct H as [<-|[]]. exists (edge_target e). now right.
Qed.

(** A message that starts with [W] comes from one of the three checks on
    required nodes. *)
Lemma workflow_message_origin (c : WorkflowConfig) (m rest : string) :
  m = String "W" rest -> In m (validation_errors c) ->
  (nodes c = [] /\ m = missing_nodes_error)
  \/ (existsb (has_kind USER_QUERY) (nodes c) = false /\ m = missing_input_error)
  \/ (existsb (has_kind OUTPUT) (nodes c) = false /\ m = missing_output_error).
Proof.
  intros Hm H. unfold validation_errors in H.
  apply in_app_or in H. destruct H as [H|H].
  { destruct (nodes c); [|destruct H]. destruct H as [<-|[]]. now left. }
  apply in_app_or in H. destruct H as [H|H].
  { apply node_type_error_shape in H. destruct H as [v ->].
    unfold invalid_node_type in Hm. simpl in Hm. discriminate. }
  apply in_app_or in H. destruct H as [H|H].
  { destruct (existsb (has_kind USER_QUERY) (nodes c)); [destruct H|].
    destruct H as [<-|[]]. right; left; now split. }
  apply in_app_or in H. destruct H as [H|H].
  { destruct (existsb (has_kind OUTPUT) (nodes c)); [destruct H|].
    destruct H as [<-|[]]. right; right; now split. }
  apply edge_error_shape in H. destruct H as [v [-> | ->]];
    unfold invalid_edge_source, invalid_edge_target in Hm; simpl in Hm;
    discriminate.
Qed.

Lemma missing_input_iff (c : WorkflowConfig) :
  In missing_input_error (validation_errors c) <->
  forall n, In n (nodes c) -> ~ counts_as USER_QUERY n.
Proof.
  rewrite no_counts_as_existsb. split; [|apply missing_input_reported].
  intros H.
  destruct (workflow_message_origin c missing_input_error _ eq_refl H)
    as [[_ E] | [[E _] | [_ E]]]; [discriminate | assumption | discriminate].
Qed.

Lemma missing_output_iff (c : WorkflowConfig) :
  In missing_output_error (validation_errors c) <->
  forall n, In n (nodes c) -> ~ counts_as OUTPUT n.
Proof.
  rewrite no_counts_as_existsb. split; [|apply missing_output_reported].
  intros H.
  destruct (workflow_message_origin c missing_output_error _ eq_refl H)
    as [[_ E] | [[_ E] | [E _]]]; [discriminate | discriminate | assumption].
Qed.

(** ** Claims on validation *)

(** C2, as stated, fails: [mislabelled_input] has no node whose effective
    type is [user_query] (its first node is dispatched as [llm_engine]), so
    the stated reasons hold, and the validator accepts it. *)
Lemma stated_reasons_too_strong :
  ~ (valid (validate_workflow echo_engine mislabelled_input) = false
     <-> stated_invalid mislabelled_input).
Proof.
  intros [_ H].
  assert (S : stated_invalid mislabelled_input).
  { right; right; left. intros n [<-|[<-|[]]]; unfold is_kind; simpl;
      unfold USER_QUERY; discriminate. }
  apply H in S. vm_compute in S. discriminate.
Qed.

(** C2, amended: [validate] returns [valid = false], that is a non-empty
    error list, exactly when the node list is empty, or some node's
    effective type is outside the five kinds, or no node has [user_query]
    as its top-level type or as its [data.type], or no node has [output] as
    its top-level type or as its [data.type], or some edge's source or
    target is not a declared node id. The two missing-node errors name
    "User Query" and "Output"; each bad-edge error names the offending id. *)
Theorem validate_workflow_invalid_iff (self : WorkflowEngine)
  (c : WorkflowConfig) :
  (valid (validate_workflow self c) = false
   <-> errors (validate_workflow self c) <> [])
  /\ (valid (validate_workflow self c) = false <-> detected_invalid c)
  /\ ((forall n, In n (nodes c) -> ~ counts_as USER_QUERY n) ->
      In missing_input_error (errors (validate_workflow self c)))
  /\ ((forall n, In n (nodes c) -> ~ counts_as OUTPUT n) ->
      In missing_output_error (errors (validate_workflow self c)))
  /\ contains "User Query" missing_input_error = true
  /\ contains "Output" missing_output_error = true
  /\ (forall e, In e (edges c) ->
      ~ In (edge_source e) (map node_id (nodes c)) ->
      In (invalid_edge_source (edge_source e))
         (errors (validate_workflow self c))
      /\ contains (py_str (edge_source e))
           (invalid_edge_source (edge_source e)) = true)
  /\ (forall e, In e (edges c) ->
      ~ In (edge_target e) (map node_id (nodes c)) ->
      In (invalid_edge_target (edge_target e))
         (errors (validate_workflow self c))
      /\ contains (py_str (edge_target e))
           (invalid_edge_target (edge_target e)) = true).
Proof.
  assert (V : valid (validate_workflow self c) = false
              <-> validation_errors c <> []).
  { unfold validate_workflow. simpl.
    destruct (validation_errors c); split; congruence. }
  split; [exact V|].
  split; [rewrite detected_invalid_iff_errors; exact V|].
  split; [exact (proj2 (missing_input_iff c))|].
  split; [exact (proj2 (missing_output_iff c))|].
  split; [reflexivity|].
  split; [reflexivity|].
  split; intros e He Hbad.
  - split; [now apply bad_source_reported | apply contains_suffix].
  - split; [now apply bad_target_reported | apply contains_suffix].
Qed.

Lemma validate_workflow_invalid_iff_witness :
  valid (validate_workflow echo_engine two_queries) = false
  /\ In missing_output_error (errors (validate_workflow echo_engine two_queries)).
Proof.
  destruct (validate_workflow_invalid_iff echo_engine two_queries)
    as (_ & Hv & _ & Ho & _).
  assert (N : forall n, In n (nodes two_queries) -> ~ counts_as OUTPUT n).
  { intros n [<-|[<-|[]]] [H|H]; discriminate. }
  split.
  - apply Hv. right; right; right; left. exact N.
  - apply Ho. exact N.
Defined.

(** C10: the checks for the required [user_query] and [output] nodes look
    at the top-level type and at [data.type], without the unwrapping
    that dispatch applies. A node whose top-level type is one of the other
    concrete kinds and whose [data.type] is [output] satisfies the output
    requirement, so a workflow made of a [user_query] node and that node
    passes validation; yet the node is dispatched under its top-level type:
    [_execute_node] runs the handler of that type on it and returns what
    that handler returns, which is never what the output handler returns
    and never an [output] result. *)
Theorem required_kinds_ignore_unwrapping :
  (forall kind n, has_kind kind n = true <-> counts_as kind n)
  /\ (forall self c,
        In missing_input_error (errors (validate_workflow self c)) <->
        forall n, In n (nodes c) -> ~ counts_as USER_QUERY n)
  /\ (forall self c,
        In missing_output_error (errors (validate_workflow self c)) <->
        forall n, In n (nodes c) -> ~ counts_as OUTPUT n)
  /\ (forall self wid q n t context,
        node_type q = Some USER_QUERY ->
        node_type n = Some t -> In (Some t) valid_types -> t <> OUTPUT ->
        data_type (node_data n) = Some OUTPUT ->
        valid (validate_workflow self (mkWorkflow wid [q; n] [])) = true
        /\ has_kind OUTPUT n = true
        /\ effective_type n = Some t
        /\ (t = USER_QUERY \/ t = KNOWLEDGE_BASE \/ t = LLM_ENGINE
            \/ t = WEB_SEARCH)
        /\ (t = USER_QUERY ->
            _execute_node self n context = _execute_user_query self n context)
        /\ (t = KNOWLEDGE_BASE ->
            _execute_node self n context
            = _execute_knowledge_base self n context)
        /\ (t = LLM_ENGINE ->
            _execute_node self n context = _execute_llm_engine self n context)
        /\ (t = WEB_SEARCH ->
            _execute_node self n context = _execute_web_search self n context)
        /\ _execute_node self n context <> _execute_output self n context
        /\ forall r, fst (_execute_node self n context) = Ok r ->
                     result_type r <> Some OUTPUT).
Proof.
  split; [exact has_kind_counts_as|].
  split; [intros self c; apply missing_input_iff|].
  split; [intros self c; apply missing_output_iff|].
  intros self wid q n t context Hq Hn Ht Hout Hd.
  assert (Eq : effective_type q = Some USER_QUERY).
  { unfold effective_type. rewrite Hq. reflexivity. }
  assert (Hc : t <> "custom").
  { intros ->. simpl in Ht. unfold USER_QUERY, KNOWLEDGE_BASE, LLM_ENGINE,
      OUTPUT, WEB_SEARCH in Ht. intuition discriminate. }
  assert (En : effective_type n = Some t).
  { unfold effective_type. rewrite Hn.
    destruct (pyval_eqb_spec (Some t) (Some "custom")) as [E|_];
      [congruence | reflexivity]. }
  assert (Hk : has_kind OUTPUT n = true).
  { unfold has_kind. rewrite Hd, pyval_eqb_refl. apply orb_true_r. }
  split; [|split; [exact Hk | split; [exact En|]]].
  - apply valid_iff_no_errors, validation_errors_nil. simpl.
    split; [discriminate|]. split; [|split; [|split]].
    + intros m [<-|[<-|[]]]; [rewrite Eq | rewrite En]; [|exact Ht].
      simpl. now left.
    + unfold has_kind at 1. rewrite Hq, pyval_eqb_refl. reflexivity.
    + rewrite Hk. rewrite !orb_true_r. reflexivity.
    + intros e [].
  - unfold _execute_node. rewrite En.
    simpl in Ht. destruct Ht as [E|[E|[E|[E|[E|[]]]]]];
      injection E as <-; try congruence; simpl.
    + split; [now left|].
      split; [reflexivity|].
      split; [intros K; discriminate K|].
      split; [intros K; discriminate K|].
      split; [intros K; discriminate K|].
      split; [intros K; discriminate K|].
      intros r [= <-]. discriminate.
    + split; [right; now left|].
      split; [intros K; discriminate K|].
      split; [reflexivity|].
      split; [intros K; discriminate K|].
      split; [intros K; discriminate K|].
      unfold _execute_knowledge_base.
      destruct (search_by_text self _); simpl;
        (split; [intros K; discriminate K|]); intros r [= <-]. discriminate.
    + split; [right; right; now left|].
      split; [intros K; discriminate K|].
      split; [intros K; discriminate K|].
      split; [reflexivity|].
      split; [intros K; discriminate K|].
      unfold _execute_llm_engine.
      destruct (generate_completion self _); simpl;
        (split; [intros K; discriminate K|]); intros r [= <-]. discriminate.
    + split; [right; right; now right|].
      split; [intros K; discriminate K|].
      split; [intros K; discriminate K|].
      split; [intros K; discriminate K|].
      split; [reflexivity|].
      split; [intros K; discriminate K|].
      intros r [= <-]. discriminate.
Qed.

Lemma required_kinds_ignore_unwrapping_witness :
  valid (validate_workflow echo_engine mislabelled_output) = true
  /\ has_kind OUTPUT
       (mkNode (Some "l") (Some LLM_ENGINE) (mkData (Some OUTPUT) empty_config))
     = true
  /\ _execute_node echo_engine
       (mkNode (Some "l") (Some LLM_ENGINE) (mkData (Some OUTPUT) empty_config))
       (mkContext "hello" None [] "t" None None)
     = _execute_llm_engine echo_engine
         (mkNode (Some "l") (Some LLM_ENGINE)
            (mkData (Some OUTPUT) empty_config))
         (mkContext "hello" None [] "t" None None)
  /\ _execute_node echo_engine
       (mkNode (Some "l") (Some LLM_ENGINE) (mkData (Some OUTPUT) empty_config))
       (mkContext "hello" None [] "t" None None)
     <> _execute_output echo_engine
          (mkNode (Some "l") (Some LLM_ENGINE)
             (mkData (Some OUTPUT) empty_config))
          (mkContext "hello" None [] "t" None None)
  /\ forall r,
       fst (_execute_node echo_engine
              (mkNode (Some "l") (Some LLM_ENGINE)
                 (mkData (Some OUTPUT) empty_config))
              (mkContext "hello" None [] "t" None None)) = Ok r ->
       result_type r <> Some OUTPUT.
Proof.
  destruct required_kinds_ignore_unwrapping as (_ & _ & _ & H).
  destruct (H echo_engine None (plain_node "q" USER_QUERY)
              (mkNode (Some "l") (Some LLM_ENGINE)
                 (mkData (Some OUTPUT) empty_config))
              LLM_ENGINE
              (mkContext "hello" None [] "t" None None))
    as (Hv & Hk & _ & _ & _ & _ & Hl & _ & Hno & Hr).
  - reflexivity.
  - reflexivity.
  - simpl. right; right; now left.
  - discriminate.
  - reflexivity.
  - split; [exact Hv|]. split; [exact Hk|]. split; [exact (Hl eq_refl)|].
    split; [exact Hno | exact Hr].
Defined.

(** ** Claim on rejection *)

(** C1: when [validate] returns [valid = false], [execute_workflow] raises
    the invalid-workflow error carrying the validation errors; no run is
    started: no context is built, no handler runs and no collaborator is
    called, whatever the collaborators are. *)
Theorem invalid_workflow_is_rejected (self : WorkflowEngine)
  (c : WorkflowConfig) (input : string) (session : option string) :
  valid (validate_workflow self c) = false ->
  execute_workflow self c input session
  = Some (Raises (InvalidWorkflow (errors (validate_workflow self c))), None)
  /\ (forall x, execute_workflow self c input session = Some x ->
        snd x = None /\ collaborator_calls x = [] /\ handler_runs x = [])
  /\ (forall self', execute_workflow self' c input session
                    = execute_workflow self c input session).
Proof.
  intros H.
  assert (E : forall s, execute_workflow s c input session
    = Some (Raises (InvalidWorkflow (errors (validate_workflow self c))), None)).
  { intros s. unfold execute_workflow.
    change (validate_workflow s c) with (validate_workflow self c).
    now rewrite H. }
  split; [apply E|]. split.
  - intros x Hx. rewrite E in Hx. injection Hx as <-. repeat split.
  - intros s. now rewrite !E.
Qed.

Lemma invalid_workflow_is_rejected_witness :
  execute_workflow echo_engine two_queries "hello" None
  = Some (Raises (InvalidWorkflow [missing_output_error]), None).
Proof.
  exact (proj1 (invalid_workflow_is_rejected echo_engine two_queries
                  "hello" None eq_refl)).
Defined.

(** ** Replacement and splitting *)

Lemma drop_empty (n : nat) : drop n EmptyString = EmptyString.
Proof. now destruct n. Qed.

Lemma split_from_not_nil (old s : string) (k : nat) : split_from k old s <> [].
Proof.
  revert k. induction s as [|c s IH]; intros k; cbn [split_from];
    [discriminate|].
  destruct k; [|apply IH].
  destruct (prefix old (String c s)); [discriminate|].
  destruct (split_from 0 old s); discriminate.
Qed.

Lemma concat_cons (sep x : string) (l : list string) :
  l <> [] -> String.concat sep (x :: l) = x ++ sep ++ String.concat sep l.
Proof. destruct l; [congruence | reflexivity]. Qed.

Lemma concat_cons_char (sep : string) (c : ascii) (x : string)
  (l : list string) :
  String.concat sep (String c x :: l) = String c (String.concat sep (x :: l)).
Proof. destruct l; reflexivity. Qed.

(** [replace] joins with the new text the pieces that [split] cuts. *)
Lemma replace_from_split (old new s : string) (k : nat) :
  replace_from k old new s = String.concat new (split_from k old s).
Proof.
  revert k. induction s as [|c s IH]; intros k; [reflexivity|].
  cbn [replace_from split_from]. destruct k as [|k]; [|apply IH].
  destruct (prefix old (String c s)).
  - rewrite concat_cons by apply split_from_not_nil.
    rewrite IH. reflexivity.
  - rewrite IH. pose proof (split_from_not_nil old s 0) as N.
    destruct (split_from 0 old s) as [|piece pieces]; [congruence|].
    now rewrite concat_cons_char.
Qed.

Lemma prefix_drop (p s : string) :
  prefix p s = true -> p ++ drop (String.length p) s = s.
Proof.
  revert s. induction p as [|a p IH]; intros s H; [reflexivity|].
  destruct s as [|b s]; simpl in *; [discriminate|].
  destruct (ascii_dec a b) as [->|]; [|discriminate].
  now rewrite IH.
Qed.

(** The pieces of [split], joined by the separator, give the string back. *)
Lemma split_from_join (old s : string) (k : nat) :
  old <> EmptyString ->
  String.concat old (split_from k old s) = drop k s.
Proof.
  intros Hold. revert k. induction s as [|c s IH]; intros k.
  - simpl. now rewrite drop_empty.
  - cbn [split_from]. destruct k as [|k]; [|apply IH].
    destruct (prefix old (String c s)) eqn:P.
    + rewrite concat_cons by apply split_from_not_nil.
      rewrite IH. destruct old as [|a old']; [congruence|].
      simpl in P. destruct (ascii_dec a c) as [->|]; [|discriminate].
      simpl. rewrite Nat.sub_0_r. now rewrite prefix_drop.
    + pose proof (split_from_not_nil old s 0) as N.
      specialize (IH 0).
      destruct (split_from 0 old s) as [|piece pieces]; [congruence|].
      rewrite concat_cons_char, IH. reflexivity.
Qed.

Lemma replace_split (old new s : string) :
  replace old new s = String.concat new (split old s).
Proof. apply replace_from_split. Qed.

Lemma split_join (old s : string) :
  old <> EmptyString -> String.concat old (split old s) = s.
Proof. intros H. apply (split_from_join old s 0 H). Qed.

(** ** The handlers *)

Lemma find_first_of_type (t : string) (rs : list NodeResult) :
  find (fun r => pyval_eqb (result_type r) (Some t)) rs = first_of_type t rs.
Proof.
  induction rs as [|r rs IH]; simpl; [reflexivity|].
  now destruct (pyval_eqb (result_type r) (Some t)).
Qed.

Lemma with_knowledge_stated (context : Context) :
  with_knowledge context (user_input context) = stated_context context.
Proof.
  unfold with_knowledge, stated_context, kb_results.
  rewrite find_first_of_type.
  destruct (first_of_type _ _) as [kb|]; [|reflexivity].
  now destruct (result_documents kb).
Qed.

Lemma llm_prompt_stated (config : NodeConfig) (context : Context) :
  llm_prompt config context = stated_prompt config context.
Proof.
  unfold llm_prompt, with_template, stated_prompt.
  rewrite with_knowledge_stated.
  destruct (cfg_prompt config) as [[|a t]|]; simpl; try reflexivity.
  apply replace_split.
Qed.

Lemma output_content_stated (context : Context) :
  output_content context = map result_content (llm_responses context).
Proof.
  unfold output_content, llm_responses.
  induction (dict_values (results context)) as [|r rs IH]; simpl;
    [reflexivity|].
  destruct (pyval_eqb (result_type r) (Some "llm_response")); simpl;
    now rewrite IH.
Qed.

Lemma dispatch_llm_engine (self : WorkflowEngine) (node : Node)
  (context : Context) :
  effective_type node = Some LLM_ENGINE ->
  _execute_node self node context = _execute_llm_engine self node context.
Proof. intros E. unfold _execute_node. now rewrite E. Qed.

Lemma dispatch_output (self : WorkflowEngine) (node : Node)
  (context : Context) :
  effective_type node = Some OUTPUT ->
  _execute_node self node context = _execute_output self node context.
Proof. intros E. unfold _execute_node. now rewrite E. Qed.

(** ** Claims on the handlers *)

(** C6, as stated, fails on the provider: for the model name [Gemini-Pro],
    which does not contain [gemini] as written, the request goes to the
    gemini provider. *)
Lemma provider_match_ignores_case :
  contains "gemini" (default "" (cfg_model gemini_config)) = false
  /\ exists req,
       snd (_execute_node echo_engine (llm_node "l" gemini_config)
              sample_context) = [CompletionCall req]
       /\ req_provider req = GEMINI
       /\ req_provider req <> stated_provider gemini_config.
Proof.
  split; [reflexivity|]. eexists. split; [reflexivity|].
  split; [reflexivity | discriminate].
Qed.

(** C6, amended: an [llm_engine] node makes one completion call. Its
    prompt starts from [context.user_input]; if the first result of type
    [knowledge_base], in results order, has a non-empty documents list, the
    prompt is prefixed with the first 3 of its documents at most, as a context
    block; then, if the node has a non-empty prompt template, the
    prompt becomes the template with every [{query}] placeholder replaced
    by the prompt built so far. The provider is gemini when the configured
    model name, lower-cased, contains [gemini], and openai otherwise. *)
Theorem llm_engine_request (self : WorkflowEngine) (node : Node)
  (context : Context) :
  effective_type node = Some LLM_ENGINE ->
  exists req,
    snd (_execute_node self node context) = [CompletionCall req]
    /\ req_prompt req = stated_prompt (data_config (node_data node)) context
    /\ req_provider req = provider_of_lowered (data_config (node_data node))
    /\ (forall template,
          String.concat "{query}" (split "{query}" template) = template).
Proof.
  intros E. exists (llm_request (data_config (node_data node)) context).
  rewrite (dispatch_llm_engine _ _ _ E). unfold _execute_llm_engine.
  split; [now destruct (generate_completion self _)|].
  split; [apply llm_prompt_stated|].
  split; [reflexivity|].
  intros template. apply split_join. discriminate.
Qed.

Lemma llm_engine_request_witness :
  exists req,
    snd (_execute_node echo_engine (llm_node "l" gemini_config) sample_context)
    = [CompletionCall req]
    /\ req_prompt req
       = "Answer: Context:" ++ nl ++ "d1" ++ blank_line ++ "d2" ++ blank_line
         ++ "d3" ++ blank_line ++ "Question: hello".
Proof.
  destruct (llm_engine_request echo_engine (llm_node "l" gemini_config)
              sample_context eq_refl) as [req (Hc & Hp & _)].
  exists req. split; [exact Hc|]. rewrite Hp. reflexivity.
Defined.

(** C7: the handler of an output node never fails and makes no collaborator
    call; the content of its result is the contents of the results of type
    [llm_response], in results order, joined by a blank line, or the
    placeholder [No output generated] when there is none. *)
Theorem output_handler_aggregates (self : WorkflowEngine) (node : Node)
  (context : Context) :
  effective_type node = Some OUTPUT ->
  _execute_node self node context
  = (Ok (OutputResult (stated_output context) (utcnow self)), []).
Proof.
  intros E. rewrite (dispatch_output _ _ _ E).
  unfold _execute_output, stated_output. rewrite output_content_stated.
  now destruct (llm_responses context).
Qed.

Lemma output_handler_aggregates_witness :
  _execute_node echo_engine (plain_node "o" OUTPUT) sample_context
  = (Ok (OutputResult ("first" ++ blank_line ++ "second")
           (utcnow echo_engine)), []).
Proof.
  exact (output_handler_aggregates echo_engine (plain_node "o" OUTPUT)
           sample_context eq_refl).
Defined.

(** ** Dictionaries and sets *)

Section DictFacts.
Context {V : Type}.
Implicit Types (d : dict V) (k : pyval).

Lemma dict_get_set k k' (v : V) d :
  dict_get k (dict_set k' v d)
  = if pyval_eqb k k' then Some v else dict_get k d.
Proof.
  induction d as [|[k0 v0] d IH]; simpl.
  - reflexivity.
  - destruct (pyval_eqb_spec k' k0) as [->|N]; simpl.
    + now destruct (pyval_eqb k k0).
    + destruct (pyval_eqb_spec k k0) as [->|N'].
      * destruct (pyval_eqb_spec k0 k'); congruence.
      * exact IH.
Qed.

Lemma dict_keys_set k k' (v : V) d :
  In k (dict_keys (dict_set k' v d)) <-> k = k' \/ In k (dict_keys d).
Proof.
  unfold dict_keys. induction d as [|[k0 v0] d IH]; simpl.
  - intuition congruence.
  - destruct (pyval_eqb_spec k' k0) as [->|N]; simpl.
    + intuition congruence.
    + rewrite IH. intuition congruence.
Qed.

Lemma dict_get_keys k d :
  In k (dict_keys d) <-> dict_get k d <> None.
Proof.
  unfold dict_keys. induction d as [|[k0 v0] d IH]; simpl.
  - intuition congruence.
  - destruct (pyval_eqb_spec k k0) as [->|N].
    + split; [discriminate | now left].
    + rewrite <- IH. intuition congruence.
Qed.

Lemma dict_get_some_keys k d (v : V) :
  dict_get k d = Some v -> In k (dict_keys d).
Proof. intros H. apply dict_get_keys. congruence. Qed.

Lemma dict_keys_update k (f : V -> V) d :
  dict_keys (dict_update k f d) = dict_keys d.
Proof.
  unfold dict_keys. induction d as [|[k0 v0] d IH]; simpl; [reflexivity|].
  destruct (pyval_eqb k k0); simpl; congruence.
Qed.

Lemma dict_get_update k k' (f : V -> V) d :
  dict_get k (dict_update k' f d)
  = if pyval_eqb k k' then option_map f (dict_get k d) else dict_get k d.
Proof.
  induction d as [|[k0 v0] d IH]; simpl.
  - now destruct (pyval_eqb k k').
  - destruct (pyval_eqb_spec k' k0) as [->|N]; simpl.
    + now destruct (pyval_eqb k k0).
    + destruct (pyval_eqb_spec k k0) as [->|N'].
      * destruct (pyval_eqb_spec k0 k'); congruence.
      * exact IH.
Qed.
End DictFacts.

Lemma set_add_In (k k' : pyval) (s : list pyval) :
  In k (set_add k' s) <-> k = k' \/ In k s.
Proof.
  unfold set_add. destruct (py_in k' s) eqn:E.
  - apply py_in_In in E. intuition congruence.
  - rewrite in_app_iff. simpl. intuition congruence.
Qed.

Lemma set_add_NoDup (k : pyval) (s : list pyval) :
  NoDup s -> NoDup (set_add k s).
Proof.
  intros H. unfold set_add. destruct (py_in k s) eqn:E; [assumption|].
  apply py_in_not_In in E.
  apply NoDup_rev in H. rewrite <- (rev_involutive (s ++ [k])).
  apply NoDup_rev. rewrite rev_app_distr. simpl. constructor; [|assumption].
  now rewrite <- in_rev.
Qed.

Lemma set_add_length (k : pyval) (s : list pyval) :
  List.length s <= List.length (set_add k s).
Proof.
  unfold set_add. destruct (py_in k s); [lia|]. rewrite length_app. lia.
Qed.

Lemma set_add_length_new (k : pyval) (s : list pyval) :
  ~ In k s -> List.length (set_add k s) = S (List.length s).
Proof.
  intros H. apply py_in_not_In in H. unfold set_add. rewrite H.
  rewrite length_app. simpl. lia.
Qed.

(** ** One wave *)

Section Commit.
Variable f : Node -> outcome NodeResult.

Lemma committed_executed ready acc k :
  In k (snd (committed f ready acc))
  <-> In k (snd acc) \/ In k (map node_id ready).
Proof.
  unfold committed. revert acc.
  induction ready as [|a ready IH]; intros acc; simpl.
  - tauto.
  - rewrite IH. simpl. rewrite set_add_In. intuition congruence.
Qed.

Lemma committed_keys ready acc k :
  In k (dict_keys (fst (committed f ready acc)))
  <-> In k (dict_keys (fst acc)) \/ In k (map node_id ready).
Proof.
  unfold committed. revert acc.
  induction ready as [|a ready IH]; intros acc; simpl.
  - tauto.
  - rewrite IH. simpl. rewrite dict_keys_set. intuition congruence.
Qed.

Lemma committed_NoDup ready acc :
  NoDup (snd acc) -> NoDup (snd (committed f ready acc)).
Proof.
  unfold committed. revert acc.
  induction ready as [|a ready IH]; intros acc H; simpl; [assumption|].
  apply IH. simpl. now apply set_add_NoDup.
Qed.

Lemma committed_length ready acc :
  List.length (snd acc) <= List.length (snd (committed f ready acc)).
Proof.
  unfold committed. revert acc.
  induction ready as [|a ready IH]; intros acc; simpl; [lia|].
  etransitivity; [|apply IH]. simpl. apply set_add_length.
Qed.

Lemma committed_grows a ready acc :
  ~ In (node_id a) (snd acc) ->
  List.length (snd acc) < List.length (snd (committed f (a :: ready) acc)).
Proof.
  intros H. unfold committed. simpl.
  eapply Nat.lt_le_trans; [|apply committed_length]. simpl.
  rewrite set_add_length_new by assumption. lia.
Qed.

Lemma committed_other ready acc k :
  ~ In k (map node_id ready) ->
  dict_get k (fst (committed f ready acc)) = dict_get k (fst acc).
Proof.
  unfold committed. revert acc.
  induction ready as [|a ready IH]; intros acc H; simpl; [reflexivity|].
  simpl in H. rewrite IH by tauto. simpl. rewrite dict_get_set.
  destruct (pyval_eqb_spec k (node_id a)) as [->|]; [tauto | reflexivity].
Qed.

Lemma committed_stored ready acc n :
  NoDup (map node_id ready) -> In n ready ->
  dict_get (node_id n) (fst (committed f ready acc)) = Some (stored (f n)).
Proof.
  unfold committed. revert acc.
  induction ready as [|a ready IH]; intros acc D Hn; [destruct Hn|].
  simpl in D. apply NoDup_cons_iff in D. destruct D as [Da D].
  simpl. destruct Hn as [->|Hn].
  - pose proof (committed_other ready
                  (commit acc (n, f n)) (node_id n) Da) as E.
    unfold committed in E. rewrite E. simpl.
    now rewrite dict_get_set, pyval_eqb_refl.
  - now apply IH.
Qed.
End Commit.

Lemma ready_nodes_In (ns : list Node) (graph : ExecutionGraph)
  (executed : list pyval) (n : Node) :
  In n (ready_nodes ns graph executed) ->
  In n ns /\ ~ In (node_id n) executed
  /\ forall dep, In dep (dependencies_of graph (node_id n)) -> In dep executed.
Proof.
  unfold ready_nodes. rewrite filter_In, andb_true_iff, negb_true_iff.
  rewrite py_in_not_In, forallb_forall.
  intros (Hn & Hx & Hd). repeat split; try assumption.
  intros dep H. now apply py_in_In, Hd.
Qed.

Lemma ready_nodes_fresh (ns : list Node) (graph : ExecutionGraph)
  (executed : list pyval) (k : pyval) :
  In k executed -> ~ In k (map node_id (ready_nodes ns graph executed)).
Proof.
  intros Hk H. apply in_map_iff in H. destruct H as [n [<- Hn]].
  apply ready_nodes_In in Hn. tauto.
Qed.

Lemma NoDup_map_filter {A B : Type} (g : A -> B) (p : A -> bool)
  (l : list A) :
  NoDup (map g l) -> NoDup (map g (filter p l)).
Proof.
  induction l as [|a l IH]; simpl; intros H; [constructor|].
  apply NoDup_cons_iff in H. destruct H as [Ha H].
  destruct (p a); simpl; [|now apply IH].
  constructor; [|now apply IH].
  intros Hin. apply Ha. apply in_map_iff in Hin.
  destruct Hin as [x [E Hx]]. apply filter_In in Hx.
  apply in_map_iff. exists x. tauto.
Qed.

Lemma run_wave_executed (self : WorkflowEngine) (ready : list Node)
  (st : RunState) :
  executed_nodes (run_wave self ready st)
  = snd (committed (fun n => fst (_execute_node self n (context st))) ready
           (results (context st), executed_nodes st)).
Proof. unfold run_wave, committed. simpl. now rewrite map_map. Qed.

Lemma run_wave_results (self : WorkflowEngine) (ready : list Node)
  (st : RunState) :
  results (context (run_wave self ready st))
  = fst (committed (fun n => fst (_execute_node self n (context st))) ready
           (results (context st), executed_nodes st)).
Proof. unfold run_wave, committed. simpl. now rewrite map_map. Qed.

Lemma run_wave_waves (self : WorkflowEngine) (ready : list Node)
  (st : RunState) :
  waves (run_wave self ready st)
  = (waves st
     ++ [mkWave ready (context st) (executed_nodes st)
           (map (fun n => fst (_execute_node self n (context st))) ready)])%list.
Proof. unfold run_wave. simpl. now rewrite map_map. Qed.

Lemma snoc_split {A : Type} (l pre post : list A) (x w : A) :
  (l ++ [x] = pre ++ w :: post)%list ->
  (exists post', post = (post' ++ [x])%list /\ l = (pre ++ w :: post')%list)
  \/ (post = [] /\ pre = l /\ w = x).
Proof.
  intros H. destruct post as [|p post].
  - right. apply app_inj_tail in H. destruct H; subst. auto.
  - left. assert (N : p :: post <> []) by discriminate.
    destruct (exists_last N) as [post' [z Ez]].
    rewrite Ez in H. change (pre ++ w :: post' ++ [z])%list
      with (pre ++ (w :: post') ++ [z])%list in H.
    rewrite app_assoc in H. apply app_inj_tail in H. destruct H as [H ->].
    exists post'. split; [exact Ez | exact H].
Qed.

Lemma ran_app (ws ws' : list Wave) : ran (ws ++ ws') = (ran ws ++ ran ws')%list.
Proof. unfold ran. apply flat_map_app. Qed.

Lemma ran_In_wave (pre post : list Wave) (w : Wave) (n : Node) :
  In n (wave_ready w) -> In (node_id n) (ran (pre ++ w :: post)).
Proof.
  intros H. rewrite ran_app. apply in_or_app. right.
  unfold ran. simpl. apply in_or_app. left. now apply in_map.
Qed.

(** ** The invariant along the loop *)

Section Loop.
Variable self : WorkflowEngine.
Variable ns : list Node.
Variable graph : ExecutionGraph.

Lemma loop_iteration_continue (st st' : RunState) :
  loop_iteration self ns graph st = Continue st' ->
  List.length (executed_nodes st) < List.length ns
  /\ ready_nodes ns graph (executed_nodes st) <> []
  /\ st' = run_wave self (ready_nodes ns graph (executed_nodes st)) st.
Proof.
  unfold loop_iteration.
  destruct (Nat.ltb_spec (List.length (executed_nodes st)) (List.length ns));
    [|discriminate].
  destruct (ready_nodes ns graph (executed_nodes st)) eqn:E; [discriminate|].
  intros [= <-]. repeat split; [assumption | discriminate].
Qed.

Lemma loop_iteration_exit (st : RunState) (e : LoopExit) :
  loop_iteration self ns graph st = Exit e ->
  match e with
  | AllExecuted => List.length ns <= List.length (executed_nodes st)
  | NoReadyNodes =>
      List.length (executed_nodes st) < List.length ns
      /\ ready_nodes ns graph (executed_nodes st) = []
  end.
Proof.
  unfold loop_iteration.
  destruct (Nat.ltb_spec (List.length (executed_nodes st)) (List.length ns)).
  - destruct (ready_nodes ns graph (executed_nodes st)); [|discriminate].
    intros [= <-]. now split.
  - intros [= <-]. assumption.
Qed.

(** A wave adds the ids of its nodes, one of them new at least. *)
Lemma wave_grows (st st' : RunState) :
  loop_iteration self ns graph st = Continue st' ->
  List.length (executed_nodes st) < List.length (executed_nodes st')
  /\ incl (executed_nodes st) (executed_nodes st')
  /\ exists n, In n ns /\ ~ In (node_id n) (executed_nodes st)
               /\ In (node_id n) (executed_nodes st').
Proof.
  intros H. apply loop_iteration_continue in H.
  destruct H as (_ & Hne & ->). rewrite run_wave_executed.
  destruct (ready_nodes ns graph (executed_nodes st)) as [|a ready] eqn:E;
    [congruence|].
  assert (Ha : In a (ready_nodes ns graph (executed_nodes st)))
    by (rewrite E; now left).
  apply ready_nodes_In in Ha. destruct Ha as (Hin & Hfresh & _).
  split; [|split].
  - now apply (committed_grows _ a ready
                 (results (context st), executed_nodes st)).
  - intros k Hk. apply committed_executed. now left.
  - exists a. repeat split; try assumption.
    apply committed_executed. right. now left.
Qed.

Lemma invariant_step (st st' : RunState) :
  loop_invariant self ns graph st ->
  loop_iteration self ns graph st = Continue st' ->
  loop_invariant self ns graph st'.
Proof.
  intros I H. pose proof (wave_grows st st' H) as (Hlen & _ & _).
  apply loop_iteration_continue in H. destruct H as (_ & Hne & ->).
  set (ready := ready_nodes ns graph (executed_nodes st)) in *.
  set (f := fun n => fst (_execute_node self n (context st))).
  assert (Fresh : forall k, In k (executed_nodes st) ->
                            ~ In k (map node_id ready))
    by (intros k; apply ready_nodes_fresh).
  assert (Keep : forall k, In k (executed_nodes st) ->
    dict_get k (results (context (run_wave self ready st)))
    = dict_get k (results (context st))).
  { intros k Hk. rewrite run_wave_results.
    rewrite committed_other by now apply Fresh. reflexivity. }
  constructor.
  - intros k. rewrite run_wave_executed, run_wave_results.
    rewrite committed_executed, committed_keys. simpl.
    rewrite (inv_keys _ _ _ _ I). tauto.
  - intros k. rewrite run_wave_executed, run_wave_waves, ran_app.
    rewrite committed_executed, in_app_iff. simpl.
    rewrite (inv_ran _ _ _ _ I). unfold ran at 2. simpl.
    rewrite app_nil_r. tauto.
  - intros k. rewrite run_wave_executed, committed_executed. simpl.
    intros [Hk|Hk]; [now apply (inv_declared _ _ _ _ I)|].
    apply in_map_iff in Hk. destruct Hk as [n [<- Hn]].
    apply ready_nodes_In in Hn. now apply in_map.
  - rewrite run_wave_executed. apply committed_NoDup. simpl.
    apply (inv_nodup _ _ _ _ I).
  - rewrite run_wave_waves, length_app. cbn [Datatypes.length].
    pose proof (inv_count _ _ _ _ I). lia.
  - intros pre w post E. rewrite run_wave_waves in E.
    apply snoc_split in E. destruct E as [[post' [_ E]] | (_ & -> & ->)].
    + exact (inv_waves _ _ _ _ I _ _ _ E).
    + constructor; simpl.
      * reflexivity.
      * exact Hne.
      * reflexivity.
      * apply (inv_ran _ _ _ _ I).
      * apply (inv_keys _ _ _ _ I).
  - intros pre w post E k r Hr. rewrite run_wave_waves in E.
    apply snoc_split in E. destruct E as [[post' [_ E]] | (_ & -> & ->)].
    + pose proof (inv_stable _ _ _ _ I _ _ _ E k r Hr) as Hs.
      rewrite Keep; [assumption|].
      apply (inv_keys _ _ _ _ I). eapply dict_get_some_keys; eassumption.
    + simpl in Hr. rewrite Keep; [assumption|].
      apply (inv_keys _ _ _ _ I). eapply dict_get_some_keys; eassumption.
  - intros D pre w post E n Hn. rewrite run_wave_waves in E.
    apply snoc_split in E. destruct E as [[post' [_ E]] | (_ & -> & ->)].
    + rewrite Keep; [exact (inv_stored _ _ _ _ I D _ _ _ E n Hn)|].
      apply (inv_ran _ _ _ _ I). rewrite E. now apply ran_In_wave.
    + simpl in Hn. rewrite run_wave_results.
      apply (committed_stored f); [|assumption].
      now apply NoDup_map_filter.
Qed.

Lemma invariant_loop (fuel : nat) (st st' : RunState) (e : LoopExit) :
  loop_invariant self ns graph st ->
  wave_loop fuel self ns graph st = Some (st', e) ->
  loop_invariant self ns graph st'
  /\ loop_iteration self ns graph st' = Exit e.
Proof.
  revert st. induction fuel as [|fuel IH]; intros st I; simpl;
    destruct (loop_iteration self ns graph st) as [st1|e1] eqn:E.
  - discriminate.
  - intros [= <- <-]. now split.
  - intros H. apply (IH st1); [|assumption].
    now apply (invariant_step st).
  - intros [= <- <-]. now split.
Qed.

(** Enough fuel: the loop comes to an exit. *)
Lemma wave_loop_exits (fuel : nat) (st : RunState) :
  List.length ns <= List.length (executed_nodes st) + fuel ->
  exists final, wave_loop fuel self ns graph st = Some final.
Proof.
  revert st. induction fuel as [|fuel IH]; intros st Hf; simpl;
    destruct (loop_iteration self ns graph st) as [st1|e1] eqn:E;
    try (eexists; reflexivity).
  - apply loop_iteration_continue in E. lia.
  - apply IH. apply wave_grows in E. lia.
Qed.

(** More fuel changes nothing. *)
Lemma wave_loop_more_fuel (fuel extra : nat) (st : RunState)
  (final : RunState * LoopExit) :
  wave_loop fuel self ns graph st = Some final ->
  wave_loop (fuel + extra) self ns graph st = Some final.
Proof.
  revert st. induction fuel as [|fuel IH]; intros st; simpl;
    destruct (loop_iteration self ns graph st) as [st1|e1] eqn:E.
  - discriminate.
  - intros H. destruct extra; simpl; now rewrite E.
  - apply IH.
  - trivial.
Qed.
End Loop.

Lemma invariant_initial (self : WorkflowEngine) (c : WorkflowConfig)
  (graph : ExecutionGraph) (input : string) (session : option string) :
  loop_invariant self (nodes c) graph (initial_state self c input session).
Proof.
  constructor; simpl; try tauto.
  - intros k [].
  - constructor.
  - lia.
  - intros pre w post E. now destruct pre.
  - intros pre w post E. now destruct pre.
  - intros _ pre w post E. now destruct pre.
Qed.

(** ** The execution graph *)

Lemma dependencies_add_dependent (g : ExecutionGraph) (k k' t : pyval) :
  dependencies_of (dict_update k' (add_dependent t) g) k = dependencies_of g k.
Proof.
  unfold dependencies_of. rewrite dict_get_update.
  destruct (pyval_eqb k k'); [|reflexivity].
  now destruct (dict_get k g).
Qed.

Lemma dependencies_add_dependency_mono (g : ExecutionGraph) (k k' s a : pyval) :
  In a (dependencies_of g k) ->
  In a (dependencies_of (dict_update k' (add_dependency s) g) k).
Proof.
  unfold dependencies_of. rewrite dict_get_update.
  destruct (pyval_eqb k k'); [|trivial].
  destruct (dict_get k g); simpl; [|trivial].
  intros H. apply in_or_app. now left.
Qed.

Lemma dependencies_add_dependency (g : ExecutionGraph) (k s : pyval) :
  In k (dict_keys g) ->
  In s (dependencies_of (dict_update k (add_dependency s) g) k).
Proof.
  intros H. apply dict_get_keys in H.
  unfold dependencies_of. rewrite dict_get_update, pyval_eqb_refl.
  destruct (dict_get k g); [|congruence]. simpl.
  apply in_or_app. right. now left.
Qed.

Lemma add_edge_keys (g : ExecutionGraph) (e : Edge) :
  dict_keys (add_edge g e) = dict_keys g.
Proof.
  unfold add_edge.
  destruct (dict_mem (edge_source e) g && dict_mem (edge_target e) g);
    [|reflexivity].
  now rewrite !dict_keys_update.
Qed.

Lemma add_edge_mono (g : ExecutionGraph) (e : Edge) (k a : pyval) :
  In a (dependencies_of g k) -> In a (dependencies_of (add_edge g e) k).
Proof.
  intros H. unfold add_edge.
  destruct (dict_mem (edge_source e) g && dict_mem (edge_target e) g);
    [|assumption].
  rewrite dependencies_add_dependent.
  now apply dependencies_add_dependency_mono.
Qed.

Lemma add_edge_dependency (g : ExecutionGraph) (e : Edge) :
  In (edge_source e) (dict_keys g) -> In (edge_target e) (dict_keys g) ->
  In (edge_source e) (dependencies_of (add_edge g e) (edge_target e)).
Proof.
  intros Hs Ht. unfold add_edge, dict_mem.
  rewrite (proj2 (py_in_In _ _) Hs), (proj2 (py_in_In _ _) Ht). simpl.
  rewrite dependencies_add_dependent.
  now apply dependencies_add_dependency.
Qed.

Lemma add_edges_keys (es : list Edge) (g : ExecutionGraph) :
  dict_keys (fold_left add_edge es g) = dict_keys g.
Proof.
  revert g. induction es as [|e es IH]; intros g; simpl; [reflexivity|].
  now rewrite IH, add_edge_keys.
Qed.

Lemma add_edges_mono (es : list Edge) (g : ExecutionGraph) (k a : pyval) :
  In a (dependencies_of g k) ->
  In a (dependencies_of (fold_left add_edge es g) k).
Proof.
  revert g. induction es as [|e es IH]; intros g H; simpl; [assumption|].
  now apply IH, add_edge_mono.
Qed.

Lemma add_edges_dependency (es : list Edge) (g : ExecutionGraph) (e : Edge) :
  In e es ->
  In (edge_source e) (dict_keys g) -> In (edge_target e) (dict_keys g) ->
  In (edge_source e)
     (dependencies_of (fold_left add_edge es g) (edge_target e)).
Proof.
  revert g. induction es as [|e' es IH]; intros g He Hs Ht; [destruct He|].
  simpl. destruct He as [->|He].
  - now apply add_edges_mono, add_edge_dependency.
  - apply IH; [assumption | |]; now rewrite add_edge_keys.
Qed.

Lemma graph_nodes_keys (ns : list Node) (g : ExecutionGraph) (k : pyval) :
  In k (dict_keys
          (fold_left (fun g node => dict_set (node_id node) (mkEntry node [] []) g)
             ns g))
  <-> In k (dict_keys g) \/ In k (map node_id ns).
Proof.
  revert g. induction ns as [|n ns IH]; intros g; simpl; [tauto|].
  rewrite IH, dict_keys_set. intuition congruence.
Qed.

(** An edge between declared ids makes its source a dependency of its
    target. *)
Lemma edge_is_dependency (ns : list Node) (es : list Edge) (e : Edge) :
  In e es ->
  In (edge_source e) (map node_id ns) -> In (edge_target e) (map node_id ns) ->
  In (edge_source e)
     (dependencies_of (_build_execution_graph ns es) (edge_target e)).
Proof.
  intros He Hs Ht. unfold _build_execution_graph.
  apply add_edges_dependency; [assumption | |];
    apply graph_nodes_keys; now right.
Qed.

(** ** Runs *)

Lemma run_exits (self : WorkflowEngine) (c : WorkflowConfig) (input : string)
  (session : option string) :
  exists final, run self c input session = Some final.
Proof. unfold run. apply wave_loop_exits. simpl. lia. Qed.

Lemma run_invariant (self : WorkflowEngine) (c : WorkflowConfig)
  (input : string) (session : option string) (st : RunState) (e : LoopExit) :
  run self c input session = Some (st, e) ->
  loop_invariant self (nodes c)
    (_build_execution_graph (nodes c) (edges c)) st
  /\ loop_iteration self (nodes c)
       (_build_execution_graph (nodes c) (edges c)) st = Exit e.
Proof.
  unfold run. apply invariant_loop, invariant_initial.
Qed.

Lemma execute_valid (self : WorkflowEngine) (c : WorkflowConfig)
  (input : string) (session : option string) :
  valid (validate_workflow self c) = true ->
  exists st e,
    run self c input session = Some (st, e)
    /\ execute_workflow self c input session
       = Some (Returns (finish self (nodes c) st), Some (st, e)).
Proof.
  intros V. destruct (run_exits self c input session) as [[st e] R].
  exists st, e. split; [assumption|].
  unfold execute_workflow. now rewrite V, R.
Qed.

Lemma executed_bound (self : WorkflowEngine) (ns : list Node)
  (graph : ExecutionGraph) (st : RunState) :
  loop_invariant self ns graph st ->
  List.length (executed_nodes st) <= List.length ns.
Proof.
  intros I. rewrite <- (length_map node_id ns).
  apply NoDup_incl_length;
    [apply (inv_nodup _ _ _ _ I) | apply (inv_declared _ _ _ _ I)].
Qed.

Lemma unexecuted_bound (self : WorkflowEngine) (ns : list Node)
  (graph : ExecutionGraph) (st : RunState) (n : Node) :
  loop_invariant self ns graph st ->
  In n ns -> ~ In (node_id n) (executed_nodes st) ->
  List.length (executed_nodes st) < List.length ns.
Proof.
  intros I Hn Hx. rewrite <- (length_map node_id ns).
  apply (NoDup_incl_length (l := node_id n :: executed_nodes st)).
  - constructor; [assumption | apply (inv_nodup _ _ _ _ I)].
  - intros k [<-|Hk]; [now apply in_map | now apply (inv_declared _ _ _ _ I)].
Qed.

(** ** The schedule does not depend on what the handlers return *)

Lemma committed_executed_eq (f : Node -> outcome NodeResult)
  (ready : list Node) (acc : Results * list pyval) :
  snd (committed f ready acc)
  = fold_left (fun ex n => set_add (node_id n) ex) ready (snd acc).
Proof.
  unfold committed. revert acc.
  induction ready as [|a ready IH]; intros acc; simpl; [reflexivity|].
  now rewrite IH.
Qed.

Lemma same_schedule_step (self self' : WorkflowEngine) (ns : list Node)
  (graph : ExecutionGraph) (st st' : RunState) :
  same_schedule st st' ->
  match loop_iteration self ns graph st, loop_iteration self' ns graph st' with
  | Continue a, Continue b => same_schedule a b
  | Exit e, Exit e' => e = e'
  | _, _ => False
  end.
Proof.
  intros [Hx Hw]. unfold loop_iteration. rewrite <- Hx.
  destruct (List.length (executed_nodes st) <? List.length ns); [|reflexivity].
  destruct (ready_nodes ns graph (executed_nodes st)) as [|a ready] eqn:E;
    [reflexivity|].
  split.
  - rewrite !run_wave_executed, !committed_executed_eq. simpl. now rewrite Hx.
  - rewrite !run_wave_waves, !map_app. simpl. now rewrite Hw.
Qed.

Lemma same_schedule_loop (self self' : WorkflowEngine) (ns : list Node)
  (graph : ExecutionGraph) (fuel : nat) (st st' : RunState) :
  same_schedule st st' ->
  match wave_loop fuel self ns graph st, wave_loop fuel self' ns graph st' with
  | Some (a, e), Some (b, e') => same_schedule a b /\ e = e'
  | None, None => True
  | _, _ => False
  end.
Proof.
  revert st st'. induction fuel as [|fuel IH]; intros st st' H;
    pose proof (same_schedule_step self self' ns graph st st' H) as S; simpl;
    destruct (loop_iteration self ns graph st),
             (loop_iteration self' ns graph st'); try contradiction;
    try (now split); try exact I.
  now apply IH.
Qed.

(** ** Claims on the wave loop *)

(** C9: the wave loop terminates. An execution of the loop body either
    leaves by the empty-ready-set break or runs a wave that adds at least
    one new id to the executed set, which only grows and stays within the
    declared node ids; so the body is executed at most as many times as
    there are nodes, and [execute_workflow] on a workflow that passes
    validation returns. *)
Theorem wave_loop_terminates (self : WorkflowEngine) (c : WorkflowConfig)
  (input : string) (session : option string) :
  (forall st,
     List.length (executed_nodes st) < List.length (nodes c) ->
     loop_iteration self (nodes c)
       (_build_execution_graph (nodes c) (edges c)) st = Exit NoReadyNodes
     \/ exists st',
          loop_iteration self (nodes c)
            (_build_execution_graph (nodes c) (edges c)) st = Continue st'
          /\ incl (executed_nodes st) (executed_nodes st')
          /\ exists n, In n (nodes c)
                       /\ ~ In (node_id n) (executed_nodes st)
                       /\ In (node_id n) (executed_nodes st'))
  /\ (exists final,
        run self c input session = Some final
        /\ iterations final <= List.length (nodes c)
        /\ incl (executed_nodes (fst final)) (map node_id (nodes c))
        /\ (forall extra,
              wave_loop (List.length (nodes c) + extra) self (nodes c)
                (_build_execution_graph (nodes c) (edges c))
                (initial_state self c input session) = Some final)
        /\ (valid (validate_workflow self c) = true ->
            execute_workflow self c input session
            = Some (Returns (finish self (nodes c) (fst final)), Some final))).
Proof.
  split.
  - intros st Hlt.
    destruct (loop_iteration self (nodes c)
                (_build_execution_graph (nodes c) (edges c)) st)
      as [st'|e] eqn:E.
    + right. exists st'. split; [reflexivity|].
      now apply wave_grows in E.
    + left. apply loop_iteration_exit in E. destruct e; [lia | reflexivity].
  - destruct (run_exits self c input session) as [[st e] R].
    destruct (run_invariant _ _ _ _ _ _ R) as [I X].
    exists (st, e). split; [assumption|]. split; [|split; [|split]].
    + unfold iterations. simpl.
      pose proof (inv_count _ _ _ _ I) as Hc.
      pose proof (executed_bound _ _ _ _ I) as Hb.
      apply loop_iteration_exit in X. destruct e; lia.
    + apply (inv_declared _ _ _ _ I).
    + intros extra. now apply wave_loop_more_fuel.
    + intros V. unfold execute_workflow. now rewrite V, R.
Qed.

Lemma wave_loop_terminates_witness :
  exists final,
    run echo_engine kb_workflow "hello" None = Some final
    /\ iterations final <= 4
    /\ execute_workflow echo_engine kb_workflow "hello" None
       = Some (Returns (finish echo_engine (nodes kb_workflow) (fst final)),
               Some final).
Proof.
  destruct (wave_loop_terminates echo_engine kb_workflow "hello" None)
    as (_ & final & R & Hi & _ & _ & Hx).
  exists final. split; [exact R|]. split; [exact Hi|].
  apply Hx. reflexivity.
Defined.

(** C5: when unexecuted nodes remain at the end of the loop, the loop was
    left by the break on an empty ready set and [execute_workflow] returns
    without raising: the id of every unexecuted node is absent from
    [context.results], every element of [output] is the stored result of an
    executed node, and the summary's executed count is the number of
    executed ids, strictly less than its total. *)
Theorem stall_returns_partial (self : WorkflowEngine) (c : WorkflowConfig)
  (input : string) (session : option string) :
  valid (validate_workflow self c) = true ->
  exists r st e,
    execute_workflow self c input session = Some (Returns r, Some (st, e))
    /\ ((exists n, In n (nodes c) /\ ~ In (node_id n) (executed_nodes st)) ->
        e = NoReadyNodes
        /\ ready_nodes (nodes c) (_build_execution_graph (nodes c) (edges c))
             (executed_nodes st) = []
        /\ (forall m, In m (nodes c) ->
              ~ In (node_id m) (executed_nodes st) ->
              dict_get (node_id m) (results (result_context r)) = None)
        /\ (forall v, In v (output r) ->
              exists m, In m (nodes c) /\ In (node_id m) (executed_nodes st)
                        /\ dict_get (node_id m) (results (result_context r))
                           = Some v)
        /\ summary_executed_nodes (execution_summary r)
           = List.length (executed_nodes st)
        /\ summary_total_nodes (execution_summary r) = List.length (nodes c)
        /\ summary_executed_nodes (execution_summary r)
           < summary_total_nodes (execution_summary r)).
Proof.
  intros V. destruct (execute_valid self c input session V)
    as (st & e & R & X).
  exists (finish self (nodes c) st), st, e. split; [exact X|].
  intros [n [Hn Hx]].
  destruct (run_invariant _ _ _ _ _ _ R) as [I Hexit].
  pose proof (unexecuted_bound _ _ _ _ n I Hn Hx) as Hlt.
  apply loop_iteration_exit in Hexit.
  destruct e; [lia|]. destruct Hexit as [_ Hready].
  split; [reflexivity|]. split; [exact Hready|]. simpl.
  split; [|split; [|split; [reflexivity | split; [reflexivity | exact Hlt]]]].
  - intros m _ Hm. destruct (dict_get (node_id m) (results (context st)))
      as [v|] eqn:G; [|reflexivity].
    exfalso. apply Hm, (inv_keys _ _ _ _ I).
    eapply dict_get_some_keys; eassumption.
  - intros v Hv. unfold final_output in Hv. apply in_flat_map in Hv.
    destruct Hv as [m [Hm Hv]]. apply filter_In in Hm.
    destruct (dict_get (node_id m) (results (context st))) as [v'|] eqn:G;
      [|destruct Hv].
    destruct Hv as [<-|[]]. exists m. split; [tauto|]. split; [|exact G].
    apply (inv_keys _ _ _ _ I). eapply dict_get_some_keys; eassumption.
Qed.

Lemma stall_returns_partial_witness :
  exists r st e,
    execute_workflow echo_engine stalled_workflow "hello" None
    = Some (Returns r, Some (st, e))
    /\ e = NoReadyNodes
    /\ summary_executed_nodes (execution_summary r)
       < summary_total_nodes (execution_summary r).
Proof.
  destruct (stall_returns_partial echo_engine stalled_workflow "hello" None
              eq_refl) as (r & st & e & X & H).
  exists r, st, e. split; [exact X|].
  assert (Hx : ~ In (Some "x") (executed_nodes st)).
  { vm_compute in X. injection X as _ <- _.
    simpl. intros [F|[F|[]]]; discriminate. }
  destruct H as (He & _ & _ & _ & _ & _ & Hlt).
  - exists (plain_node "x" LLM_ENGINE). split; [simpl; tauto | exact Hx].
  - split; [exact He | exact Hlt].
Defined.

Lemma finish_results (self : WorkflowEngine) (ns : list Node) (st : RunState) :
  results (result_context (finish self ns st)) = results (context st).
Proof. reflexivity. Qed.

(** C3, as stated, fails on the shape of the record: the value stored for
    a node whose handler failed has the single key [error]; its [type] key
    is absent, so it is not a record of type [error]. *)
Lemma error_record_has_no_type :
  exists st e w,
    run echo_engine kb_workflow "hello" None = Some (st, e)
    /\ In w (waves st)
    /\ In (plain_node "k" KNOWLEDGE_BASE) (wave_ready w)
    /\ handled echo_engine w (plain_node "k" KNOWLEDGE_BASE)
       = Raise "retrieval unavailable"
    /\ dict_get (Some "k") (results (context st))
       = Some (ErrorRecord "retrieval unavailable")
    /\ forall v, dict_get (Some "k") (results (context st)) = Some v ->
                 result_type v <> Some "error".
Proof.
  eexists. eexists. eexists.
  split; [vm_compute; reflexivity|].
  split; [left; reflexivity|].
  split; [right; left; reflexivity|].
  split; [reflexivity|]. split; [reflexivity|].
  intros v H. vm_compute in H. injection H as <-. discriminate.
Qed.

(** C3, amended: with distinct node ids, for every node of a wave whose
    handler fails, the value stored in [context.results] under the node's id
    is the record [{error: message}], which has no [type] key; for a node
    whose handler succeeds it is the handler's result. Every handler of the
    wave is run, every node of the wave is in the executed set whatever its
    outcome, and the waves that are run and the way the loop is left are
    the same whatever the handlers of the run return. *)
Theorem node_failure_is_recorded (self : WorkflowEngine) (c : WorkflowConfig)
  (input : string) (session : option string) :
  NoDup (map node_id (nodes c)) ->
  valid (validate_workflow self c) = true ->
  exists r st e,
    execute_workflow self c input session = Some (Returns r, Some (st, e))
    /\ (forall pre w post, waves st = (pre ++ w :: post)%list ->
          wave_outcomes w = map (handled self w) (wave_ready w)
          /\ forall n, In n (wave_ready w) ->
               In (node_id n) (executed_nodes st)
               /\ (forall msg, handled self w n = Raise msg ->
                     dict_get (node_id n) (results (result_context r))
                     = Some (ErrorRecord msg)
                     /\ result_type (ErrorRecord msg) = None
                     /\ has_error_key (ErrorRecord msg) = true)
               /\ (forall v, handled self w n = Ok v ->
                     dict_get (node_id n) (results (result_context r))
                     = Some v))
    /\ (forall self', exists st',
          run self' c input session = Some (st', e) /\ same_schedule st st').
Proof.
  intros D V. destruct (execute_valid self c input session V)
    as (st & e & R & X).
  exists (finish self (nodes c) st), st, e. split; [exact X|].
  destruct (run_invariant _ _ _ _ _ _ R) as [I _]. split.
  - intros pre w post E.
    split; [apply (wo_outcomes _ _ _ _ _ (inv_waves _ _ _ _ I _ _ _ E))|].
    intros n Hn. rewrite finish_results.
    pose proof (inv_stored _ _ _ _ I D _ _ _ E n Hn) as S.
    split; [|split].
    + apply (inv_ran _ _ _ _ I). rewrite E. now apply ran_In_wave.
    + intros msg Hm. rewrite Hm in S. now repeat split.
    + intros v Hv. now rewrite Hv in S.
  - intros self'.
    pose proof (same_schedule_loop self self' (nodes c)
                  (_build_execution_graph (nodes c) (edges c))
                  (List.length (nodes c))
                  (initial_state self c input session)
                  (initial_state self' c input session)
                  (conj eq_refl eq_refl)) as S.
    unfold run in R. rewrite R in S. unfold run.
    destruct (wave_loop _ self' _ _ _) as [[st' e']|]; [|contradiction].
    destruct S as [S <-]. now exists st'.
Qed.

Lemma node_failure_is_recorded_witness :
  exists r st e,
    execute_workflow echo_engine kb_workflow "hello" None
    = Some (Returns r, Some (st, e))
    /\ forall self', exists st',
         run self' kb_workflow "hello" None = Some (st', e)
         /\ same_schedule st st'.
Proof.
  assert (D : NoDup (map node_id (nodes kb_workflow))).
  { simpl. repeat constructor; simpl; intuition discriminate. }
  destruct (node_failure_is_recorded echo_engine kb_workflow "hello" None
              D eq_refl) as (r & st & e & X & _ & S).
  exists r, st, e. split; [exact X | exact S].
Defined.

(** C4: for every edge A -> B of a workflow that passes validation (its
    two ends are then declared node ids), a wave that runs B comes after a
    wave that ran a node of id A, and the context B's handler is given
    already holds, under A's id, the value committed for A, the one still
    there at the end of the run: A's result, or its error record. *)
Theorem dependency_runs_first (self : WorkflowEngine) (c : WorkflowConfig)
  (input : string) (session : option string) :
  valid (validate_workflow self c) = true ->
  exists r st e,
    execute_workflow self c input session = Some (Returns r, Some (st, e))
    /\ forall edge, In edge (edges c) ->
       In (edge_source edge) (map node_id (nodes c))
       /\ In (edge_target edge) (map node_id (nodes c))
       /\ forall pre w post b,
            waves st = (pre ++ w :: post)%list ->
            In b (wave_ready w) -> node_id b = edge_target edge ->
            In (handled self w b) (wave_outcomes w)
            /\ (exists w' a, In w' pre /\ In a (wave_ready w')
                             /\ node_id a = edge_source edge)
            /\ (exists v,
                  dict_get (edge_source edge) (results (wave_context w))
                  = Some v
                  /\ dict_get (edge_source edge) (results (result_context r))
                     = Some v
                  /\ (NoDup (map node_id (nodes c)) ->
                      forall w' a, In w' pre -> In a (wave_ready w') ->
                        node_id a = edge_source edge ->
                        v = stored (handled self w' a))).
Proof.
  intros V. destruct (execute_valid self c input session V)
    as (st & e & R & X).
  exists (finish self (nodes c) st), st, e. split; [exact X|].
  destruct (run_invariant _ _ _ _ _ _ R) as [I _].
  apply valid_iff_no_errors, validation_errors_nil in V.
  destruct V as (_ & _ & _ & _ & Hedges).
  intros edge He. destruct (Hedges edge He) as [Hs Ht].
  split; [exact Hs|]. split; [exact Ht|].
  intros pre w post b E Hb Hid.
  pose proof (inv_waves _ _ _ _ I _ _ _ E) as W.
  assert (Hdep : In (edge_source edge) (wave_executed w)).
  { rewrite (wo_ready _ _ _ _ _ W) in Hb. apply ready_nodes_In in Hb.
    destruct Hb as (_ & _ & Hd). apply Hd. rewrite Hid.
    now apply edge_is_dependency. }
  split; [|split].
  - rewrite (wo_outcomes _ _ _ _ _ W). now apply in_map.
  - apply (wo_executed _ _ _ _ _ W) in Hdep. unfold ran in Hdep.
    apply in_flat_map in Hdep. destruct Hdep as [w' [Hw' Ha]].
    apply in_map_iff in Ha. destruct Ha as [a [Hida Ha]].
    now exists w', a.
  - pose proof Hdep as Hk. apply (wo_results _ _ _ _ _ W) in Hk.
    apply dict_get_keys in Hk.
    destruct (dict_get (edge_source edge) (results (wave_context w)))
      as [v|] eqn:G; [|congruence].
    exists v. split; [reflexivity|].
    pose proof (inv_stable _ _ _ _ I _ _ _ E _ _ G) as Hfinal.
    split; [exact Hfinal|].
    intros D w' a Hw' Ha Hida.
    apply in_split in Hw'. destruct Hw' as [p1 [p2 ->]].
    rewrite <- app_assoc in E. simpl in E.
    pose proof (inv_stored _ _ _ _ I D _ _ _ E a Ha) as S.
    rewrite Hida in S. congruence.
Qed.

Lemma dependency_runs_first_witness :
  exists r st e,
    execute_workflow echo_engine kb_workflow "hello" None
    = Some (Returns r, Some (st, e))
    /\ In (Some "l") (map node_id (nodes kb_workflow)).
Proof.
  destruct (dependency_runs_first echo_engine kb_workflow "hello" None
              eq_refl) as (r & st & e & X & H).
  exists r, st, e. split; [exact X|].
  destruct (H (arrow "k" "l")) as (_ & Ht & _); [simpl; tauto | exact Ht].
Defined.

(** * Further properties of the engine *)

(** ** The execution graph, edge by edge *)

Lemma py_in_eq (k : pyval) (l l' : list pyval) :
  (In k l <-> In k l') -> py_in k l = py_in k l'.
Proof.
  intros H. destruct (py_in k l') eqn:E.
  - apply py_in_In, H, py_in_In, E.
  - apply py_in_not_In. intros Hk. apply H, py_in_In in Hk. congruence.
Qed.

Lemma dict_mem_keys {V : Type} (k : pyval) (d d' : dict V) :
  dict_keys d = dict_keys d' -> dict_mem k d = dict_mem k d'.
Proof. unfold dict_mem. now intros ->. Qed.

Lemma dict_mem_get {V : Type} (k : pyval) (d : dict V) :
  dict_mem k d = true -> exists v, dict_get k d = Some v.
Proof.
  intros H. apply py_in_In, dict_get_keys in H.
  destruct (dict_get k d) as [v|]; [now exists v | congruence].
Qed.

Lemma add_edge_dependencies (g : ExecutionGraph) (e : Edge) (k : pyval) :
  dependencies_of (add_edge g e) k
  = (dependencies_of g k
     ++ if dict_mem (edge_source e) g && dict_mem (edge_target e) g
           && pyval_eqb (edge_target e) k
        then [edge_source e] else [])%list.
Proof.
  unfold add_edge.
  destruct (dict_mem (edge_source e) g) eqn:Ms; simpl;
    [|now rewrite app_nil_r].
  destruct (dict_mem (edge_target e) g) eqn:Mt; simpl;
    [|now rewrite app_nil_r].
  rewrite dependencies_add_dependent. unfold dependencies_of.
  rewrite dict_get_update.
  destruct (pyval_eqb_spec (edge_target e) k) as [<-|N].
  - rewrite pyval_eqb_refl. destruct (dict_mem_get _ _ Mt) as [v ->].
    reflexivity.
  - destruct (pyval_eqb_spec k (edge_target e)) as [->|_]; [congruence|].
    now rewrite app_nil_r.
Qed.

Lemma dependents_add_dependency (g : ExecutionGraph) (k k' s : pyval) :
  dependents_of (dict_update k' (add_dependency s) g) k = dependents_of g k.
Proof.
  unfold dependents_of. rewrite dict_get_update.
  destruct (pyval_eqb k k'); [|reflexivity].
  now destruct (dict_get k g).
Qed.

Lemma add_edge_dependents (g : ExecutionGraph) (e : Edge) (k : pyval) :
  dependents_of (add_edge g e) k
  = (dependents_of g k
     ++ if dict_mem (edge_source e) g && dict_mem (edge_target e) g
           && pyval_eqb (edge_source e) k
        then [edge_target e] else [])%list.
Proof.
  unfold add_edge.
  destruct (dict_mem (edge_source e) g) eqn:Ms; simpl;
    [|now rewrite app_nil_r].
  destruct (dict_mem (edge_target e) g) eqn:Mt; simpl;
    [|now rewrite app_nil_r].
  unfold dependents_of at 1. rewrite dict_get_update.
  destruct (pyval_eqb_spec (edge_source e) k) as [<-|N].
  - rewrite pyval_eqb_refl.
    assert (Ms' : dict_mem (edge_source e)
                    (dict_update (edge_target e)
                       (add_dependency (edge_source e)) g) = true).
    { rewrite <- Ms. apply dict_mem_keys, dict_keys_update. }
    destruct (dict_mem_get _ _ Ms') as [v Hv]. rewrite Hv. simpl.
    f_equal. change (dependents v)
      with (match Some v with Some x => dependents x | None => [] end).
    rewrite <- Hv. apply dependents_add_dependency.
  - destruct (pyval_eqb_spec k (edge_source e)) as [->|_]; [congruence|].
    rewrite app_nil_r. apply dependents_add_dependency.
Qed.

Lemma add_edges_dependencies (ns : list Node) (es : list Edge)
  (g : ExecutionGraph) (k : pyval) :
  (forall x, dict_mem x g = py_in x (map node_id ns)) ->
  dependencies_of (fold_left add_edge es g) k
  = (dependencies_of g k ++ sources_into ns es k)%list.
Proof.
  intros Hg. revert g Hg. unfold sources_into.
  induction es as [|e es IH]; intros g Hg; simpl; [now rewrite app_nil_r|].
  rewrite IH.
  - rewrite add_edge_dependencies, <- app_assoc. f_equal.
    unfold edge_declared. rewrite !Hg.
    now destruct (py_in (edge_source e) (map node_id ns)
                  && py_in (edge_target e) (map node_id ns)
                  && pyval_eqb (edge_target e) k).
  - intros x. rewrite <- Hg. apply dict_mem_keys, add_edge_keys.
Qed.

Lemma add_edges_dependents (ns : list Node) (es : list Edge)
  (g : ExecutionGraph) (k : pyval) :
  (forall x, dict_mem x g = py_in x (map node_id ns)) ->
  dependents_of (fold_left add_edge es g) k
  = (dependents_of g k ++ targets_from ns es k)%list.
Proof.
  intros Hg. revert g Hg. unfold targets_from.
  induction es as [|e es IH]; intros g Hg; simpl; [now rewrite app_nil_r|].
  rewrite IH.
  - rewrite add_edge_dependents, <- app_assoc. f_equal.
    unfold edge_declared. rewrite !Hg.
    now destruct (py_in (edge_source e) (map node_id ns)
                  && py_in (edge_target e) (map node_id ns)
                  && pyval_eqb (edge_source e) k).
  - intros x. rewrite <- Hg. apply dict_mem_keys, add_edge_keys.
Qed.

(** The graph before the edges: every entry has empty lists. *)
Lemma graph_nodes_empty (ns : list Node) (g : ExecutionGraph) (k : pyval)
  (entry : GraphEntry) :
  (forall x en, dict_get x g = Some en ->
                dependencies en = [] /\ dependents en = []) ->
  dict_get k
    (fold_left (fun g node => dict_set (node_id node) (mkEntry node [] []) g)
       ns g) = Some entry ->
  dependencies entry = [] /\ dependents entry = [].
Proof.
  revert g. induction ns as [|n ns IH]; intros g Hg; simpl; [apply Hg|].
  apply IH. intros x en. rewrite dict_get_set.
  destruct (pyval_eqb x (node_id n)); [|apply Hg].
  intros [= <-]. now split.
Qed.

Lemma graph_nodes_mem (ns : list Node) (x : pyval) :
  dict_mem x
    (fold_left (fun g node => dict_set (node_id node) (mkEntry node [] []) g)
       ns []) = py_in x (map node_id ns).
Proof.
  unfold dict_mem. apply py_in_eq. rewrite graph_nodes_keys. simpl. tauto.
Qed.

Lemma sources_into_In (ns : list Node) (es : list Edge) (a b : pyval) :
  In a (sources_into ns es b) <->
  exists e, In e es /\ edge_declared ns e = true
            /\ edge_source e = a /\ edge_target e = b.
Proof.
  unfold sources_into. rewrite in_map_iff. split.
  - intros [e [Ha He]]. apply filter_In in He. destruct He as [He Hd].
    apply andb_true_iff in Hd. destruct Hd as [Hd Ht].
    apply pyval_eqb_eq in Ht. now exists e.
  - intros [e (He & Hd & Ha & Hb)]. exists e. split; [assumption|].
    apply filter_In. split; [assumption|].
    now rewrite Hd, Hb, pyval_eqb_refl.
Qed.

Lemma targets_from_In (ns : list Node) (es : list Edge) (a b : pyval) :
  In b (targets_from ns es a) <->
  exists e, In e es /\ edge_declared ns e = true
            /\ edge_source e = a /\ edge_target e = b.
Proof.
  unfold targets_from. rewrite in_map_iff. split.
  - intros [e [Hb He]]. apply filter_In in He. destruct He as [He Hd].
    apply andb_true_iff in Hd. destruct Hd as [Hd Hs].
    apply pyval_eqb_eq in Hs. now exists e.
  - intros [e (He & Hd & Ha & Hb)]. exists e. split; [assumption|].
    apply filter_In. split; [assumption|].
    now rewrite Hd, Ha, pyval_eqb_refl.
Qed.

Lemma graph_dependencies (ns : list Node) (es : list Edge) (k : pyval) :
  dependencies_of (_build_execution_graph ns es) k = sources_into ns es k.
Proof.
  unfold _build_execution_graph.
  rewrite (add_edges_dependencies ns) by apply graph_nodes_mem.
  unfold dependencies_of at 1.
  destruct (dict_get k _) as [en|] eqn:G; [|reflexivity].
  apply graph_nodes_empty in G; [|discriminate]. destruct G as [-> _].
  reflexivity.
Qed.

Lemma graph_dependents (ns : list Node) (es : list Edge) (k : pyval) :
  dependents_of (_build_execution_graph ns es) k = targets_from ns es k.
Proof.
  unfold _build_execution_graph.
  rewrite (add_edges_dependents ns) by apply graph_nodes_mem.
  unfold dependents_of at 1.
  destruct (dict_get k _) as [en|] eqn:G; [|reflexivity].
  apply graph_nodes_empty in G; [|discriminate]. destruct G as [_ ->].
  reflexivity.
Qed.

(** X1: the execution graph holds exactly the edges whose two ends are
    declared node ids. The dependencies of an id are the sources of those
    edges into it and its dependents are the targets of those edges out of
    it, in the order of the edge list and with repetitions kept; an edge with
    an undeclared end leaves no trace; the two lists mirror each other. *)
Theorem execution_graph_edges (ns : list Node) (es : list Edge) (k : pyval) :
  dependencies_of (_build_execution_graph ns es) k = sources_into ns es k
  /\ dependents_of (_build_execution_graph ns es) k = targets_from ns es k
  /\ (In k (dict_keys (_build_execution_graph ns es))
      <-> In k (map node_id ns))
  /\ (forall a, In a (dependencies_of (_build_execution_graph ns es) k)
                <-> In k (dependents_of (_build_execution_graph ns es) a)).
Proof.
  split; [apply graph_dependencies|]. split; [apply graph_dependents|]. split.
  - unfold _build_execution_graph. rewrite add_edges_keys, graph_nodes_keys.
    simpl. tauto.
  - intros a. rewrite graph_dependencies, graph_dependents.
    rewrite sources_into_In, targets_from_In. reflexivity.
Qed.

(** ** Dispatch *)

Lemma not_valid_type (v : pyval) :
  ~ In v valid_types ->
  pyval_eqb v (Some USER_QUERY) = false
  /\ pyval_eqb v (Some KNOWLEDGE_BASE) = false
  /\ pyval_eqb v (Some LLM_ENGINE) = false
  /\ pyval_eqb v (Some WEB_SEARCH) = false
  /\ pyval_eqb v (Some OUTPUT) = false.
Proof.
  intros H. repeat split; apply pyval_eqb_neq; intros ->; apply H; simpl; tauto.
Qed.

Lemma invalid_type_reported (c : WorkflowConfig) (n : Node) :
  In n (nodes c) -> ~ In (effective_type n) valid_types ->
  In (invalid_node_type (effective_type n)) (validation_errors c).
Proof.
  intros Hn Hbad. unfold validation_errors.
  apply in_or_app; right. apply in_or_app; left.
  unfold node_type_errors. apply in_flat_map. exists n. split; [assumption|].
  apply py_in_not_In in Hbad. rewrite Hbad. now left.
Qed.

(** X2: a node that dispatch would reject as of unknown type (its
    effective type is none of the five kinds) always makes validation fail
    with an error naming that type, so [execute_workflow] raises before any
    dispatch: the unknown-type failure of [_execute_node], which calls no
    collaborator, cannot occur in a run. *)
Theorem unknown_type_never_dispatched (self : WorkflowEngine)
  (c : WorkflowConfig) (input : string) (session : option string) (n : Node) :
  In n (nodes c) -> ~ In (effective_type n) valid_types ->
  (forall context,
     _execute_node self n context
     = (Raise (unknown_node_type (effective_type n)), []))
  /\ In (invalid_node_type (effective_type n))
        (errors (validate_workflow self c))
  /\ contains (py_str (effective_type n))
       (invalid_node_type (effective_type n)) = true
  /\ execute_workflow self c input session
     = Some (Raises (InvalidWorkflow (errors (validate_workflow self c))),
             None).
Proof.
  intros Hn Hbad.
  pose proof (invalid_type_reported c n Hn Hbad) as Herr.
  split; [|split; [exact Herr | split; [apply contains_suffix|]]].
  - intros context. unfold _execute_node.
    destruct (not_valid_type _ Hbad) as (-> & -> & -> & -> & ->).
    reflexivity.
  - unfold execute_workflow.
    destruct (valid (validate_workflow self c)) eqn:V; [|reflexivity].
    apply valid_iff_no_errors in V. rewrite V in Herr. destruct Herr.
Qed.

Lemma unknown_type_never_dispatched_witness :
  In "Invalid node type: None"
     (errors (validate_workflow echo_engine untyped_workflow))
  /\ execute_workflow echo_engine untyped_workflow "hello" None
     = Some (Raises (InvalidWorkflow ["Invalid node type: None"]), None).
Proof.
  destruct (unknown_type_never_dispatched echo_engine untyped_workflow
              "hello" None untyped_node) as (_ & He & _ & Hx).
  - simpl. tauto.
  - simpl. unfold USER_QUERY, KNOWLEDGE_BASE, LLM_ENGINE, OUTPUT, WEB_SEARCH.
    intuition discriminate.
  - split; [exact He | exact Hx].
Defined.

(** X3: what the five handlers return, for a node whose configuration keys
    are absent or hold a value of their type (a key set to null is outside
    the model: there the code applies no default, and a null [model] makes
    the [llm_engine] handler fail before any call). A successful result is
    never error-tagged and its [type] is the node's kind ([llm_response] for
    an [llm_engine] node). Nodes of kind [user_query], [web_search] and
    [output] never fail and call no collaborator. A [knowledge_base] node
    makes exactly one retrieval call, for the user input, with 5 for an
    absent [topK] and [openai] for an absent [embeddingProvider]; an
    [llm_engine] node makes exactly one completion call, with 0.7 for an
    absent temperature and 1000 for an absent [maxTokens]; each fails exactly
    when its call fails, with the call's message. *)
Theorem handler_results_by_kind (self : WorkflowEngine) (n : Node)
  (context : Context) (kind : string) :
  effective_type n = Some kind -> In (Some kind) valid_types ->
  (forall r, fst (_execute_node self n context) = Ok r ->
     result_type r = Some (result_tag kind) /\ has_error_key r = false)
  /\ (kind <> KNOWLEDGE_BASE -> kind <> LLM_ENGINE ->
      exists r, _execute_node self n context = (Ok r, []))
  /\ (kind = KNOWLEDGE_BASE ->
      snd (_execute_node self n context)
      = [RetrievalCall
           (mkRetrieval (user_input context)
              (default 5%Z (cfg_topK (data_config (node_data n))))
              (default "openai"
                 (cfg_embeddingProvider (data_config (node_data n)))))]
      /\ forall msg,
           fst (_execute_node self n context) = Raise msg
           <-> search_by_text self
                 (knowledge_base_request (data_config (node_data n)) context)
               = Raise msg)
  /\ (kind = LLM_ENGINE ->
      snd (_execute_node self n context)
      = [CompletionCall (llm_request (data_config (node_data n)) context)]
      /\ req_temperature (llm_request (data_config (node_data n)) context)
         = default (7 # 10)%Q (cfg_temperature (data_config (node_data n)))
      /\ req_max_tokens (llm_request (data_config (node_data n)) context)
         = default 1000%Z (cfg_maxTokens (data_config (node_data n)))
      /\ forall msg,
           fst (_execute_node self n context) = Raise msg
           <-> generate_completion self
                 (llm_request (data_config (node_data n)) context)
               = Raise msg).
Proof.
  intros E Hk. unfold _execute_node. rewrite E.
  simpl in Hk. destruct Hk as [K|[K|[K|[K|[K|[]]]]]]; injection K as <-; simpl.
  - split; [intros r [= <-]; now split|].
    split; [intros _ _; eexists; reflexivity|].
    split; intros K; discriminate K.
  - unfold _execute_knowledge_base, knowledge_base_request.
    destruct (search_by_text self _) as [sr|m]; simpl.
    + split; [intros r [= <-]; now split|].
      split; [intros N; now contradiction N|].
      split; [|intros K; discriminate K].
      intros _. split; [reflexivity|]. intros msg; split; intros Hm; discriminate Hm.
    + split; [intros r Hr; discriminate Hr|].
      split; [intros N; now contradiction N|].
      split; [|intros K; discriminate K].
      intros _. split; [reflexivity|]. intros msg; split; intros [= <-]; reflexivity.
  - unfold _execute_llm_engine.
    destruct (generate_completion self _) as [t|m]; simpl.
    + split; [intros r [= <-]; now split|].
      split; [intros _ N; now contradiction N|].
      split; [intros K; discriminate K|].
      intros _. repeat (split; [reflexivity|]). intros msg; split; intros Hm; discriminate Hm.
    + split; [intros r Hr; discriminate Hr|].
      split; [intros _ N; now contradiction N|].
      split; [intros K; discriminate K|].
      intros _. repeat (split; [reflexivity|]). intros msg; split; intros [= <-]; reflexivity.
  - split; [intros r [= <-]; now split|].
    split; [intros _ _; eexists; reflexivity|].
    split; intros K; discriminate K.
  - split; [intros r [= <-]; now split|].
    split; [intros _ _; eexists; reflexivity|].
    split; intros K; discriminate K.
Qed.

Lemma handler_results_by_kind_witness :
  snd (_execute_node echo_engine (plain_node "k" KNOWLEDGE_BASE) sample_context)
  = [RetrievalCall (mkRetrieval "hello" 5%Z "openai")]
  /\ fst (_execute_node echo_engine (plain_node "k" KNOWLEDGE_BASE)
            sample_context) = Raise "retrieval unavailable".
Proof.
  destruct (handler_results_by_kind echo_engine
              (plain_node "k" KNOWLEDGE_BASE) sample_context KNOWLEDGE_BASE)
    as (_ & _ & Hk & _).
  - reflexivity.
  - simpl. tauto.
  - destruct (Hk eq_refl) as [Hc Hf]. split; [exact Hc|].
    apply Hf. reflexivity.
Defined.

(** ** Templates *)

Lemma replace_absent (old new s : string) :
  contains old s = false -> replace old new s = s.
Proof.
  unfold replace. induction s as [|c s IH]; [reflexivity|].
  cbn [contains replace_from]. intros H.
  apply orb_false_iff in H. destruct H as [-> H].
  now rewrite IH.
Qed.

(** X4: a non-empty prompt template that holds no [{query}] placeholder
    replaces the prompt altogether: the completion call of the node gets
    the template as it is, whatever the user input and whatever documents a
    knowledge base returned. *)
Theorem template_without_placeholder (self : WorkflowEngine) (n : Node)
  (context : Context) (template : string) :
  effective_type n = Some LLM_ENGINE ->
  cfg_prompt (data_config (node_data n)) = Some template ->
  template <> EmptyString ->
  contains "{query}" template = false ->
  exists req,
    snd (_execute_node self n context) = [CompletionCall req]
    /\ req_prompt req = template.
Proof.
  intros E Ht Hne Hc.
  exists (llm_request (data_config (node_data n)) context).
  rewrite (dispatch_llm_engine _ _ _ E). unfold _execute_llm_engine.
  split; [now destruct (generate_completion self _)|].
  simpl. unfold llm_prompt, with_template. rewrite Ht. simpl.
  destruct template as [|a t]; [congruence|]. simpl.
  now apply replace_absent.
Qed.

Lemma template_without_placeholder_witness :
  exists req,
    snd (_execute_node echo_engine
           (llm_node "l" (mkConfig None (Some "Say hi") None None None None
                            None None))
           sample_context) = [CompletionCall req]
    /\ req_prompt req = "Say hi".
Proof.
  apply (template_without_placeholder echo_engine
           (llm_node "l" (mkConfig None (Some "Say hi") None None None None
                            None None))
           sample_context "Say hi");
    [reflexivity | reflexivity | discriminate | reflexivity].
Defined.

(** ** The record of a run, wave after wave *)

Lemma dict_keys_set_add {V : Type} (k : pyval) (v : V) (d : dict V) :
  dict_keys (dict_set k v d) = set_add k (dict_keys d).
Proof.
  unfold set_add, dict_keys. induction d as [|[k0 v0] d IH]; simpl.
  - reflexivity.
  - destruct (pyval_eqb k k0) eqn:E; simpl.
    + apply pyval_eqb_eq in E. now subst.
    + rewrite IH. unfold py_in. now destruct (existsb (pyval_eqb k) (map fst d)).
Qed.

Lemma dict_set_fresh {V : Type} (k : pyval) (v : V) (d : dict V) :
  ~ In k (dict_keys d) -> dict_set k v d = (d ++ [(k, v)])%list.
Proof.
  unfold dict_keys. induction d as [|[k0 v0] d IH]; simpl; intros H.
  - reflexivity.
  - destruct (pyval_eqb_spec k k0) as [->|N]; [tauto|].
    rewrite IH by tauto. reflexivity.
Qed.

Lemma committed_keys_eq (f : Node -> outcome NodeResult) (ready : list Node)
  (acc : Results * list pyval) :
  dict_keys (fst acc) = snd acc ->
  dict_keys (fst (committed f ready acc)) = snd (committed f ready acc).
Proof.
  unfold committed. revert acc.
  induction ready as [|a ready IH]; intros acc H; simpl; [assumption|].
  apply IH. simpl. now rewrite dict_keys_set_add, H.
Qed.

Lemma committed_fresh (f : Node -> outcome NodeResult) (ready : list Node)
  (acc : Results * list pyval) :
  NoDup (map node_id ready) ->
  (forall n, In n ready -> ~ In (node_id n) (dict_keys (fst acc))) ->
  fst (committed f ready acc)
  = (fst acc ++ map (fun n => (node_id n, stored (f n))) ready)%list.
Proof.
  unfold committed. revert acc.
  induction ready as [|a ready IH]; intros acc D F; simpl;
    [now rewrite app_nil_r|].
  simpl in D. apply NoDup_cons_iff in D. destruct D as [Da D].
  rewrite IH; simpl.
  - rewrite dict_set_fresh by (apply F; now left).
    now rewrite <- app_assoc.
  - assumption.
  - intros n Hn. rewrite dict_keys_set_add, set_add_In.
    intros [E|H]; [|now apply (F n (or_intror Hn))].
    apply Da. rewrite <- E. now apply in_map.
Qed.

Lemma run_wave_calls (self : WorkflowEngine) (ready : list Node)
  (st : RunState) :
  calls (run_wave self ready st)
  = (calls st
     ++ flat_map (fun n => snd (_execute_node self n (context st))) ready)%list.
Proof.
  unfold run_wave. simpl. f_equal.
  rewrite map_map. symmetry. apply flat_map_concat_map.
Qed.

Lemma run_wave_input (self : WorkflowEngine) (ready : list Node)
  (st : RunState) :
  user_input (context (run_wave self ready st)) = user_input (context st).
Proof. reflexivity. Qed.

Section Record.
Variable self : WorkflowEngine.
Variable ns : list Node.
Variable graph : ExecutionGraph.
Variable input : string.

Lemma record_step (st st' : RunState) :
  record_invariant self ns input st ->
  loop_iteration self ns graph st = Continue st' ->
  record_invariant self ns input st'.
Proof.
  intros I H. apply loop_iteration_continue in H. destruct H as (_ & _ & ->).
  set (ready := ready_nodes ns graph (executed_nodes st)).
  constructor.
  - rewrite run_wave_results, run_wave_executed.
    apply committed_keys_eq. simpl. apply (rec_keys _ _ _ _ I).
  - rewrite run_wave_input. apply (rec_input _ _ _ _ I).
  - intros w. rewrite run_wave_waves, in_app_iff. intros [Hw|[<-|[]]].
    + now apply (rec_wave_input _ _ _ _ I).
    + simpl. apply (rec_input _ _ _ _ I).
  - rewrite run_wave_calls, run_wave_waves, flat_map_app.
    rewrite (rec_calls _ _ _ _ I). simpl. now rewrite app_nil_r.
  - intros D. rewrite run_wave_results, run_wave_waves, flat_map_app.
    rewrite committed_fresh; simpl.
    + rewrite (rec_entries _ _ _ _ I D). unfold wave_entries at 3. simpl.
      now rewrite app_nil_r.
    + now apply NoDup_map_filter.
    + intros n Hn. rewrite (rec_keys _ _ _ _ I).
      apply ready_nodes_In in Hn. tauto.
Qed.

Lemma record_loop (fuel : nat) (st st' : RunState) (e : LoopExit) :
  record_invariant self ns input st ->
  wave_loop fuel self ns graph st = Some (st', e) ->
  record_invariant self ns input st'.
Proof.
  revert st. induction fuel as [|fuel IH]; intros st I; simpl;
    destruct (loop_iteration self ns graph st) as [st1|e1] eqn:E.
  - discriminate.
  - now intros [= <- <-].
  - intros H. apply (IH st1); [|assumption]. now apply (record_step st).
  - now intros [= <- <-].
Qed.
End Record.

Lemma record_initial (self : WorkflowEngine) (c : WorkflowConfig)
  (input : string) (session : option string) :
  record_invariant self (nodes c) input (initial_state self c input session).
Proof. constructor; simpl; try reflexivity. intros w []. Qed.

Lemma run_record (self : WorkflowEngine) (c : WorkflowConfig)
  (input : string) (session : option string) (st : RunState) (e : LoopExit) :
  run self c input session = Some (st, e) ->
  record_invariant self (nodes c) input st.
Proof.
  unfold run. intros H. eapply record_loop; [|exact H]. apply record_initial.
Qed.

Lemma handler_never_error_tagged (self : WorkflowEngine) (n : Node)
  (context : Context) (r : NodeResult) :
  fst (_execute_node self n context) = Ok r -> has_error_key r = false.
Proof.
  unfold _execute_node.
  destruct (pyval_eqb _ (Some USER_QUERY)); [now intros [= <-]|].
  destruct (pyval_eqb _ (Some KNOWLEDGE_BASE)).
  { unfold _execute_knowledge_base.
    destruct (search_by_text self _); simpl; [now intros [= <-] | discriminate]. }
  destruct (pyval_eqb _ (Some LLM_ENGINE)).
  { unfold _execute_llm_engine.
    destruct (generate_completion self _); simpl;
      [now intros [= <-] | discriminate]. }
  destruct (pyval_eqb _ (Some WEB_SEARCH)); [now intros [= <-]|].
  destruct (pyval_eqb _ (Some OUTPUT)); [now intros [= <-] | discriminate].
Qed.

Lemma stored_error_tagged (self : WorkflowEngine) (w : Wave) (n : Node) :
  has_error_key (stored (handled self w n)) = is_raise (handled self w n).
Proof.
  unfold handled. destruct (fst (_execute_node self n (wave_context w))) eqn:E;
    simpl; [|reflexivity].
  now apply handler_never_error_tagged in E.
Qed.

Lemma node_calls_length (self : WorkflowEngine) (n : Node) (context : Context) :
  List.length (snd (_execute_node self n context))
  = if calls_collaborator n then 1 else 0.
Proof.
  unfold _execute_node, calls_collaborator.
  destruct (pyval_eqb_spec (effective_type n) (Some USER_QUERY)) as [E|_].
  { rewrite E. reflexivity. }
  destruct (pyval_eqb (effective_type n) (Some KNOWLEDGE_BASE)).
  { unfold _execute_knowledge_base. now destruct (search_by_text self _). }
  destruct (pyval_eqb (effective_type n) (Some LLM_ENGINE)).
  { unfold _execute_llm_engine. now destruct (generate_completion self _). }
  destruct (pyval_eqb _ (Some WEB_SEARCH)); [reflexivity|].
  now destruct (pyval_eqb _ (Some OUTPUT)).
Qed.

Lemma node_retrieval_query (self : WorkflowEngine) (n : Node)
  (context : Context) (req : RetrievalRequest) :
  In (RetrievalCall req) (snd (_execute_node self n context)) ->
  req_query_text req = user_input context
  /\ effective_type n = Some KNOWLEDGE_BASE.
Proof.
  unfold _execute_node.
  destruct (pyval_eqb _ (Some USER_QUERY)); [intros []|].
  destruct (pyval_eqb_spec (effective_type n) (Some KNOWLEDGE_BASE)) as [E|_].
  { unfold _execute_knowledge_base.
    destruct (search_by_text self _); simpl; intros [[= <-]|[]]; now split. }
  destruct (pyval_eqb _ (Some LLM_ENGINE)).
  { unfold _execute_llm_engine.
    destruct (generate_completion self _); simpl; intros [H|[]]; discriminate. }
  destruct (pyval_eqb _ (Some WEB_SEARCH)); [intros []|].
  destruct (pyval_eqb _ (Some OUTPUT)); intros [].
Qed.

Lemma flat_map_count {A B : Type} (g : A -> list B) (p : A -> bool)
  (l : list A) :
  (forall x, In x l -> List.length (g x) = if p x then 1 else 0) ->
  List.length (flat_map g l) = List.length (filter p l).
Proof.
  induction l as [|a l IH]; intros H; simpl; [reflexivity|].
  rewrite length_app, IH by (intros x Hx; apply H; now right).
  rewrite (H a (or_introl eq_refl)). now destruct (p a).
Qed.

Lemma flat_map_same {A B : Type} (g h : A -> list B) (l : list A) :
  (forall x, In x l -> g x = h x) -> flat_map g l = flat_map h l.
Proof.
  induction l as [|a l IH]; intros H; simpl; [reflexivity|].
  rewrite (H a (or_introl eq_refl)), IH; [reflexivity|].
  intros x Hx. apply H. now right.
Qed.

Lemma entries_keys (self : WorkflowEngine) (ws : list Wave) :
  dict_keys (flat_map (wave_entries self) ws) = ran ws.
Proof.
  unfold dict_keys, ran. induction ws as [|w ws IH]; simpl; [reflexivity|].
  rewrite map_app, IH. f_equal. unfold wave_entries. now rewrite map_map.
Qed.

Lemma entries_errors (self : WorkflowEngine) (ws : list Wave) :
  (forall w, In w ws -> wave_outcomes w = map (handled self w) (wave_ready w)) ->
  filter has_error_key (dict_values (flat_map (wave_entries self) ws))
  = map stored (filter is_raise (flat_map wave_outcomes ws)).
Proof.
  unfold dict_values. induction ws as [|w ws IH]; intros H; simpl;
    [reflexivity|].
  rewrite map_app, !filter_app, map_app, IH
    by (intros x Hx; apply H; now right).
  f_equal. rewrite (H w (or_introl eq_refl)). unfold wave_entries.
  induction (wave_ready w) as [|n l IHl]; simpl; [reflexivity|].
  rewrite stored_error_tagged.
  destruct (is_raise (handled self w n)); simpl; now rewrite IHl.
Qed.

Lemma waves_ok (self : WorkflowEngine) (ns : list Node)
  (graph : ExecutionGraph) (st : RunState) (w : Wave) :
  loop_invariant self ns graph st -> In w (waves st) ->
  exists pre post, waves st = (pre ++ w :: post)%list
                   /\ wave_ok self ns graph pre w.
Proof.
  intros I Hw. apply in_split in Hw. destruct Hw as [pre [post E]].
  exists pre, post. split; [exact E|].
  exact (inv_waves _ _ _ _ I _ _ _ E).
Qed.

(** ** Results, summary and calls of a run *)

(** X5: the keys of [context.results] are the executed set, in the order in
    which the ids were executed. With distinct node ids, [results] is, wave
    after wave and in the order of each wave's ready list, one entry per node
    run: the node's id with its handler's result, or with the error record of
    its failure. *)
Theorem results_in_execution_order (self : WorkflowEngine)
  (c : WorkflowConfig) (input : string) (session : option string) :
  valid (validate_workflow self c) = true ->
  exists r st e,
    execute_workflow self c input session = Some (Returns r, Some (st, e))
    /\ dict_keys (results (result_context r)) = executed_nodes st
    /\ (NoDup (map node_id (nodes c)) ->
        results (result_context r) = flat_map (wave_entries self) (waves st)
        /\ executed_nodes st = ran (waves st)
        /\ NoDup (ran (waves st))).
Proof.
  intros V. destruct (execute_valid self c input session V)
    as (st & e & R & X).
  exists (finish self (nodes c) st), st, e. split; [exact X|].
  pose proof (run_record _ _ _ _ _ _ R) as Rec.
  destruct (run_invariant _ _ _ _ _ _ R) as [I _].
  rewrite finish_results. split; [apply (rec_keys _ _ _ _ Rec)|].
  intros D. pose proof (rec_entries _ _ _ _ Rec D) as En.
  split; [exact En|].
  assert (Ex : executed_nodes st = ran (waves st)).
  { rewrite <- (rec_keys _ _ _ _ Rec), En. apply entries_keys. }
  split; [exact Ex|]. rewrite <- Ex. apply (inv_nodup _ _ _ _ I).
Qed.

Lemma results_in_execution_order_witness :
  exists r st e,
    execute_workflow echo_engine kb_workflow "hello" None
    = Some (Returns r, Some (st, e))
    /\ dict_keys (results (result_context r)) = executed_nodes st
    /\ executed_nodes st = ran (waves st).
Proof.
  destruct (results_in_execution_order echo_engine kb_workflow "hello" None
              eq_refl) as (r & st & e & X & K & H).
  exists r, st, e. split; [exact X|]. split; [exact K|].
  apply H. simpl. repeat constructor; simpl; intuition discriminate.
Defined.

(** X6: in the summary of a run, errors <= executed_nodes <= total_nodes.
    With distinct node ids, the error count is the number of handlers that
    failed in the run: a failure is always counted, and a result that a
    handler returned is never counted as an error. *)
Theorem summary_counts (self : WorkflowEngine) (c : WorkflowConfig)
  (input : string) (session : option string) :
  valid (validate_workflow self c) = true ->
  exists r st e,
    execute_workflow self c input session = Some (Returns r, Some (st, e))
    /\ summary_errors (execution_summary r)
       <= summary_executed_nodes (execution_summary r)
    /\ summary_executed_nodes (execution_summary r)
       <= summary_total_nodes (execution_summary r)
    /\ (NoDup (map node_id (nodes c)) ->
        summary_errors (execution_summary r) = failures st
        /\ summary_executed_nodes (execution_summary r)
           = List.length (flat_map wave_ready (waves st))).
Proof.
  intros V. destruct (execute_valid self c input session V)
    as (st & e & R & X).
  exists (finish self (nodes c) st), st, e. split; [exact X|].
  pose proof (run_record _ _ _ _ _ _ R) as Rec.
  destruct (run_invariant _ _ _ _ _ _ R) as [I _]. simpl.
  split; [|split].
  - rewrite <- (rec_keys _ _ _ _ Rec). unfold dict_keys, dict_values.
    rewrite length_map.
    etransitivity; [apply filter_length_le | now rewrite length_map].
  - apply (executed_bound _ _ _ _ I).
  - intros D. split.
    + rewrite (rec_entries _ _ _ _ Rec D), entries_errors.
      * unfold failures. now rewrite length_map.
      * intros w Hw. destruct (waves_ok _ _ _ _ w I Hw) as (pre & post & _ & W).
        apply (wo_outcomes _ _ _ _ _ W).
    + rewrite <- (rec_keys _ _ _ _ Rec), (rec_entries _ _ _ _ Rec D).
      rewrite entries_keys. unfold ran.
      induction (waves st) as [|w ws IH]; simpl; [reflexivity|].
      now rewrite !length_app, IH, length_map.
Qed.

Lemma summary_counts_witness :
  exists r st e,
    execute_workflow echo_engine kb_workflow "hello" None
    = Some (Returns r, Some (st, e))
    /\ summary_errors (execution_summary r) = failures st.
Proof.
  destruct (summary_counts echo_engine kb_workflow "hello" None eq_refl)
    as (r & st & e & X & _ & _ & H).
  exists r, st, e. split; [exact X|].
  apply H. simpl. repeat constructor; simpl; intuition discriminate.
Defined.

(** X7: for a workflow whose configuration keys are absent or hold a value
    of their type (no key set to null, see X3), the collaborator calls of a
    run are those of the handlers it ran, wave after wave: one call per node
    run whose effective type is [knowledge_base] or [llm_engine], none for
    any other node. Every retrieval call is made by a [knowledge_base] node
    and queries the user input of the run as given, never another node's
    result. *)
Theorem run_collaborator_calls (self : WorkflowEngine) (c : WorkflowConfig)
  (input : string) (session : option string) :
  valid (validate_workflow self c) = true ->
  exists r st e,
    execute_workflow self c input session = Some (Returns r, Some (st, e))
    /\ calls st = flat_map (wave_calls self) (waves st)
    /\ List.length (calls st)
       = List.length (filter calls_collaborator
                        (flat_map wave_ready (waves st)))
    /\ (forall req, In (RetrievalCall req) (calls st) ->
          req_query_text req = input)
    /\ ((forall n, In n (nodes c) -> calls_collaborator n = false) ->
        calls st = []).
Proof.
  intros V. destruct (execute_valid self c input session V)
    as (st & e & R & X).
  exists (finish self (nodes c) st), st, e. split; [exact X|].
  pose proof (run_record _ _ _ _ _ _ R) as Rec.
  destruct (run_invariant _ _ _ _ _ _ R) as [I _].
  pose proof (rec_calls _ _ _ _ Rec) as Hc.
  assert (Len : List.length (calls st)
                = List.length (filter calls_collaborator
                                 (flat_map wave_ready (waves st)))).
  { rewrite Hc. clear. induction (waves st) as [|w ws IH]; simpl;
      [reflexivity|].
    rewrite length_app, filter_app, length_app, IH. f_equal.
    unfold wave_calls. apply flat_map_count.
    intros n _. apply node_calls_length. }
  split; [exact Hc|]. split; [exact Len|]. split.
  - intros req Hr. rewrite Hc in Hr. apply in_flat_map in Hr.
    destruct Hr as [w [Hw Hr]]. unfold wave_calls in Hr.
    apply in_flat_map in Hr. destruct Hr as [n [_ Hr]].
    apply node_retrieval_query in Hr. destruct Hr as [-> _].
    now apply (rec_wave_input _ _ _ _ Rec).
  - intros Hn. apply length_zero_iff_nil. rewrite Len.
    apply length_zero_iff_nil.
    destruct (filter calls_collaborator (flat_map wave_ready (waves st)))
      as [|n l] eqn:F; [reflexivity|].
    assert (Hin : In n (filter calls_collaborator
                          (flat_map wave_ready (waves st))))
      by (rewrite F; now left).
    apply filter_In in Hin. destruct Hin as [Hin Ht].
    apply in_flat_map in Hin. destruct Hin as [w [Hw Hin]].
    destruct (waves_ok _ _ _ _ w I Hw) as (pre & post & _ & W).
    rewrite (wo_ready _ _ _ _ _ W) in Hin. apply ready_nodes_In in Hin.
    rewrite Hn in Ht by tauto. discriminate.
Qed.

Lemma run_collaborator_calls_witness :
  exists r st e,
    execute_workflow echo_engine kb_workflow "hello" None
    = Some (Returns r, Some (st, e))
    /\ List.length (calls st) = 2.
Proof.
  destruct (run_collaborator_calls echo_engine kb_workflow "hello" None
              eq_refl) as (r & st & e & X & _ & L & _).
  exists r, st, e. split; [exact X|]. rewrite L.
  vm_compute in X. injection X as _ <- _. reflexivity.
Defined.

(** ** The output list *)

Lemma final_output_spec (ns : list Node) (rs : Results) :
  Forall2 (fun n v => dict_get (node_id n) rs = Some v)
    (filter (fun n => has_kind OUTPUT n && py_in (node_id n) (dict_keys rs)) ns)
    (final_output ns rs).
Proof.
  unfold final_output. induction ns as [|a ns IH]; simpl; [constructor|].
  destruct (has_kind OUTPUT a); simpl; [|exact IH].
  destruct (dict_get (node_id a) rs) as [v|] eqn:G.
  - rewrite (proj2 (py_in_In _ _) (dict_get_some_keys _ _ _ G)). simpl.
    now constructor.
  - assert (N : py_in (node_id a) (dict_keys rs) = false).
    { apply py_in_not_In. rewrite dict_get_keys. congruence. }
    rewrite N. exact IH.
Qed.

Lemma all_executed (self : WorkflowEngine) (ns : list Node)
  (graph : ExecutionGraph) (st : RunState) :
  loop_invariant self ns graph st ->
  loop_iteration self ns graph st = Exit AllExecuted ->
  forall n, In n ns -> In (node_id n) (executed_nodes st).
Proof.
  intros I X n Hn. apply loop_iteration_exit in X.
  apply (NoDup_length_incl (inv_nodup _ _ _ _ I)
           (l' := map node_id ns)).
  - now rewrite length_map.
  - apply (inv_declared _ _ _ _ I).
  - now apply in_map.
Qed.

(** X8: [output] holds, in node-declaration order, the stored value of every
    executed node that counts as an output node, and nothing else. When the
    loop ends with its condition false, every declared node has been
    executed, [output] has one element per node that counts as an output
    node, and it is not empty. *)
Theorem output_in_declaration_order (self : WorkflowEngine)
  (c : WorkflowConfig) (input : string) (session : option string) :
  valid (validate_workflow self c) = true ->
  exists r st e,
    execute_workflow self c input session = Some (Returns r, Some (st, e))
    /\ Forall2
         (fun n v => dict_get (node_id n) (results (result_context r)) = Some v)
         (filter (fun n => has_kind OUTPUT n
                           && py_in (node_id n) (executed_nodes st)) (nodes c))
         (output r)
    /\ (e = AllExecuted ->
        (forall n, In n (nodes c) -> In (node_id n) (executed_nodes st))
        /\ List.length (output r)
           = List.length (filter (has_kind OUTPUT) (nodes c))
        /\ output r <> []).
Proof.
  intros V. destruct (execute_valid self c input session V)
    as (st & e & R & X).
  exists (finish self (nodes c) st), st, e. split; [exact X|].
  pose proof (run_record _ _ _ _ _ _ R) as Rec.
  destruct (run_invariant _ _ _ _ _ _ R) as [I Hexit].
  assert (F : Forall2
    (fun n v => dict_get (node_id n) (results (context st)) = Some v)
    (filter (fun n => has_kind OUTPUT n
                      && py_in (node_id n) (executed_nodes st)) (nodes c))
    (final_output (nodes c) (results (context st)))).
  { rewrite <- (rec_keys _ _ _ _ Rec). apply final_output_spec. }
  split; [exact F|]. intros ->.
  pose proof (all_executed _ _ _ _ I Hexit) as All.
  split; [exact All|].
  assert (L : List.length (output (finish self (nodes c) st))
              = List.length (filter (has_kind OUTPUT) (nodes c))).
  { apply Forall2_length in F. simpl. rewrite <- F. f_equal.
    apply filter_ext_in. intros n Hn.
    rewrite (proj2 (py_in_In _ _) (All n Hn)). apply andb_true_r. }
  split; [exact L|].
  apply valid_iff_no_errors, validation_errors_nil in V.
  destruct V as (_ & _ & _ & Ho & _).
  apply existsb_exists in Ho. destruct Ho as [n [Hn Hk]].
  intros E. rewrite E in L. simpl in L.
  assert (Hin : In n (filter (has_kind OUTPUT) (nodes c)))
    by (apply filter_In; now split).
  destruct (filter (has_kind OUTPUT) (nodes c)); [destruct Hin | discriminate].
Qed.

Lemma output_in_declaration_order_witness :
  exists r st e,
    execute_workflow echo_engine kb_workflow "hello" None
    = Some (Returns r, Some (st, e))
    /\ List.length (output r) = 1.
Proof.
  destruct (output_in_declaration_order echo_engine kb_workflow "hello" None
              eq_refl) as (r & st & e & X & _ & H).
  exists r, st, e. split; [exact X|].
  assert (He : e = AllExecuted).
  { vm_compute in X. now injection X as _ _ <-. }
  destruct (H He) as (_ & L & _). exact L.
Defined.

(** ** What a wave's handlers see *)

(** X9: the handlers of a wave are all given the same context, whose
    results are exactly those of the nodes run by earlier waves: it holds no
    result of a node of the same wave, nor of a later wave. *)
Theorem wave_context_isolation (self : WorkflowEngine) (c : WorkflowConfig)
  (input : string) (session : option string) :
  valid (validate_workflow self c) = true ->
  exists r st e,
    execute_workflow self c input session = Some (Returns r, Some (st, e))
    /\ forall pre w post, waves st = (pre ++ w :: post)%list ->
         wave_outcomes w = map (handled self w) (wave_ready w)
         /\ user_input (wave_context w) = input
         /\ (forall k, In k (dict_keys (results (wave_context w)))
                       <-> In k (ran pre))
         /\ (forall m, In m (wave_ready w) ->
               dict_get (node_id m) (results (wave_context w)) = None)
         /\ (forall w' m, In w' post -> In m (wave_ready w') ->
               dict_get (node_id m) (results (wave_context w)) = None).
Proof.
  intros V. destruct (execute_valid self c input session V)
    as (st & e & R & X).
  exists (finish self (nodes c) st), st, e. split; [exact X|].
  pose proof (run_record _ _ _ _ _ _ R) as Rec.
  destruct (run_invariant _ _ _ _ _ _ R) as [I _].
  intros pre w post E.
  pose proof (inv_waves _ _ _ _ I _ _ _ E) as W.
  assert (K : forall k, In k (dict_keys (results (wave_context w)))
                        <-> In k (ran pre)).
  { intros k. rewrite <- (wo_results _ _ _ _ _ W).
    apply (wo_executed _ _ _ _ _ W). }
  assert (None_of : forall k, ~ In k (ran pre) ->
            dict_get k (results (wave_context w)) = None).
  { intros k Hk.
    destruct (dict_get k (results (wave_context w))) eqn:G; [|reflexivity].
    exfalso. apply Hk, K. eapply dict_get_some_keys; eassumption. }
  split; [apply (wo_outcomes _ _ _ _ _ W)|].
  split; [apply (rec_wave_input _ _ _ _ Rec); rewrite E;
          apply in_or_app; right; now left|].
  split; [exact K|]. split.
  - intros m Hm. apply None_of. rewrite <- (wo_executed _ _ _ _ _ W).
    rewrite (wo_ready _ _ _ _ _ W) in Hm. apply ready_nodes_In in Hm. tauto.
  - intros w' m Hw' Hm. apply None_of.
    apply in_split in Hw'. destruct Hw' as [p1 [p2 ->]].
    assert (E' : waves st = ((pre ++ w :: p1) ++ w' :: p2)%list)
      by (rewrite E, <- app_assoc; reflexivity).
    pose proof (inv_waves _ _ _ _ I _ _ _ E') as W'.
    rewrite (wo_ready _ _ _ _ _ W') in Hm. apply ready_nodes_In in Hm.
    destruct Hm as (_ & Hfresh & _). intros Hk. apply Hfresh.
    apply (wo_executed _ _ _ _ _ W'). rewrite ran_app.
    apply in_or_app. now left.
Qed.

Lemma wave_context_isolation_witness :
  exists r st e,
    execute_workflow echo_engine kb_workflow "hello" None
    = Some (Returns r, Some (st, e))
    /\ forall w, hd_error (waves st) = Some w ->
         dict_keys (results (wave_context w)) = [].
Proof.
  destruct (wave_context_isolation echo_engine kb_workflow "hello" None
              eq_refl) as (r & st & e & X & H).
  exists r, st, e. split; [exact X|].
  intros w Hw. destruct (waves st) as [|w0 ws] eqn:E; [discriminate|].
  injection Hw as ->. destruct (H [] w ws eq_refl) as (_ & _ & K & _).
  destruct (dict_keys (results (wave_context w))) as [|k l]; [reflexivity|].
  destruct (proj1 (K k) (or_introl eq_refl)).
Defined.

(** ** Dependency paths *)

Lemma edge_declared_In (ns : list Node) (e : Edge) :
  edge_declared ns e = true ->
  In (edge_source e) (map node_id ns) /\ In (edge_target e) (map node_id ns).
Proof.
  unfold edge_declared. rewrite andb_true_iff, !py_in_In. tauto.
Qed.

Lemma ran_In (ws : list Wave) (k : pyval) :
  In k (ran ws) ->
  exists pre w post m,
    ws = (pre ++ w :: post)%list /\ In m (wave_ready w) /\ node_id m = k.
Proof.
  unfold ran. rewrite in_flat_map. intros [w [Hw Hk]].
  apply in_map_iff in Hk. destruct Hk as [m [Hid Hm]].
  apply in_split in Hw. destruct Hw as [pre [post ->]].
  now exists pre, w, post, m.
Qed.

Section Paths.
Variable self : WorkflowEngine.
Variable c : WorkflowConfig.
Variable st : RunState.
Hypothesis I :
  loop_invariant self (nodes c)
    (_build_execution_graph (nodes c) (edges c)) st.

Lemma source_ran_before (e : Edge) (pre post : list Wave) (w : Wave)
  (m : Node) :
  In e (edges c) -> edge_declared (nodes c) e = true ->
  waves st = (pre ++ w :: post)%list ->
  In m (wave_ready w) -> node_id m = edge_target e ->
  In (edge_source e) (ran pre).
Proof.
  intros He Hd E Hm Hid. apply edge_declared_In in Hd. destruct Hd as [Hs Ht].
  pose proof (inv_waves _ _ _ _ I _ _ _ E) as W.
  apply (wo_executed _ _ _ _ _ W).
  rewrite (wo_ready _ _ _ _ _ W) in Hm. apply ready_nodes_In in Hm.
  destruct Hm as (_ & _ & Hdeps). apply Hdeps. rewrite Hid.
  now apply edge_is_dependency.
Qed.

Lemma upstream_ran_before (a b : pyval) :
  reaches c a b ->
  forall pre w post m,
    waves st = (pre ++ w :: post)%list ->
    In m (wave_ready w) -> node_id m = b ->
    In a (ran pre).
Proof.
  induction 1 as [e He Hd | e b He Hd Hr IH]; intros pre w post m E Hm Hid.
  - now apply (source_ran_before e pre post w m).
  - pose proof (IH pre w post m E Hm Hid) as Ht.
    apply ran_In in Ht. destruct Ht as (p1 & w' & p2 & m' & -> & Hm' & Hid').
    rewrite ran_app. apply in_or_app. left.
    apply (source_ran_before e p1 (p2 ++ w :: post) w' m'); try assumption.
    rewrite E, <- app_assoc. reflexivity.
Qed.

Lemma upstream_executed (a b : pyval) :
  reaches c a b -> In b (executed_nodes st) -> In a (executed_nodes st).
Proof.
  intros Hr Hb. apply (inv_ran _ _ _ _ I) in Hb. apply ran_In in Hb.
  destruct Hb as (pre & w & post & m & E & Hm & Hid).
  apply (inv_ran _ _ _ _ I). rewrite E, ran_app. apply in_or_app. left.
  now apply (upstream_ran_before a b Hr pre w post m).
Qed.

Lemma cycle_not_executed (k : pyval) :
  reaches c k k -> ~ In k (executed_nodes st).
Proof.
  intros Hr Hk. apply (inv_ran _ _ _ _ I) in Hk. apply ran_In in Hk.
  destruct Hk as (pre & w & post & m & E & Hm & Hid).
  pose proof (upstream_ran_before k k Hr pre w post m E Hm Hid) as Hbefore.
  pose proof (inv_waves _ _ _ _ I _ _ _ E) as W.
  apply (wo_executed _ _ _ _ _ W) in Hbefore.
  rewrite (wo_ready _ _ _ _ _ W) in Hm. apply ready_nodes_In in Hm.
  rewrite Hid in Hm. tauto.
Qed.
End Paths.

Lemma reaches_declared (c : WorkflowConfig) (a b : pyval) :
  reaches c a b -> In a (map node_id (nodes c)).
Proof.
  intros H. destruct H as [e _ Hd | e b _ Hd _];
    now apply edge_declared_In in Hd.
Qed.

(** X10: the wave loop respects every dependency path, and a dependency
    cycle is never entered. If a path of declared edges leads from A to B
    and B has been executed, so has A; no node on a cycle of declared edges
    is ever executed, nor any node downstream of such a cycle; a workflow
    with a cycle ends by the empty-ready-set break with fewer executed than
    total nodes. *)
Theorem cycles_never_run (self : WorkflowEngine) (c : WorkflowConfig)
  (input : string) (session : option string) :
  valid (validate_workflow self c) = true ->
  exists r st e,
    execute_workflow self c input session = Some (Returns r, Some (st, e))
    /\ (forall a b, reaches c a b -> In b (executed_nodes st) ->
          In a (executed_nodes st))
    /\ (forall k, reaches c k k ->
          ~ In k (executed_nodes st)
          /\ dict_get k (results (result_context r)) = None
          /\ (forall b, reaches c k b -> ~ In b (executed_nodes st))
          /\ e = NoReadyNodes
          /\ summary_executed_nodes (execution_summary r)
             < summary_total_nodes (execution_summary r)).
Proof.
  intros V. destruct (execute_valid self c input session V)
    as (st & e & R & X).
  exists (finish self (nodes c) st), st, e. split; [exact X|].
  destruct (run_invariant _ _ _ _ _ _ R) as [I Hexit].
  split; [intros a b; now apply (upstream_executed self c st I)|].
  intros k Hk.
  pose proof (cycle_not_executed self c st I k Hk) as Hnot.
  split; [exact Hnot|]. split; [|split].
  - rewrite finish_results.
    destruct (dict_get k (results (context st))) eqn:G; [|reflexivity].
    exfalso. apply Hnot, (inv_keys _ _ _ _ I).
    eapply dict_get_some_keys; eassumption.
  - intros b Hb Hin. apply Hnot.
    now apply (upstream_executed self c st I k b).
  - pose proof (reaches_declared c k k Hk) as Hd.
    apply in_map_iff in Hd. destruct Hd as [n [Hid Hn]].
    rewrite <- Hid in Hnot.
    pose proof (unexecuted_bound _ _ _ _ n I Hn Hnot) as Hlt.
    apply loop_iteration_exit in Hexit. simpl.
    destruct e; [lia | now split].
Qed.

Lemma cycles_never_run_witness :
  exists r st e,
    execute_workflow echo_engine ring_workflow "hello" None
    = Some (Returns r, Some (st, e))
    /\ ~ In (Some "a") (executed_nodes st)
    /\ ~ In (Some "d") (executed_nodes st)
    /\ e = NoReadyNodes.
Proof.
  destruct (cycles_never_run echo_engine ring_workflow "hello" None eq_refl)
    as (r & st & e & X & _ & H).
  exists r, st, e. split; [exact X|].
  assert (Rab : reaches ring_workflow (Some "a") (Some "b")).
  { apply (reaches_edge ring_workflow (arrow "a" "b")); [simpl; tauto|].
    reflexivity. }
  assert (Rba : reaches ring_workflow (Some "b") (Some "a")).
  { apply (reaches_edge ring_workflow (arrow "b" "a")); [simpl; tauto|].
    reflexivity. }
  assert (Raa : reaches ring_workflow (Some "a") (Some "a")).
  { apply (reaches_step ring_workflow (arrow "a" "b") (Some "a"));
      [simpl; tauto | reflexivity | exact Rba]. }
  assert (Rad : reaches ring_workflow (Some "a") (Some "d")).
  { apply (reaches_step ring_workflow (arrow "a" "b") (Some "d"));
      [simpl; tauto | reflexivity |].
    apply (reaches_edge ring_workflow (arrow "b" "d")); [simpl; tauto|].
    reflexivity. }
  destruct (H (Some "a") Raa) as (Ha & _ & Hdown & He & _).
  split; [exact Ha|]. split; [exact (Hdown _ Rad) | exact He].
Defined.

(** ** Stalls *)

Lemma forallb_false_exists {A : Type} (p : A -> bool) (l : list A) :
  forallb p l = false -> exists x, In x l /\ p x = false.
Proof.
  induction l as [|a l IH]; simpl; [discriminate|].
  destruct (p a) eqn:E; simpl.
  - intros H. destruct (IH H) as [x [Hx Hp]]. exists x. split; [now right|].
    assumption.
  - intros _. exists a. split; [now left | assumption].
Qed.

Lemma filter_nil_false {A : Type} (p : A -> bool) (l : list A) (x : A) :
  filter p l = [] -> In x l -> p x = false.
Proof.
  intros H Hx. destruct (p x) eqn:E; [|reflexivity].
  assert (Hin : In x (filter p l)) by (apply filter_In; now split).
  rewrite H in Hin. destruct Hin.
Qed.

(** An unexecuted node, once the loop is over, waits for the source of a
    declared edge that is itself unexecuted. *)
Lemma unexecuted_waits (self : WorkflowEngine) (c : WorkflowConfig)
  (st : RunState) (e : LoopExit) (n : Node) :
  loop_invariant self (nodes c)
    (_build_execution_graph (nodes c) (edges c)) st ->
  loop_iteration self (nodes c)
    (_build_execution_graph (nodes c) (edges c)) st = Exit e ->
  In n (nodes c) -> ~ In (node_id n) (executed_nodes st) ->
  exists edge,
    In edge (edges c) /\ edge_declared (nodes c) edge = true
    /\ edge_target edge = node_id n
    /\ ~ In (edge_source edge) (executed_nodes st).
Proof.
  intros I Hexit Hn Hx.
  pose proof (unexecuted_bound _ _ _ _ n I Hn Hx) as Hlt.
  apply loop_iteration_exit in Hexit. destruct e; [lia|].
  destruct Hexit as [_ Hready].
  pose proof (filter_nil_false _ _ n Hready Hn) as Hp. simpl in Hp.
  apply py_in_not_In in Hx. rewrite Hx in Hp. simpl in Hp.
  apply forallb_false_exists in Hp. destruct Hp as [dep [Hdep Hnot]].
  apply py_in_not_In in Hnot.
  rewrite graph_dependencies in Hdep.
  apply sources_into_In in Hdep.
  destruct Hdep as [edge (He & Hd & Hs & Ht)].
  exists edge. rewrite Hs. now repeat split.
Qed.

(** X11: what a stall means. Whenever a node is left unexecuted at the end
    of a run, some edge into it has both ends declared and an unexecuted
    source: nodes are only ever left out for waiting on other left-out
    nodes, never for any other reason. *)
Theorem stalled_nodes_wait (self : WorkflowEngine) (c : WorkflowConfig)
  (input : string) (session : option string) :
  valid (validate_workflow self c) = true ->
  exists r st e,
    execute_workflow self c input session = Some (Returns r, Some (st, e))
    /\ forall n, In n (nodes c) -> ~ In (node_id n) (executed_nodes st) ->
         exists edge m,
           In edge (edges c) /\ edge_target edge = node_id n
           /\ In m (nodes c) /\ node_id m = edge_source edge
           /\ ~ In (node_id m) (executed_nodes st).
Proof.
  intros V. destruct (execute_valid self c input session V)
    as (st & e & R & X).
  exists (finish self (nodes c) st), st, e. split; [exact X|].
  destruct (run_invariant _ _ _ _ _ _ R) as [I Hexit].
  intros n Hn Hx.
  destruct (unexecuted_waits self c st e n I Hexit Hn Hx)
    as [edge (He & Hd & Ht & Hs)].
  apply edge_declared_In in Hd. destruct Hd as [Hsrc _].
  apply in_map_iff in Hsrc. destruct Hsrc as [m [Hid Hm]].
  exists edge, m. rewrite Hid. now repeat split.
Qed.

Lemma stalled_nodes_wait_witness :
  exists r st e,
    execute_workflow echo_engine stalled_workflow "hello" None
    = Some (Returns r, Some (st, e))
    /\ exists edge, In edge (edges stalled_workflow)
                    /\ edge_target edge = Some "x".
Proof.
  destruct (stalled_nodes_wait echo_engine stalled_workflow "hello" None
              eq_refl) as (r & st & e & X & H).
  exists r, st, e. split; [exact X|].
  destruct (H (plain_node "x" LLM_ENGINE)) as (edge & m & He & Ht & _).
  - simpl. tauto.
  - vm_compute in X. injection X as _ <- _.
    simpl. intros [F|[F|[]]]; discriminate.
  - now exists edge.
Defined.

(** ** Acyclic workflows *)

Lemma linked_tail (c : WorkflowConfig) (l1 l : list pyval) :
  l <> [] -> linked c (l1 ++ l) -> linked c l.
Proof.
  intros Hl. induction l1 as [|a l1 IH]; simpl; [trivial|].
  intros H. apply IH. inversion H as [x Hx | e l' He Hd Hl' [Ha Hb]].
  - destruct l1; [now destruct l | discriminate].
  - exact Hl'.
Qed.

Lemma linked_reaches (c : WorkflowConfig) (l l' : list pyval) (a b : pyval) :
  linked c (a :: l ++ b :: l') -> reaches c a b.
Proof.
  revert a. induction l as [|y l IH]; intros a H; simpl in H.
  - inversion H as [| e t He Hd Ht [Ha Hb]]. subst.
    now apply reaches_edge.
  - inversion H as [| e t He Hd Ht [Ha Hb]]. subst.
    apply (reaches_step c e b He Hd). apply IH. exact Ht.
Qed.

Lemma repeated_or_NoDup (p : list pyval) :
  NoDup p \/ exists x l1 l2 l3, p = (l1 ++ x :: l2 ++ x :: l3)%list.
Proof.
  induction p as [|a p [IH | (x & l1 & l2 & l3 & ->)]].
  - left. constructor.
  - destruct (py_in a p) eqn:E.
    + right. apply py_in_In, in_split in E. destruct E as [l2 [l3 ->]].
      now exists a, [], l2, l3.
    + left. apply py_in_not_In in E. now constructor.
  - right. now exists x, (a :: l1), l2, l3.
Qed.

Section Chains.
Variable self : WorkflowEngine.
Variable c : WorkflowConfig.
Variable st : RunState.
Variable e : LoopExit.
Hypothesis I :
  loop_invariant self (nodes c)
    (_build_execution_graph (nodes c) (edges c)) st.
Hypothesis Hexit :
  loop_iteration self (nodes c)
    (_build_execution_graph (nodes c) (edges c)) st = Exit e.

(** From an unexecuted node, chains of unexecuted ids of any length. *)
Lemma unexecuted_chain (k : nat) (n : Node) :
  In n (nodes c) -> ~ In (node_id n) (executed_nodes st) ->
  exists p,
    List.length p = S k /\ linked c p /\ incl p (map node_id (nodes c)).
Proof.
  intros Hn Hx.
  assert (G : exists x l,
    List.length (x :: l) = S k /\ linked c (x :: l)
    /\ incl (x :: l) (map node_id (nodes c))
    /\ ~ In x (executed_nodes st)).
  { induction k as [|k (x & l & Hlen & Hlink & Hincl & Hux)].
    - exists (node_id n), []. repeat split; try assumption.
      + constructor.
      + intros y [<-|[]]. now apply in_map.
    - assert (Hxd : In x (map node_id (nodes c))) by (apply Hincl; now left).
      apply in_map_iff in Hxd. destruct Hxd as [m [Hid Hm]].
      rewrite <- Hid in Hux.
      destruct (unexecuted_waits self c st e m I Hexit Hm Hux)
        as [edge (He & Hd & Ht & Hs)].
      exists (edge_source edge), (x :: l). repeat split.
      + simpl in *. lia.
      + rewrite <- Hid, <- Ht. apply linked_cons; try assumption.
        now rewrite Ht, Hid.
      + intros y [<-|Hy]; [|now apply Hincl].
        now apply edge_declared_In in Hd.
      + exact Hs. }
  destruct G as (x & l & Hlen & Hlink & Hincl & _). now exists (x :: l).
Qed.

Lemma unexecuted_cycle (n : Node) :
  In n (nodes c) -> ~ In (node_id n) (executed_nodes st) ->
  exists k, reaches c k k.
Proof.
  intros Hn Hx.
  destruct (unexecuted_chain (List.length (nodes c)) n Hn Hx)
    as (p & Hlen & Hlink & Hincl).
  destruct (repeated_or_NoDup p) as [D | (x & l1 & l2 & l3 & ->)].
  - apply (NoDup_incl_length D) in Hincl. rewrite length_map in Hincl. lia.
  - exists x. apply (linked_reaches c l2 l3).
    apply (linked_tail c l1); [discriminate | exact Hlink].
Qed.
End Chains.

(** X12: a workflow that passes validation and has no cycle of declared
    edges is run to the end: every declared node is executed and has its
    entry in [results]; with distinct node ids the loop ends with its
    condition false and the summary reports as many executed as total
    nodes. Conversely, a node is left out only if the workflow has a
    cycle. *)
Theorem acyclic_runs_every_node (self : WorkflowEngine) (c : WorkflowConfig)
  (input : string) (session : option string) :
  valid (validate_workflow self c) = true ->
  exists r st e,
    execute_workflow self c input session = Some (Returns r, Some (st, e))
    /\ (forall n, In n (nodes c) -> ~ In (node_id n) (executed_nodes st) ->
          exists k, reaches c k k)
    /\ (acyclic c ->
        (forall n, In n (nodes c) ->
           In (node_id n) (executed_nodes st)
           /\ dict_get (node_id n) (results (result_context r)) <> None)
        /\ (NoDup (map node_id (nodes c)) ->
            e = AllExecuted
            /\ summary_executed_nodes (execution_summary r)
               = summary_total_nodes (execution_summary r))).
Proof.
  intros V. destruct (execute_valid self c input session V)
    as (st & e & R & X).
  exists (finish self (nodes c) st), st, e. split; [exact X|].
  destruct (run_invariant _ _ _ _ _ _ R) as [I Hexit].
  split; [intros n; now apply (unexecuted_cycle self c st e I Hexit)|].
  intros A.
  assert (All : forall n, In n (nodes c) -> In (node_id n) (executed_nodes st)).
  { intros n Hn. apply py_in_In.
    destruct (py_in (node_id n) (executed_nodes st)) eqn:E; [reflexivity|].
    apply py_in_not_In in E.
    destruct (unexecuted_cycle self c st e I Hexit n Hn E) as [k Hk].
    destruct (A k Hk). }
  split.
  - intros n Hn. split; [now apply All|].
    rewrite finish_results. apply dict_get_keys, (inv_keys _ _ _ _ I).
    now apply All.
  - intros D.
    assert (Len : List.length (executed_nodes st) = List.length (nodes c)).
    { apply Nat.le_antisymm; [apply (executed_bound _ _ _ _ I)|].
      rewrite <- (length_map node_id (nodes c)).
      apply (NoDup_incl_length D). intros k Hk.
      apply in_map_iff in Hk. destruct Hk as [n [<- Hn]]. now apply All. }
    split; [|exact Len].
    apply loop_iteration_exit in Hexit. destruct e; [reflexivity | lia].
Qed.

Lemma acyclic_runs_every_node_witness :
  exists r st e,
    execute_workflow echo_engine kb_workflow "hello" None
    = Some (Returns r, Some (st, e))
    /\ In (Some "o") (executed_nodes st)
    /\ e = AllExecuted.
Proof.
  destruct (acyclic_runs_every_node echo_engine kb_workflow "hello" None
              eq_refl) as (r & st & e & X & _ & H).
  exists r, st, e. split; [exact X|].
  assert (Rank : forall a b, reaches kb_workflow a b -> kb_rank a < kb_rank b).
  { induction 1 as [ed He _ | ed b He _ _ IH].
    - simpl in He. destruct He as [<-|[<-|[<-|[]]]]; vm_compute; lia.
    - remember (kb_rank b) as rank_b.
      simpl in He. destruct He as [<-|[<-|[<-|[]]]];
        vm_compute in IH; vm_compute; lia. }
  assert (A : acyclic kb_workflow).
  { intros k Hk. apply Rank in Hk. lia. }
  destruct (H A) as [All Hd]. split.
  - apply (All (plain_node "o" OUTPUT)). simpl. tauto.
  - apply Hd. simpl. repeat constructor; simpl; intuition discriminate.
Defined.

(** * Properties of the collaborators *)

(** ** Completion *)

Lemma generate_completion_snd (svc : LLMService.self)
  (req : CompletionRequest) :
  snd (LLMService.generate_completion svc req) = snd (attempt_of svc req).
Proof.
  unfold LLMService.generate_completion. fold (attempt_of svc req).
  destruct (fst (attempt_of svc req)); [reflexivity|].
  now destruct (LLMService.is_fallback_error message).
Qed.

Lemma generate_completion_fst (svc : LLMService.self)
  (req : CompletionRequest) :
  fst (LLMService.generate_completion svc req)
  = match fst (attempt_of svc req) with
    | Ok text => Ok text
    | Raise message =>
        if LLMService.is_fallback_error message
        then Ok (LLMService.demo_response (req_provider req))
        else Raise message
    end.
Proof.
  unfold LLMService.generate_completion. fold (attempt_of svc req).
  destruct (fst (attempt_of svc req)); [reflexivity|].
  now destruct (LLMService.is_fallback_error message).
Qed.

Lemma openai_attempt (svc : LLMService.self) (prompt : string)
  (model : option string) (temperature : Q) (max_tokens : Z)
  (system_prompt api_key : option string) :
  LLMService._openai_completion svc prompt model temperature max_tokens
    system_prompt api_key
  = (Raise "OpenAI API key not provided and not configured", [])
  \/ exists call,
       LLMService._openai_completion svc prompt model temperature max_tokens
         system_prompt api_key
       = (LLMService.chat_completions_create svc call, [OpenAIChatCall call]).
Proof.
  unfold LLMService._openai_completion.
  destruct (if truthy api_key then _ else _) as [key|];
    [right; eexists; reflexivity | now left].
Qed.

Lemma gemini_attempt (svc : LLMService.self) (prompt : string)
  (model : option string) (temperature : Q) (max_tokens : Z)
  (system_prompt api_key : option string) :
  LLMService._gemini_completion svc prompt model temperature max_tokens
    system_prompt api_key
  = (Raise "Gemini API key not provided and not configured", [])
  \/ exists call,
       LLMService._gemini_completion svc prompt model temperature max_tokens
         system_prompt api_key
       = (LLMService.generate_content_async svc call,
          [GeminiGenerateCall call]).
Proof.
  unfold LLMService._gemini_completion.
  destruct (truthy api_key); [right; eexists; reflexivity|].
  destruct (truthy (LLMService.GEMINI_API_KEY svc));
    [right; eexists; reflexivity | now left].
Qed.

(** X13: [generate_completion] never raises an error whose lower-cased
    message contains [insufficient_quota], [429], [not found], [404] or
    [quota]: such a failure of the provider is turned into a successful
    demo response that names the provider. Any other failure is raised with
    its message unchanged, and a text the provider returned is returned as
    it is. At most one provider call is made. *)
Theorem completion_masks_quota_errors (svc : LLMService.self)
  (req : CompletionRequest) :
  (forall message,
     fst (LLMService.generate_completion svc req) = Raise message ->
     LLMService.is_fallback_error message = false)
  /\ (forall call,
        req_provider req = OPENAI ->
        snd (LLMService.generate_completion svc req) = [OpenAIChatCall call] ->
        fst (LLMService.generate_completion svc req)
        = match LLMService.chat_completions_create svc call with
          | Ok text => Ok text
          | Raise message =>
              if LLMService.is_fallback_error message
              then Ok (LLMService.demo_response OPENAI) else Raise message
          end)
  /\ (forall call,
        req_provider req = GEMINI ->
        snd (LLMService.generate_completion svc req)
        = [GeminiGenerateCall call] ->
        fst (LLMService.generate_completion svc req)
        = match LLMService.generate_content_async svc call with
          | Ok text => Ok text
          | Raise message =>
              if LLMService.is_fallback_error message
              then Ok (LLMService.demo_response GEMINI) else Raise message
          end)
  /\ (forall p, contains (LLMService.provider_value p)
                  (LLMService.demo_response p) = true)
  /\ List.length (snd (LLMService.generate_completion svc req)) <= 1.
Proof.
  split; [|split; [|split; [|split]]].
  - intros message. rewrite generate_completion_fst.
    destruct (fst (attempt_of svc req)) as [text|m];
      [intros H; discriminate H|].
    destruct (LLMService.is_fallback_error m) eqn:F;
      [intros H; discriminate H|].
    now intros [= <-].
  - intros call P.
    rewrite generate_completion_snd, generate_completion_fst.
    unfold attempt_of. rewrite P.
    destruct (openai_attempt svc (req_prompt req) (req_model req)
                (req_temperature req) (req_max_tokens req)
                (req_system_prompt req) (req_api_key req))
      as [-> | [call0 ->]]; simpl.
    + intros H. discriminate H.
    + intros [= <-]. reflexivity.
  - intros call P.
    rewrite generate_completion_snd, generate_completion_fst.
    unfold attempt_of. rewrite P.
    destruct (gemini_attempt svc (req_prompt req) (req_model req)
                (req_temperature req) (req_max_tokens req)
                (req_system_prompt req) (req_api_key req))
      as [-> | [call0 ->]]; simpl.
    + intros H. discriminate H.
    + intros [= <-]. reflexivity.
  - intros []; reflexivity.
  - rewrite generate_completion_snd. unfold attempt_of.
    destruct (req_provider req).
    + destruct (openai_attempt svc (req_prompt req) (req_model req)
                  (req_temperature req) (req_max_tokens req)
                  (req_system_prompt req) (req_api_key req))
        as [-> | [call0 ->]]; simpl; lia.
    + destruct (gemini_attempt svc (req_prompt req) (req_model req)
                  (req_temperature req) (req_max_tokens req)
                  (req_system_prompt req) (req_api_key req))
        as [-> | [call0 ->]]; simpl; lia.
Qed.

Lemma completion_masks_quota_errors_witness :
  fst (LLMService.generate_completion
         (failing_llm (Some "sk-test") None "Error code: 429 - Rate limit")
         (mkCompletion "hello" OPENAI None (7 # 10)%Q 1000%Z None None))
  = Ok (LLMService.demo_response OPENAI).
Proof.
  destruct (completion_masks_quota_errors
              (failing_llm (Some "sk-test") None "Error code: 429 - Rate limit")
              (mkCompletion "hello" OPENAI None (7 # 10)%Q 1000%Z None None))
    as (_ & H & _).
  exact (H (mkOpenAIChat "sk-test" "gpt-3.5-turbo" [("user", "hello")]
              (7 # 10)%Q 1000%Z) eq_refl eq_refl).
Defined.

(** X14: on an engine built on the completion service, an [llm_engine]
    node whose provider call fails with a quota-like message does not fail:
    its result is an [llm_response] whose content is the demo text, it is
    stored without an [error] key and so is not counted among the errors of
    the run. *)
Theorem quota_failure_is_not_a_node_error (llm : LLMService.self)
  (embedding_service : EmbeddingService.self)
  (store : VectorStoreService.self) (now : string) (n : Node)
  (context : Context) (message : string) :
  effective_type n = Some LLM_ENGINE ->
  fst (attempt_of llm (llm_request (data_config (node_data n)) context))
  = Raise message ->
  LLMService.is_fallback_error message = true ->
  fst (_execute_node (engine_of llm embedding_service store now) n context)
  = Ok (LlmResponse
          (LLMService.demo_response (llm_provider (data_config (node_data n))))
          (cfg_model (data_config (node_data n))) now)
  /\ has_error_key
       (stored (fst (_execute_node (engine_of llm embedding_service store now)
                       n context))) = false.
Proof.
  intros E A F.
  assert (H : fst (_execute_node (engine_of llm embedding_service store now)
                     n context)
              = Ok (LlmResponse
                      (LLMService.demo_response
                         (llm_provider (data_config (node_data n))))
                      (cfg_model (data_config (node_data n))) now)).
  { rewrite (dispatch_llm_engine _ _ _ E). unfold _execute_llm_engine.
    simpl. rewrite generate_completion_fst, A, F. reflexivity. }
  split; [exact H | now rewrite H].
Qed.

Lemma quota_failure_is_not_a_node_error_witness :
  has_error_key
    (stored (fst (_execute_node
                    (engine_of (failing_llm (Some "sk-test") None
                                  "insufficient_quota")
                       no_embeddings sample_store "t")
                    (plain_node "l" LLM_ENGINE) sample_context))) = false.
Proof.
  exact (proj2 (quota_failure_is_not_a_node_error
                  (failing_llm (Some "sk-test") None "insufficient_quota")
                  no_embeddings sample_store "t"
                  (plain_node "l" LLM_ENGINE) sample_context
                  "insufficient_quota" eq_refl eq_refl eq_refl)).
Defined.

(** X15: an [llm_engine] node without an API key of its own, on a service
    with no key configured for the provider the node selects, fails with the
    key error of that provider and no provider call is made; validation
    accepts such a node and only warns that its API key is missing. *)
Theorem missing_api_key_fails_node (llm : LLMService.self)
  (embedding_service : EmbeddingService.self)
  (store : VectorStoreService.self) (now : string) (n : Node)
  (context : Context) :
  effective_type n = Some LLM_ENGINE ->
  falsy (cfg_apiKey (data_config (node_data n))) = true ->
  falsy (match llm_provider (data_config (node_data n)) with
         | OPENAI => LLMService.OPENAI_API_KEY llm
         | GEMINI => LLMService.GEMINI_API_KEY llm
         end) = true ->
  fst (_execute_node (engine_of llm embedding_service store now) n context)
  = Raise (match llm_provider (data_config (node_data n)) with
           | OPENAI => "OpenAI API key not provided and not configured"
           | GEMINI => "Gemini API key not provided and not configured"
           end)
  /\ snd (LLMService.generate_completion llm
            (llm_request (data_config (node_data n)) context)) = []
  /\ forall self c, In n (nodes c) ->
       In (missing_api_key (node_id n)) (warnings (validate_workflow self c))
       /\ ~ In (missing_api_key (node_id n))
            (errors (validate_workflow self c)).
Proof.
  intros E Hk Hs.
  assert (A : attempt_of llm (llm_request (data_config (node_data n)) context)
              = (Raise (match llm_provider (data_config (node_data n)) with
                        | OPENAI =>
                            "OpenAI API key not provided and not configured"
                        | GEMINI =>
                            "Gemini API key not provided and not configured"
                        end), [])).
  { unfold attempt_of. simpl.
    destruct (llm_provider (data_config (node_data n))).
    - unfold LLMService._openai_completion, truthy. rewrite Hk, Hs. reflexivity.
    - unfold LLMService._gemini_completion, truthy. rewrite Hk, Hs. reflexivity. }
  split; [|split].
  - rewrite (dispatch_llm_engine _ _ _ E). unfold _execute_llm_engine. simpl.
    rewrite generate_completion_fst, A. simpl.
    now destruct (llm_provider (data_config (node_data n))).
  - now rewrite generate_completion_snd, A.
  - intros self c Hn. split.
    + simpl. unfold api_key_warnings. apply in_flat_map. exists n. split.
      * apply filter_In. split; [assumption|]. unfold has_kind.
        unfold effective_type in E.
        destruct (pyval_eqb (node_type n) (Some "custom"));
          rewrite E, pyval_eqb_refl; [apply orb_true_r | reflexivity].
      * rewrite Hk. now left.
    + simpl. intros H.
      assert (S : exists rest, missing_api_key (node_id n) = String "L" rest)
        by (eexists; reflexivity).
      destruct S as [rest S]. rewrite S in H.
      unfold validation_errors in H.
      apply in_app_or in H. destruct H as [H|H].
      { destruct (nodes c); [|destruct H]. destruct H as [H|[]]. discriminate. }
      apply in_app_or in H. destruct H as [H|H].
      { apply node_type_error_shape in H. destruct H as [v H]. discriminate. }
      apply in_app_or in H. destruct H as [H|H].
      { destruct (existsb _ _); [destruct H|]. destruct H as [H|[]].
        discriminate. }
      apply in_app_or in H. destruct H as [H|H].
      { destruct (existsb _ _); [destruct H|]. destruct H as [H|[]].
        discriminate. }
      apply edge_error_shape in H. destruct H as [v [H|H]]; discriminate.
Qed.

Lemma missing_api_key_fails_node_witness :
  fst (_execute_node
         (engine_of (failing_llm None None "unused") no_embeddings
            sample_store "t")
         (plain_node "l" LLM_ENGINE) sample_context)
  = Raise "OpenAI API key not provided and not configured".
Proof.
  exact (proj1 (missing_api_key_fails_node
                  (failing_llm None None "unused") no_embeddings sample_store
                  "t" (plain_node "l" LLM_ENGINE) sample_context
                  eq_refl eq_refl eq_refl)).
Defined.

(** ** Retrieval *)

(** X16: a [knowledge_base] node whose [embeddingProvider] is neither
    [openai] nor [gemini] always fails, with an error naming the provider;
    neither an embedding provider nor the vector store is called. *)
Theorem unsupported_embedding_provider (llm : LLMService.self)
  (embedding_service : EmbeddingService.self)
  (store : VectorStoreService.self) (now : string) (n : Node)
  (context : Context) (provider : string) :
  effective_type n = Some KNOWLEDGE_BASE ->
  cfg_embeddingProvider (data_config (node_data n)) = Some provider ->
  provider <> "openai" -> provider <> "gemini" ->
  fst (_execute_node (engine_of llm embedding_service store now) n context)
  = Raise (EmbeddingService.unsupported_provider provider)
  /\ contains provider (EmbeddingService.unsupported_provider provider) = true
  /\ forall query_text n_results,
       snd (VectorStoreService.search_by_text store embedding_service
              query_text n_results provider) = [].
Proof.
  intros E Hp N1 N2.
  assert (G : forall texts,
    EmbeddingService.generate_embeddings embedding_service texts provider
    = (Raise (EmbeddingService.unsupported_provider provider), [])).
  { intros texts. unfold EmbeddingService.generate_embeddings.
    apply String.eqb_neq in N1, N2. now rewrite N1, N2. }
  split; [|split].
  - unfold _execute_node. rewrite E. simpl.
    unfold _execute_knowledge_base. simpl.
    unfold engine_search, VectorStoreService.search_by_text,
      knowledge_base_request. simpl. rewrite Hp. simpl. rewrite G. reflexivity.
  - apply contains_suffix.
  - intros query_text n_results.
    unfold VectorStoreService.search_by_text. now rewrite G.
Qed.

Lemma unsupported_embedding_provider_witness :
  fst (_execute_node
         (engine_of (failing_llm None None "unused") one_embedding
            sample_store "t")
         (kb_node "k" (Some "cohere")) sample_context)
  = Raise "Unsupported embedding provider: cohere".
Proof.
  apply (unsupported_embedding_provider (failing_llm None None "unused")
           one_embedding sample_store "t" (kb_node "k" (Some "cohere"))
           sample_context "cohere");
    [reflexivity | reflexivity | discriminate | discriminate].
Defined.

(** X17: the Gemini embedding loop calls the provider once per text, in the
    order of the texts, and stops at the first call that raises: when it
    succeeds there are as many embeddings as texts and as many calls; when
    it fails, the calls made are for a prefix of the texts and the error is
    that of the last call made. *)
Theorem gemini_embeddings_one_call_per_text (svc : EmbeddingService.self)
  (texts : list string) :
  (exists done,
     snd (EmbeddingService.gemini_each svc texts)
     = map (GeminiEmbedCall "models/embedding-001") done
     /\ exists rest, texts = (done ++ rest)%list)
  /\ (forall embeddings,
        fst (EmbeddingService.gemini_each svc texts) = Ok embeddings ->
        List.length embeddings = List.length texts
        /\ snd (EmbeddingService.gemini_each svc texts)
           = map (GeminiEmbedCall "models/embedding-001") texts
        /\ Forall2 (fun text embedding =>
                      EmbeddingService.embed_content svc
                        "models/embedding-001" text = Ok embedding)
             texts embeddings)
  /\ (forall message,
        fst (EmbeddingService.gemini_each svc texts) = Raise message ->
        exists done text rest,
          texts = (done ++ text :: rest)%list
          /\ snd (EmbeddingService.gemini_each svc texts)
             = map (GeminiEmbedCall "models/embedding-001") (done ++ [text])
          /\ EmbeddingService.embed_content svc "models/embedding-001" text
             = Raise message).
Proof.
  induction texts as [|text texts (IHcalls & IHok & IHfail)]; simpl.
  - split; [exists []; split; [reflexivity | now exists []]|].
    split; [intros embeddings [= <-]; repeat split; constructor|].
    intros message H. discriminate H.
  - destruct (EmbeddingService.embed_content svc "models/embedding-001" text)
      as [embedding|m] eqn:C; simpl.
    + split; [|split].
      * destruct IHcalls as (done & Hd & rest & Hr).
        exists (text :: done). split; [simpl; now rewrite Hd|].
        exists rest. simpl. now rewrite Hr.
      * intros embeddings H.
        destruct (fst (EmbeddingService.gemini_each svc texts))
          as [es|m] eqn:F; [|discriminate H].
        injection H as <-. destruct (IHok es eq_refl) as (Hl & Hc & Hf).
        split; [simpl; now rewrite Hl|]. split; [now rewrite Hc|].
        now constructor.
      * intros message H.
        destruct (fst (EmbeddingService.gemini_each svc texts))
          as [es|m] eqn:F; [discriminate H|].
        injection H as <-.
        destruct (IHfail m eq_refl) as (done & t & rest & Ht & Hc & Hm).
        exists (text :: done), t, rest. split; [simpl; now rewrite Ht|].
        split; [simpl; now rewrite Hc | exact Hm].
    + split; [|split].
      * exists [text]. split; [reflexivity | now exists texts].
      * intros embeddings H. discriminate H.
      * intros message [= <-]. now exists [], text, texts.
Qed.

Lemma gemini_embeddings_one_call_per_text_witness :
  exists embeddings,
    fst (EmbeddingService.gemini_each one_embedding ["a"; "c"]) = Ok embeddings
    /\ List.length embeddings = 2
    /\ snd (EmbeddingService.gemini_each one_embedding ["a"; "c"])
       = map (GeminiEmbedCall "models/embedding-001") ["a"; "c"].
Proof.
  destruct (gemini_embeddings_one_call_per_text one_embedding ["a"; "c"])
    as (_ & H & _).
  eexists. split; [reflexivity|].
  destruct (H _ eq_refl) as (Hl & Hc & _). split; [exact Hl | exact Hc].
Defined.

(** X18: a text search makes the embedding call for the single query text
    and then one vector-store query with the first embedding returned and the
    requested number of results; of each field of the store's answer it
    keeps the first row, an absent field giving the empty list. A field
    present without any row, or an embedding call that returns no embedding,
    makes the search fail with an index error. *)
Theorem search_by_text_first_rows (store : VectorStoreService.self)
  (embedding_service : EmbeddingService.self) (query_text provider : string)
  (n_results : Z) (embedded : list Embedding) (calls0 : list ProviderCall) :
  EmbeddingService.generate_embeddings embedding_service [query_text] provider
  = (Ok embedded, calls0) ->
  match embedded with
  | [] =>
      VectorStoreService.search_by_text store embedding_service query_text
        n_results provider = (Raise "list index out of range", calls0)
  | query_embedding :: _ =>
      snd (VectorStoreService.search_by_text store embedding_service
             query_text n_results provider)
      = (calls0 ++ [ChromaQueryCall query_embedding n_results])%list
      /\ (forall message,
            VectorStoreService.collection_query store query_embedding n_results
            = Raise message ->
            fst (VectorStoreService.search_by_text store embedding_service
                   query_text n_results provider) = Raise message)
      /\ (forall results found,
            VectorStoreService.collection_query store query_embedding n_results
            = Ok results ->
            fst (VectorStoreService.search_by_text store embedding_service
                   query_text n_results provider) = Ok found ->
            VectorStoreService.first_row
              (VectorStoreService.qr_documents results)
            = Ok (VectorStoreService.documents found)
            /\ VectorStoreService.first_row
                 (VectorStoreService.qr_distances results)
               = Ok (VectorStoreService.distances found)
            /\ VectorStoreService.first_row
                 (VectorStoreService.qr_metadatas results)
               = Ok (VectorStoreService.metadatas found))
      /\ (forall results,
            VectorStoreService.collection_query store query_embedding n_results
            = Ok results ->
            VectorStoreService.qr_documents results = Some [] ->
            fst (VectorStoreService.search_by_text store embedding_service
                   query_text n_results provider)
            = Raise "list index out of range")
  end.
Proof.
  intros G. unfold VectorStoreService.search_by_text. rewrite G. simpl.
  destruct embedded as [|q rest]; [reflexivity|].
  unfold VectorStoreService.search. simpl.
  split; [reflexivity|]. split; [|split].
  - intros message ->. reflexivity.
  - intros results found ->. unfold VectorStoreService.format_results.
    destruct (VectorStoreService.first_row _) as [docs|]; [|discriminate].
    destruct (VectorStoreService.first_row _) as [dists|]; [|discriminate].
    destruct (VectorStoreService.first_row _) as [metas|]; [|discriminate].
    destruct (VectorStoreService.first_row _) as [idents|]; [|discriminate].
    intros [= <-]. now repeat split.
  - intros results -> Hd. unfold VectorStoreService.format_results.
    now rewrite Hd.
Qed.

Lemma search_by_text_first_rows_witness :
  exists found,
    fst (VectorStoreService.search_by_text sample_store one_embedding
           "hello" 5%Z "openai") = Ok found
    /\ Ok ["d1"; "d2"] = Ok (VectorStoreService.documents found).
Proof.
  pose proof (search_by_text_first_rows sample_store one_embedding
                "hello" "openai" 5%Z [[1%Q]]
                [OpenAIEmbedCall "text-embedding-ada-002" ["hello"]] eq_refl)
    as (_ & _ & H & _).
  eexists. split; [reflexivity|].
  exact (proj1 (H _ _ eq_refl eq_refl)).
Defined.

(** * Properties of the callers *)

Lemma execute_output_stated (self : WorkflowEngine) (n : Node)
  (context : Context) :
  effective_type n = Some OUTPUT ->
  fst (_execute_node self n context)
  = Ok (OutputResult (stated_output context) (utcnow self)).
Proof.
  intros E. rewrite (dispatch_output _ _ _ E).
  unfold _execute_output, stated_output. rewrite output_content_stated.
  now destruct (llm_responses context).
Qed.

(** X19: the chat reply of a workflow with distinct node ids. The reply is
    taken from the first executed node, in declaration order, that counts as
    an output node, and from no other: it is that node's content when its
    handler returned one, which for a node of effective type [output] is the
    aggregate of the [llm_response] results present when its wave started.
    When that node's handler failed, the reply is the fixed text
    [No response generated]: the error message is not shown. When no such
    node was executed, the reply is empty ([main.py] sends a fixed text
    instead). *)
Theorem chat_reply_of_run (self : WorkflowEngine) (c : WorkflowConfig)
  (input : string) (session : option string) :
  NoDup (map node_id (nodes c)) ->
  valid (validate_workflow self c) = true ->
  exists r st e,
    execute_workflow self c input session = Some (Returns r, Some (st, e))
    /\ (filter (fun n => has_kind OUTPUT n
                         && py_in (node_id n) (executed_nodes st)) (nodes c)
        = [] ->
        response_content r = ""
        /\ main_response r = "No output generated from workflow")
    /\ (forall n rest,
          filter (fun n => has_kind OUTPUT n
                           && py_in (node_id n) (executed_nodes st)) (nodes c)
          = n :: rest ->
          exists w,
            In w (waves st) /\ In n (wave_ready w)
            /\ response_content r
               = content_or "No response generated" (stored (handled self w n))
            /\ main_response r = response_content r
            /\ (effective_type n = Some OUTPUT ->
                response_content r = stated_output (wave_context w))
            /\ (forall message, handled self w n = Raise message ->
                  response_content r = "No response generated")).
Proof.
  intros D V. destruct (execute_valid self c input session V)
    as (st & e & R & X).
  exists (finish self (nodes c) st), st, e. split; [exact X|].
  pose proof (run_record _ _ _ _ _ _ R) as Rec.
  destruct (run_invariant _ _ _ _ _ _ R) as [I _].
  pose proof (final_output_spec (nodes c) (results (context st))) as F.
  rewrite (rec_keys _ _ _ _ Rec) in F.
  unfold response_content, main_response. simpl. split.
  - intros E. rewrite E in F. inversion F. now split.
  - intros n rest E. rewrite E in F.
    inversion F as [|n' v ns' vs Hv Hrest [En Ens] Eout]. subst.
    assert (Hn : In n (filter (fun n => has_kind OUTPUT n
                         && py_in (node_id n) (executed_nodes st)) (nodes c)))
      by (rewrite E; now left).
    apply filter_In in Hn. destruct Hn as [_ Hn].
    apply andb_true_iff in Hn. destruct Hn as [_ Hn].
    apply py_in_In, (inv_ran _ _ _ _ I), ran_In in Hn.
    destruct Hn as (pre & w & post & m & Ew & Hm & Hid).
    assert (m = n).
    { pose proof (inv_waves _ _ _ _ I _ _ _ Ew) as W.
      rewrite (wo_ready _ _ _ _ _ W) in Hm. apply ready_nodes_In in Hm.
      destruct Hm as (Hm & _).
      assert (Hnn : In n (nodes c)).
      { assert (Hf : In n (filter (fun n => has_kind OUTPUT n
                         && py_in (node_id n) (executed_nodes st)) (nodes c)))
          by (rewrite E; now left).
        now apply filter_In in Hf. }
      clear - D Hm Hnn Hid. induction (nodes c) as [|a l IH]; [destruct Hm|].
      simpl in D. apply NoDup_cons_iff in D. destruct D as [Da D].
      destruct Hm as [->|Hm], Hnn as [->|Hnn]; try reflexivity.
      - exfalso. apply Da. rewrite Hid. now apply in_map.
      - exfalso. apply Da. rewrite <- Hid. now apply in_map.
      - now apply IH. }
    subst m. exists w.
    split; [rewrite Ew; apply in_or_app; right; now left|].
    split; [exact Hm|].
    pose proof (inv_stored _ _ _ _ I D _ _ _ Ew n Hm) as S.
    rewrite S in Hv. injection Hv as <-.
    split; [reflexivity|]. split; [reflexivity|]. split.
    + intros Eo. unfold handled. now rewrite (execute_output_stated _ _ _ Eo).
    + intros message Hf. now rewrite Hf.
Qed.

Lemma chat_reply_of_run_witness :
  exists r st e,
    execute_workflow echo_engine kb_workflow "hello" None
    = Some (Returns r, Some (st, e))
    /\ response_content r = "echo:hello".
Proof.
  assert (D : NoDup (map node_id (nodes kb_workflow))).
  { simpl. repeat constructor; simpl; intuition discriminate. }
  destruct (chat_reply_of_run echo_engine kb_workflow "hello" None D eq_refl)
    as (r & st & e & X & _ & H).
  exists r, st, e. split; [exact X|].
  vm_compute in X. injection X as <- _ _. reflexivity.
Defined.

(** * The model passed to Gemini *)

(** X20: for an [llm_engine] node that selects the gemini provider, the
    configured model name is never passed on: every provider call is a
    Gemini call for the model [gemini-1.5-flash], with the system prompt, if
    any, put before the prompt and a blank line; yet the result the node
    returns is tagged with the configured model name. *)
Theorem gemini_model_is_fixed (llm : LLMService.self)
  (embedding_service : EmbeddingService.self)
  (store : VectorStoreService.self) (now : string) (n : Node)
  (context : Context) :
  effective_type n = Some LLM_ENGINE ->
  llm_provider (data_config (node_data n)) = GEMINI ->
  (forall call,
     In call (snd (LLMService.generate_completion llm
                     (llm_request (data_config (node_data n)) context))) ->
     exists g,
       call = GeminiGenerateCall g
       /\ ge_model g = "gemini-1.5-flash"
       /\ ge_prompt g
          = (if truthy (cfg_systemPrompt (data_config (node_data n)))
             then default "" (cfg_systemPrompt (data_config (node_data n)))
                  ++ blank_line
                  ++ llm_prompt (data_config (node_data n)) context
             else llm_prompt (data_config (node_data n)) context))
  /\ (forall r,
        fst (_execute_node (engine_of llm embedding_service store now)
               n context) = Ok r ->
        exists content,
          r = LlmResponse content (cfg_model (data_config (node_data n))) now).
Proof.
  intros E P. split.
  - intros call. rewrite generate_completion_snd. unfold attempt_of. simpl.
    rewrite P. unfold LLMService._gemini_completion.
    destruct (truthy (cfg_apiKey (data_config (node_data n)))); simpl.
    + intros [<-|[]]. eexists. split; [reflexivity|]. now split.
    + destruct (truthy (LLMService.GEMINI_API_KEY llm)); simpl.
      * intros [<-|[]]. eexists. split; [reflexivity|]. now split.
      * intros [].
  - intros r. rewrite (dispatch_llm_engine _ _ _ E).
    unfold _execute_llm_engine. simpl.
    destruct (fst (LLMService.generate_completion llm _)) as [text|m]; simpl.
    + intros [= <-]. now exists text.
    + intros H. discriminate H.
Qed.

Lemma gemini_model_is_fixed_witness :
  exists content,
    LlmResponse (LLMService.demo_response GEMINI) (Some "Gemini-Pro") "t"
    = LlmResponse content (Some "Gemini-Pro") "t".
Proof.
  exact (proj2 (gemini_model_is_fixed
                  (failing_llm None (Some "g-test") "quota") no_embeddings
                  sample_store "t" (llm_node "l" gemini_config) sample_context
                  eq_refl eq_refl) _ eq_refl).
Defined.

(** * The first wave *)

Lemma nil_of_no_member {A : Type} (l : list A) :
  (forall x, ~ In x l) -> l = [].
Proof. destruct l as [|a l]; [reflexivity|]. intros H. destruct (H a). now left. Qed.

Lemma ready_nodes_first (c : WorkflowConfig) :
  ready_nodes (nodes c) (_build_execution_graph (nodes c) (edges c)) []
  = filter (is_source c) (nodes c).
Proof.
  unfold ready_nodes. apply filter_ext. intros n. simpl. unfold is_source.
  rewrite graph_dependencies.
  now destruct (sources_into (nodes c) (edges c) (node_id n)).
Qed.

(** X21: the first wave of a run is made of the nodes that no declared edge
    leads into, all of them, in declaration order, and their handlers are
    given empty results. When every node has such an incoming edge, no wave
    is run at all and nothing is executed. *)
Theorem first_wave_runs_sources (self : WorkflowEngine) (c : WorkflowConfig)
  (input : string) (session : option string) :
  valid (validate_workflow self c) = true ->
  exists r st e,
    execute_workflow self c input session = Some (Returns r, Some (st, e))
    /\ match waves st with
       | [] =>
           filter (is_source c) (nodes c) = []
           /\ executed_nodes st = [] /\ output r = [] /\ e = NoReadyNodes
       | w :: _ =>
           wave_ready w = filter (is_source c) (nodes c)
           /\ results (wave_context w) = []
       end.
Proof.
  intros V. destruct (execute_valid self c input session V)
    as (st & e & R & X).
  exists (finish self (nodes c) st), st, e. split; [exact X|].
  destruct (run_invariant _ _ _ _ _ _ R) as [I Hexit].
  destruct (waves st) as [|w ws] eqn:E.
  - assert (Ex : executed_nodes st = []).
    { apply nil_of_no_member. intros k Hk.
      apply (inv_ran _ _ _ _ I) in Hk. rewrite E in Hk. destruct Hk. }
    assert (Rs : results (context st) = []).
    { destruct (results (context st)) as [|[k v] l] eqn:G; [reflexivity|].
      assert (Hk : In k (executed_nodes st)).
      { apply (inv_keys _ _ _ _ I). rewrite G. now left. }
      rewrite Ex in Hk. destruct Hk. }
    apply valid_iff_no_errors, validation_errors_nil in V.
    destruct V as (Hne & _).
    apply loop_iteration_exit in Hexit. rewrite Ex in Hexit.
    destruct e.
    + simpl in Hexit. destruct (nodes c); [congruence | simpl in Hexit; lia].
    + destruct Hexit as [_ Hr]. rewrite ready_nodes_first in Hr.
      split; [exact Hr|]. split; [exact Ex|]. split; [|reflexivity].
      simpl. rewrite Rs. unfold final_output.
      induction (filter (has_kind OUTPUT) (nodes c)); [reflexivity | exact IHl].
  - pose proof (inv_waves _ _ _ _ I [] w ws E) as W.
    assert (Ex : wave_executed w = []).
    { apply nil_of_no_member. intros k Hk.
      apply (wo_executed _ _ _ _ _ W) in Hk. destruct Hk. }
    split.
    + rewrite (wo_ready _ _ _ _ _ W), Ex. apply ready_nodes_first.
    + destruct (results (wave_context w)) as [|[k v] l] eqn:G; [reflexivity|].
      assert (Hk : In k (wave_executed w)).
      { apply (wo_results _ _ _ _ _ W). rewrite G. now left. }
      rewrite Ex in Hk. destruct Hk.
Qed.

Lemma first_wave_runs_sources_witness :
  exists r st e,
    execute_workflow echo_engine kb_workflow "hello" None
    = Some (Returns r, Some (st, e))
    /\ option_map wave_ready (hd_error (waves st))
       = Some [plain_node "q" USER_QUERY; plain_node "k" KNOWLEDGE_BASE].
Proof.
  destruct (first_wave_runs_sources echo_engine kb_workflow "hello" None
              eq_refl) as (r & st & e & X & H).
  exists r, st, e. split; [exact X|].
  destruct (waves st) as [|w ws].
  - destruct H as [H _]. vm_compute in H. discriminate H.
  - destruct H as [H _]. simpl. rewrite H. reflexivity.
Defined.

(** * Embedding keys *)

(** X22: a [knowledge_base] node whose embedding provider is [openai] (the
    default) or [gemini], on an embedding service with no key configured for
    that provider, fails with that provider's key error; neither the
    embedding provider nor the vector store is called. *)
Theorem missing_embedding_key_fails_node (llm : LLMService.self)
  (embedding_service : EmbeddingService.self)
  (store : VectorStoreService.self) (now : string) (n : Node)
  (context : Context) :
  effective_type n = Some KNOWLEDGE_BASE ->
  (default "openai" (cfg_embeddingProvider (data_config (node_data n)))
   = "openai"
   -> falsy (EmbeddingService.OPENAI_API_KEY embedding_service) = true
   -> fst (_execute_node (engine_of llm embedding_service store now) n context)
      = Raise "OpenAI API key not configured"
      /\ forall query_text n_results,
           snd (VectorStoreService.search_by_text store embedding_service
                  query_text n_results "openai") = [])
  /\ (cfg_embeddingProvider (data_config (node_data n)) = Some "gemini"
      -> falsy (EmbeddingService.GEMINI_API_KEY embedding_service) = true
      -> fst (_execute_node (engine_of llm embedding_service store now)
                n context)
         = Raise "Gemini API key not configured"
         /\ forall query_text n_results,
              snd (VectorStoreService.search_by_text store embedding_service
                     query_text n_results "gemini") = []).
Proof.
  intros E. split.
  - intros Hp Hk.
    assert (G : forall texts,
      EmbeddingService.generate_embeddings embedding_service texts "openai"
      = (Raise "OpenAI API key not configured", [])).
    { intros texts. unfold EmbeddingService.generate_embeddings. simpl.
      unfold EmbeddingService._openai_embeddings, truthy. now rewrite Hk. }
    split.
    + unfold _execute_node. rewrite E. simpl.
      unfold _execute_knowledge_base. simpl.
      unfold engine_search, VectorStoreService.search_by_text,
        knowledge_base_request. simpl. rewrite Hp, G. reflexivity.
    + intros query_text n_results.
      unfold VectorStoreService.search_by_text. now rewrite G.
  - intros Hp Hk.
    assert (G : forall texts,
      EmbeddingService.generate_embeddings embedding_service texts "gemini"
      = (Raise "Gemini API key not configured", [])).
    { intros texts. unfold EmbeddingService.generate_embeddings. simpl.
      unfold EmbeddingService._gemini_embeddings, truthy. now rewrite Hk. }
    split.
    + unfold _execute_node. rewrite E. simpl.
      unfold _execute_knowledge_base. simpl.
      unfold engine_search, VectorStoreService.search_by_text,
        knowledge_base_request. simpl. rewrite Hp. simpl. rewrite G.
      reflexivity.
    + intros query_text n_results.
      unfold VectorStoreService.search_by_text. now rewrite G.
Qed.

Lemma missing_embedding_key_fails_node_witness :
  fst (_execute_node
         (engine_of (failing_llm None None "unused") no_embeddings
            sample_store "t")
         (kb_node "k" None) sample_context)
  = Raise "OpenAI API key not configured".
Proof.
  exact (proj1 (proj1 (missing_embedding_key_fails_node
                         (failing_llm None None "unused") no_embeddings
                         sample_store "t" (kb_node "k" None) sample_context
                         eq_refl) eq_refl eq_refl)).
Defined.
